(** * img-router: image acquisition and task orchestration

    A shallow embedding of the TypeScript sources
    - [base64.ts]           (the codec),
    - [image_resolver.ts]   (network-address guard, bounded fetcher, resolver),
    - [image_input.ts]      (preparation of caller-supplied references),
    - [main.ts]             (the ModelScope submit-and-poll handler),
    together with the properties of the specification that concern them. *)

From Stdlib Require Import ZArith Lia List String Ascii.
From Stdlib Require Import Strings.Byte.
From stdpp Require Import base list.

Local Open Scope Z_scope.

(** ** JavaScript values used by the sources *)

(** A JavaScript string is a sequence of UTF-16 code units. *)
Abbreviation jstring := (list Z).

(** [lit "abc"] is the string literal with the code units of its (ASCII)
    characters. *)
Definition lit (s : string) : jstring :=
  List.map (fun a => Z.of_N (N_of_ascii a)) (list_ascii_of_string s).
Arguments lit s%_string.

Definition jstring_eqb (s t : jstring) : bool := bool_decide (s = t).

(** The elements of a [Uint8Array] are bytes. *)
Definition byteval (b : byte) : Z := Z.of_N (Byte.to_N b).

(** Storing a number into a [Uint8Array] keeps it modulo 256. *)
Definition toUint8 (z : Z) : byte :=
  match Byte.of_N (Z.to_N (z mod 256)) with
  | Some b => b
  | None => x00
  end.

(** 32-bit integer conversions and the bitwise operators built on them. *)
Definition ToUint32 (z : Z) : Z := z mod 2 ^ 32.

Definition ToInt32 (z : Z) : Z :=
  let m := z mod 2 ^ 32 in if m <? 2 ^ 31 then m else m - 2 ^ 32.

(** [a << k] *)
Definition js_shl (a k : Z) : Z := ToInt32 (Z.shiftl (ToInt32 a) (k mod 32)).
(** [a >>> k] *)
Definition js_shru (a k : Z) : Z := Z.shiftr (ToUint32 a) (k mod 32).
(** [a | b] *)
Definition js_or (a b : Z) : Z := ToInt32 (Z.lor (ToInt32 a) (ToInt32 b)).
(** [a & b] *)
Definition js_and (a b : Z) : Z := ToInt32 (Z.land (ToInt32 a) (ToInt32 b)).

(** A number that may be [undefined] (or [NaN]): [None].  In a bitwise
    operation both convert to 0; in a comparison with [<] or [===] against
    a number both give [false]. *)
Abbreviation jnum := (option Z).

Definition num (v : jnum) : Z := match v with Some z => z | None => 0 end.
Definition jlt0 (v : jnum) : bool := match v with Some z => z <? 0 | None => false end.
Definition jeq (v : jnum) (k : Z) : bool := match v with Some z => z =? k | None => false end.

(** The white space of the regular expression class [\s] and of [trim()]
    (WhiteSpace and LineTerminator code points). *)
Definition is_js_space (c : Z) : bool :=
  ((9 <=? c) && (c <=? 13)) || (c =? 32) || (c =? 160) || (c =? 5760)
  || ((8192 <=? c) && (c <=? 8202)) || (c =? 8232) || (c =? 8233)
  || (c =? 8239) || (c =? 8287) || (c =? 12288) || (c =? 65279).

(** [s.charCodeAt(i)]: [NaN] out of range. *)
Definition charCodeAt (s : jstring) (i : nat) : jnum := s !! i.

(** [s.endsWith(suffix)] *)
Definition endsWith (s suffix : jstring) : bool :=
  (length suffix <=? length s)%nat
  && jstring_eqb (drop (length s - length suffix) s) suffix.

(** [s.startsWith(prefix)] *)
Definition startsWith (s prefix : jstring) : bool :=
  jstring_eqb (take (length prefix) s) prefix.

(** ** Errors

    The sources throw [Error] objects told apart by their message; each
    constructor stands for one message (or family of messages) and carries
    the name the specification gives to the condition. *)
Inductive Error : Type :=
  | InvalidLength          (* "Invalid base64 length" *)
  | InvalidCharacter       (* "Invalid base64 character" *)
  | InvalidReference       (* "Invalid image url: ..." / "Invalid data URL: missing comma" *)
  | UnsupportedEncoding    (* "Invalid data URL: only base64-encoded data URLs are supported" *)
  | InvalidMediaType       (* "Invalid data URL mime: ..." / "Invalid Content-Type: ..." *)
  | TooLarge               (* "Image too large: ..." *)
  | UnsupportedScheme      (* "Unsupported image URL protocol: ..." *)
  | BlockedBySsrfPolicy    (* "Blocked by SSRF protection: ..." *)
  | UpstreamError (status : Z) (text : jstring)   (* "Failed to fetch image (status): text" *)
  | Timeout                (* the abort signal fired *)
  | NetworkFailure         (* the transport rejected *)
  | MissingReferenceImage  (* "ModelScope image edit requires a reference image, ..." *)
  | SubmitError (status : Z) (text : jstring)     (* "ModelScope Submit Error (status): text" *)
  | UnexpectedResponse     (* "ModelScope unexpected response without task_id: ..." *)
  | UpstreamTaskFailed     (* "ModelScope Task Failed: ..." *)
  | PollTimeout            (* "ModelScope Task Timeout" *)
  | MalformedResponse      (* [json()] or [text()] rejected *)
  | TypeError.             (* property access on [null] *)

Inductive result (A : Type) : Type :=
  | Ok (a : A)
  | Err (e : Error).
Arguments Ok {A} a.
Arguments Err {A} e.

(** ** base64.ts *)
Module Codec.

Definition BASE64_ALPHABET : jstring :=
  lit "ABCDEFGHIJKLMNOPQRSTUVWXYZabcdefghijklmnopqrstuvwxyz0123456789+/".

(** The [Int16Array(256)] filled with -1, then with the index of every
    alphabet symbol, then with the two base64url symbols. *)
Definition BASE64_LOOKUP : list Z :=
  let table := replicate 256 (-1) in
  let table :=
    fold_left
      (fun t i => match charCodeAt BASE64_ALPHABET i with
                  | Some c => <[Z.to_nat c := Z.of_nat i]> t
                  | None => t
                  end)
      (seq 0 (length BASE64_ALPHABET)) table in
  let table := <[45%nat := 62]> table in
  <[95%nat := 63]> table.

(** [BASE64_LOOKUP[c]]: [undefined] outside the table. *)
Definition lookup_code (c : jnum) : jnum :=
  match c with
  | Some z => if z <? 0 then None else BASE64_LOOKUP !! Z.to_nat z
  | None => None
  end.

(** [BASE64_ALPHABET[k]] as it is joined into the output: one code unit,
    or nothing when the index is out of range ([undefined] joins as the
    empty string). *)
Definition alphabet_at (k : Z) : jstring :=
  if k <? 0 then []
  else match BASE64_ALPHABET !! Z.to_nat k with
       | Some c => [c]
       | None => []
       end.

Definition encode_group3 (b0 b1 b2 : byte) : jstring :=
  let n := js_or (js_or (js_shl (byteval b0) 16) (js_shl (byteval b1) 8)) (byteval b2) in
  alphabet_at (js_and (js_shru n 18) 63)
  ++ alphabet_at (js_and (js_shru n 12) 63)
  ++ alphabet_at (js_and (js_shru n 6) 63)
  ++ alphabet_at (js_and n 63).

Definition encode_remain1 (b0 : byte) : jstring :=
  let n := byteval b0 in
  alphabet_at (js_and (js_shru n 2) 63)
  ++ alphabet_at (js_shl (js_and n 3) 4)
  ++ lit "=" ++ lit "=".

Definition encode_remain2 (b0 b1 : byte) : jstring :=
  let n := js_or (js_shl (byteval b0) 8) (byteval b1) in
  alphabet_at (js_and (js_shru n 10) 63)
  ++ alphabet_at (js_and (js_shru n 4) 63)
  ++ alphabet_at (js_shl (js_and n 15) 2)
  ++ lit "=".

(** The loop [for (; i + 2 < bytes.length; i += 3)] followed by the
    handling of the [remain] trailing bytes; the argument is the part of
    [bytes] from index [i] on, the result the symbols written to [out]
    from there on, joined. *)
Fixpoint encode_from (bytes : list byte) : jstring :=
  match bytes with
  | b0 :: b1 :: b2 :: rest => encode_group3 b0 b1 b2 ++ encode_from rest
  | [b0] => encode_remain1 b0
  | [b0; b1] => encode_remain2 b0 b1
  | [] => []
  end.

Definition encodeBase64 (bytes : list byte) : jstring :=
  if (length bytes =? 0)%nat then [] else encode_from bytes.

(** One iteration of the decoding loop on the code units at [i .. i+3];
    [o] is the write index and [out] the [Uint8Array], where a write past
    the end is dropped. *)
Definition decode_group (c0 c1 c2 c3 : jnum) (o : nat) (out : list byte)
  : result (nat * list byte) :=
  let v0 := lookup_code c0 in
  let v1 := lookup_code c1 in
  let v2 := if jeq c2 61 then Some (-2) else lookup_code c2 in
  let v3 := if jeq c3 61 then Some (-2) else lookup_code c3 in
  if jlt0 v0 || jlt0 v1 || jeq v2 (-1) || jeq v3 (-1) then Err InvalidCharacter
  else
    let n := js_or (js_or (js_or (js_shl (num v0) 18) (js_shl (num v1) 12))
                          (js_shl (js_and (num v2) 63) 6))
                   (js_and (num v3) 63) in
    let out := <[o := toUint8 (js_and (js_shru n 16) 255)]> out in
    let o := S o in
    let '(o, out) :=
      if negb (jeq v2 (-2))
      then (S o, <[o := toUint8 (js_and (js_shru n 8) 255)]> out)
      else (o, out) in
    let '(o, out) :=
      if negb (jeq v3 (-2))
      then (S o, <[o := toUint8 (js_and n 255)]> out)
      else (o, out) in
    Ok (o, out).

(** The loop [for (let i = 0; i < len; i += 4)]; the argument is the part
    of [padded] from index [i] on.  A last group of fewer than four code
    units reads [NaN] for the missing ones. *)
Fixpoint decode_from (s : jstring) (o : nat) (out : list byte) : result (list byte) :=
  match s with
  | [] => Ok out
  | c0 :: c1 :: c2 :: c3 :: rest =>
      match decode_group (Some c0) (Some c1) (Some c2) (Some c3) o out with
      | Ok (o', out') => decode_from rest o' out'
      | Err e => Err e
      end
  | c0 :: t =>
      match decode_group (Some c0) (t !! 0%nat) (t !! 1%nat) (t !! 2%nat) o out with
      | Ok (_, out') => Ok out'
      | Err e => Err e
      end
  end.

(** [input.replace(/\s+/g, "")] *)
Definition strip_space (input : jstring) : jstring :=
  List.filter (fun c => negb (is_js_space c)) input.

(** [padded.endsWith("==") ? 2 : (padded.endsWith("=") ? 1 : 0)] *)
Definition padding_of (padded : jstring) : nat :=
  if endsWith padded (lit "==") then 2%nat
  else if endsWith padded (lit "=") then 1%nat else 0%nat.

Definition decodeBase64 (input : jstring) : result (list byte) :=
  let cleaned := strip_space input in
  if (length cleaned =? 0)%nat then Ok []
  else
    let mod_ := (length cleaned mod 4)%nat in
    let padded :=
      if (mod_ =? 0)%nat then cleaned else cleaned ++ replicate (4 - mod_) 61 in
    if negb (length padded mod 4 =? 0)%nat then Err InvalidLength
    else
      let len := length padded in
      let padding := padding_of padded in
      (* [len >= 4] here, so the subtraction does not go below zero *)
      let outLen := (len / 4 * 3 - padding)%nat in
      decode_from padded 0 (replicate outLen x00).

(** A symbol that is neither the padding marker nor white space. *)
Definition plain_symbol (c : Z) : Prop := c <> 61 /\ is_js_space c = false.

(** The check that the symbol of a 6-bit value is looked up as that value. *)
Definition sextet_ok (k : Z) : bool :=
  match alphabet_at k with
  | [c] => jeq (lookup_code (Some c)) k && negb (c =? 61) && negb (is_js_space c)
  | _ => false
  end.

(** The symbols the decoder has a value for: the alphabet and the two
    base64url symbols. *)
Definition accepted_symbol (c : Z) : bool :=
  existsb (Z.eqb c) (BASE64_ALPHABET ++ lit "-_").

(** The check that a code unit of the table that is not an accepted symbol
    is looked up as -1. *)
Definition unaccepted_ok (c : Z) : bool :=
  accepted_symbol c || jeq (lookup_code (Some c)) (-1).

End Codec.

Import Codec.


(** ** String operations of the standard library used by the sources *)
Module JsString.

(** [s.toLowerCase()], on the ASCII letters: the strings it is applied to
    (host names, scheme names, media types, configuration values) are
    compared with ASCII literals only.  The platform also lower-cases
    letters outside ASCII; a statement that exposes the lower-cased text
    itself is made for ASCII text. *)
Definition toLowerCase (s : jstring) : jstring :=
  List.map (fun c => if (65 <=? c) && (c <=? 90) then c + 32 else c) s.

Fixpoint trimStart (s : jstring) : jstring :=
  match s with
  | c :: t => if is_js_space c then trimStart t else s
  | [] => []
  end.

(** [s.trim()] *)
Definition trim (s : jstring) : jstring := rev (trimStart (rev (trimStart s))).

(** [s.indexOf(c)] for a one-symbol string; [None] stands for -1. *)
Fixpoint indexOf (s : jstring) (c : Z) : option nat :=
  match s with
  | [] => None
  | d :: t => if d =? c then Some 0%nat else option_map S (indexOf t c)
  end.

(** [s.slice(from, to)] for indices within the string. *)
Definition slice (s : jstring) (from to : nat) : jstring :=
  take (to - from) (drop from s).

(** [s.split(c)] for a one-symbol separator. *)
Fixpoint split (s : jstring) (sep : Z) : list jstring :=
  match s with
  | [] => [[]]
  | c :: t =>
      if c =? sep then [] :: split t sep
      else match split t sep with
           | p :: ps => (c :: p) :: ps
           | [] => [[c]]
           end
  end.

(** [s.includes(sub)] *)
Fixpoint includes (s sub : jstring) : bool :=
  startsWith s sub
  || match s with
     | [] => false
     | _ :: t => includes t sub
     end.

Definition is_digit (c : Z) : bool := (48 <=? c) && (c <=? 57).

(** The value of the longest prefix of decimal digits, and whether there
    is one. *)
Fixpoint digits_value (s : jstring) (acc : Z) (seen : bool) : jnum :=
  match s with
  | c :: t => if is_digit c then digits_value t (acc * 10 + (c - 48)) true
              else if seen then Some acc else None
  | [] => if seen then Some acc else None
  end.

(** [Number.parseInt(s, 10)]: leading white space, an optional sign, then
    decimal digits; [NaN] ([None]) when there is no digit.  Numbers are
    kept as exact integers: the sources compare them with byte counts and
    small constants, far below 2^53. *)
Definition parseInt (s : jstring) : jnum :=
  match trimStart s with
  | 45 :: t => option_map Z.opp (digits_value t 0 false)
  | 43 :: t => digits_value t 0 false
  | t => digits_value t 0 false
  end.

(** [Number.isFinite(n)]: not [NaN], and below the magnitude from which a
    decimal integer is rounded to [Infinity]. *)
Definition isFinite (n : jnum) : bool :=
  match n with
  | Some z => Z.abs z <? 2 ^ 1024 - 2 ^ 970
  | None => false
  end.

End JsString.

(** ** The network and the trace of a call

    The transport ([fetch], or the injected [fetchFn]) is a test double:
    the world holds the outcomes of the network calls still to come, and
    every call takes the next one.  The trace records, in order, what the
    code did to the outside: network calls, reads of a response body and
    waits, together with the entry into [resolveImage]. *)

(** One settlement of [reader.read()] before the end of the stream:
    [{done: false, value}] or a rejection. *)
Inductive ReadStep : Type :=
  | Chunk (value : option (list byte))
  | ReadFails (e : Error).

(** JSON values, as [json()] returns them.  Of a number the code only ever
    observes whether it is zero. *)
#[warnings="-register-all"]
Inductive JSON : Type :=
  | JNull
  | JBool (b : bool)
  | JNum (n : Z)
  | JStr (s : jstring)
  | JArr (items : list JSON)
  | JObj (fields : list (jstring * JSON)).

Record Response : Type := {
  status : Z;
  content_length : option jstring;      (* headers.get("content-length") *)
  content_type : option jstring;        (* headers.get("content-type") *)
  body : option (list ReadStep);        (* the steps of body.getReader() *)
  text : option jstring;                (* what text() resolves to, if it does *)
  json : option JSON                    (* what json() resolves to, if it does *)
}.

(** [resp.ok] *)
Definition ok (resp : Response) : bool :=
  (200 <=? status resp) && (status resp <=? 299).

Inductive NetOutcome : Type :=
  | Responds (resp : Response)
  | Rejects (e : Error).

(** The body of a submission. *)
Inductive SubmitBody : Type :=
  | EditForm (model prompt n size response_format : jstring)
             (imageField : jstring) (blob : list byte) (blobType filename : jstring)
  | GenerationJson (model prompt : jstring) (image : option jstring)
                   (response_format size : jstring) (n : Z).

Inductive Event : Type :=
  | EvResolveImage (url : jstring)                  (* resolveImage entered *)
  | EvFetchImage (href : jstring) (timeoutMs : Z)   (* fetchFn(href, GET) *)
  | EvReadText                                      (* resp.text() *)
  | EvReadJson                                      (* resp.json() *)
  | EvBodyRead                                      (* reader.read() *)
  | EvBodyCancel                                    (* reader.cancel() *)
  | EvReleaseLock                                   (* reader.releaseLock() *)
  | EvSubmit (url : jstring) (body : SubmitBody)    (* POST of the job *)
  | EvPoll (apiUrl : jstring) (taskId : JSON) (taskType : option jstring)
                                                    (* GET apiUrl/tasks/taskId *)
  | EvSleep (ms : Z).                               (* setTimeout(resolve, ms) *)

Record World : Type := {
  net : list NetOutcome;
  trace : list Event
}.

(** Computations that act on the world and may throw. *)
Definition M (A : Type) : Type := World -> result A * World.

Definition ret {A : Type} (a : A) : M A := fun w => (Ok a, w).

Definition throw {A : Type} (e : Error) : M A := fun w => (Err e, w).

Definition bind {A B : Type} (c : M A) (k : A -> M B) : M B :=
  fun w => match c w with
           | (Ok a, w') => k a w'
           | (Err e, w') => (Err e, w')
           end.

Notation "x <- c ;; k" := (bind c (fun x => k))
  (at level 100, c at next level, right associativity).
Notation "c ;;; k" := (bind c (fun _ => k))
  (at level 100, right associativity).

(** The world after [events] have been added to its trace. *)
Definition after (w : World) (events : list Event) : World :=
  {| net := net w; trace := trace w ++ events |}.

Definition emit (ev : Event) : M unit := fun w => (Ok tt, after w [ev]).

(** [try { c } finally { f }] where [f] does not throw. *)
Definition finally {A : Type} (c : M A) (f : M unit) : M A :=
  fun w => match c w with
           | (r, w') => (r, snd (f w'))
           end.

(** A call of the transport: the next outcome of the world; a world with
    no outcome left rejects. *)
Definition transport (ev : Event) : M Response :=
  emit ev ;;;
  fun w => match net w with
           | Responds resp :: rest => (Ok resp, {| net := rest; trace := trace w |})
           | Rejects e :: rest => (Err e, {| net := rest; trace := trace w |})
           | [] => (Err NetworkFailure, w)
           end.

(** ** image_resolver.ts *)
Module ImageResolver.
Import JsString.

Record ResolveImageOptions : Type := {
  timeoutMs : option Z;
  maxBytes : option Z;
  allowPrivateNetwork : option bool
}.

Record ResolvedImage : Type := {
  url : jstring;
  mime : jstring;
  bytes : list byte;
  base64 : jstring;
  dataUrl : jstring;
  size : Z
}.

(** The parts of a parsed [URL] the code reads; [href] is what
    [toString()] gives. *)
Record URL : Type := {
  protocol : jstring;
  hostname : jstring;
  href : jstring
}.

Definition isDataUrl (url : jstring) : bool := startsWith url (lit "data:").

(** [null], [undefined] and the empty string give [undefined]. *)
Definition normalizeMime (mime : option jstring) : option jstring :=
  match mime with
  | None => None
  | Some [] => None
  | Some m =>
      let semi := indexOf m 59 in
      Some (toLowerCase (trim (match semi with
                               | Some i => slice m 0 i
                               | None => m
                               end)))
  end.

(** The pattern [/^\d{1,3}(\.\d{1,3}){3}$/]: four groups of one to three
    digits separated by dots. *)
Definition isLikelyIpV4 (host : jstring) : bool :=
  let groups := split host 46 in
  (length groups =? 4)%nat
  && forallb (fun g => (1 <=? length g)%nat && (length g <=? 3)%nat
                       && forallb is_digit g) groups.

Definition parseIpv4 (host : jstring) : option (list jnum) :=
  if negb (isLikelyIpV4 host) then None
  else
    let parts := List.map parseInt (split host 46) in
    if negb (length parts =? 4)%nat then None
    else if forallb (fun n => isFinite n
                              && match n with
                                 | Some z => negb (z <? 0) && negb (z >? 255)
                                 | None => false
                                 end) parts
         then Some parts
         else None.

Definition isPrivateIp (host : jstring) : bool :=
  let h := toLowerCase host in
  if jstring_eqb h (lit "localhost") || endsWith h (lit ".localhost") then true
  else if jstring_eqb h (lit "0.0.0.0") then true
  else if jstring_eqb h (lit "::1") then true
  else
    match parseIpv4 h with
    | Some ipv4 =>
        let a := ipv4 !! 0%nat ≫= id in
        let b := ipv4 !! 1%nat ≫= id in
        if jeq a 127 then true
        else if jeq a 10 then true
        else if jeq a 192 && jeq b 168 then true
        else if jeq a 172
                && match b with Some z => (z >=? 16) && (z <=? 31) | None => false end
             then true
        else if jeq a 169 && jeq b 254 then true
        else false
    | None =>
        if includes h (lit ":")
        then
          let noZone := match split h 37 with
                        | first :: _ => first
                        | [] => h
                        end in
          if jstring_eqb noZone (lit "::1") then true
          else if startsWith noZone (lit "fc") || startsWith noZone (lit "fd") then true
          else if startsWith noZone (lit "fe80:") || startsWith noZone (lit "fe80::")
               then true
          else false
        else false
    end.

Definition assertAllowedRemoteUrl (u : URL) (allowPrivateNetwork : bool) : result unit :=
  let protocol := toLowerCase (protocol u) in
  if negb (jstring_eqb protocol (lit "http:")) && negb (jstring_eqb protocol (lit "https:"))
  then Err UnsupportedScheme
  else if negb allowPrivateNetwork && isPrivateIp (hostname u)
       then Err BlockedBySsrfPolicy
       else Ok tt.

Definition parseDataUrlToBytes (dataUrl : jstring) : result (jstring * list byte) :=
  match indexOf dataUrl 44 with
  | None => Err InvalidReference
  | Some comma =>
      let meta := slice dataUrl 5 comma in
      let data := drop (comma + 1) dataUrl in
      let metaParts := split meta 59 in
      let mime :=
        match normalizeMime (Some (match metaParts with
                                   | first :: _ => first
                                   | [] => []
                                   end)) with
        | Some (c :: m) => c :: m
        | _ => lit "application/octet-stream"
        end in
      let isBase64 :=
        existsb (fun p => jstring_eqb (toLowerCase (trim p)) (lit "base64")) metaParts in
      if negb isBase64 then Err UnsupportedEncoding
      else if negb (startsWith mime (lit "image/")) then Err InvalidMediaType
      else
        match decodeBase64 data with
        | Ok bytes => Ok (mime, bytes)
        | Err e => Err e
        end
  end.

(** The loop [while (true)] over [reader.read()]; [stream] holds the steps
    still to come, its end is [{done: true}]. *)
Fixpoint read_chunks (stream : list ReadStep) (maxBytes total : Z)
    (chunks : list (list byte)) : M (Z * list (list byte)) :=
  emit EvBodyRead ;;;
  match stream with
  | [] => ret (total, chunks)
  | ReadFails e :: _ => throw e
  | Chunk None :: rest => read_chunks rest maxBytes total chunks
  | Chunk (Some value) :: rest =>
      let total := total + Z.of_nat (length value) in
      if total >? maxBytes
      then emit EvBodyCancel ;;; throw TooLarge
      else read_chunks rest maxBytes total (chunks ++ [value])
  end.

(** The number of bytes carried by the values of a run of reads. *)
Definition received (values : list (option (list byte))) : Z :=
  fold_right (fun v acc => match v with
                           | Some value => Z.of_nat (length value)
                           | None => 0
                           end + acc) 0 values.

(** The check of the declared length: [lenHeader] is neither [null] nor
    empty, and the number parsed from it is finite and above [maxBytes]. *)
Definition declaredTooLarge (resp : Response) (maxBytes : Z) : bool :=
  match content_length resp with
  | Some (c :: s) =>
      let declared := parseInt (c :: s) in
      isFinite declared && match declared with Some d => d >? maxBytes | None => false end
  | _ => false
  end.

Definition readResponseBytesWithLimit (resp : Response) (maxBytes : Z) : M (list byte) :=
  if declaredTooLarge resp maxBytes then throw TooLarge
  else
    match body resp with
    | None => ret []
    | Some stream =>
        read <- finally (read_chunks stream maxBytes 0 []) (emit EvReleaseLock) ;;
        (* [out = new Uint8Array(total)], filled with the chunks in order *)
        let '(total, chunks) := read in
        ret (concat chunks)
    end.

(** The [try] block of [resolveImage]: the fetch and what follows it. *)
Definition fetchImage (url : jstring) (parsed : URL) (timeoutMs maxBytes : Z)
  : M ResolvedImage :=
  resp <- transport (EvFetchImage (href parsed) timeoutMs) ;;
  if negb (ok resp)
  then emit EvReadText ;;;
       throw (UpstreamError (status resp) (default [] (text resp)))
  else
    match normalizeMime (content_type resp) with
    | Some ct =>
        if negb (startsWith ct (lit "image/")) then throw InvalidMediaType
        else
          bytes <- readResponseBytesWithLimit resp maxBytes ;;
          let base64 := encodeBase64 bytes in
          let dataUrl := lit "data:" ++ ct ++ lit ";base64," ++ base64 in
          ret {| url := url; mime := ct; bytes := bytes; base64 := base64;
                 dataUrl := dataUrl; size := Z.of_nat (length bytes) |}
    | None => throw InvalidMediaType
    end.

Section Resolve.

(** [new URL(url)], the URL parser of the platform; [None] when it throws. *)
Variable URL_parse : jstring -> option URL.

Definition resolveImage (url : jstring) (options : ResolveImageOptions) : M ResolvedImage :=
  emit (EvResolveImage url) ;;;
  let timeoutMs := default 10000 (timeoutMs options) in
  let maxBytes := default (10 * 1024 * 1024) (maxBytes options) in
  let allowPrivateNetwork := default false (allowPrivateNetwork options) in
  if jstring_eqb (trim url) [] then throw InvalidReference
  else if isDataUrl url then
    match parseDataUrlToBytes url with
    | Err e => throw e
    | Ok (mime, bytes) =>
        if Z.of_nat (length bytes) >? maxBytes then throw TooLarge
        else
          let base64 := encodeBase64 bytes in
          let dataUrl := lit "data:" ++ mime ++ lit ";base64," ++ base64 in
          ret {| url := url; mime := mime; bytes := bytes; base64 := base64;
                 dataUrl := dataUrl; size := Z.of_nat (length bytes) |}
    end
  else
    match URL_parse url with
    | None => throw InvalidReference
    | Some parsed =>
        match assertAllowedRemoteUrl parsed allowPrivateNetwork with
        | Err e => throw e
        | Ok _ => fetchImage url parsed timeoutMs maxBytes
        end
    end.

(** A reference that is a remote http or https URL, parsed as [u]. *)
Definition remote_http_url (url : jstring) (u : URL) : Prop :=
  jstring_eqb (trim url) [] = false
  /\ isDataUrl url = false
  /\ URL_parse url = Some u
  /\ (toLowerCase (protocol u) = lit "http:" \/ toLowerCase (protocol u) = lit "https:").

End Resolve.

End ImageResolver.

(** A computation only ever adds to the trace. *)
Definition grows {A : Type} (c : M A) : Prop :=
  forall w : World, exists events : list Event, trace (snd (c w)) = trace w ++ events.

(** ** image_input.ts *)
Module ImageInput.
Import JsString ImageResolver.

Inductive ImageInputMode : Type := passthrough | fetch_to_base64.
Inductive ImageBase64Format : Type := data_url | raw_base64.

Record PrepareImagesOptions : Type := {
  mode : ImageInputMode;
  base64Format : option ImageBase64Format;
  resolveOptions : ResolveImageOptions      (* the inherited fields *)
}.

Definition parseImageInputMode (value : option jstring) (fallback : ImageInputMode)
  : ImageInputMode :=
  let v := toLowerCase (trim (default [] value)) in
  if jstring_eqb v (lit "passthrough") then passthrough
  else if jstring_eqb v (lit "fetch_to_base64") then fetch_to_base64
  else fallback.

Definition parseImageBase64Format (value : option jstring) (fallback : ImageBase64Format)
  : ImageBase64Format :=
  let v := toLowerCase (trim (default [] value)) in
  if jstring_eqb v (lit "data_url") then data_url
  else if jstring_eqb v (lit "raw_base64") then raw_base64
  else fallback.

(** [typeof u === "string" && u.trim() !== ""], with the string. *)
Definition nonblank_string (u : JSON) : option jstring :=
  match u with
  | JStr s => if jstring_eqb (trim s) [] then None else Some s
  | _ => None
  end.

Section Prepare.

Variable URL_parse : jstring -> option URL.

(** The loop [for (const url of imageUrls)] of the fetching mode. *)
Fixpoint resolve_each (imageUrls : list JSON) (options : PrepareImagesOptions)
    (out : list jstring) : M (list jstring) :=
  match imageUrls with
  | [] => ret out
  | u :: rest =>
      match nonblank_string u with
      | None => resolve_each rest options out
      | Some url =>
          resolved <- resolveImage URL_parse url (resolveOptions options) ;;
          resolve_each rest options
            (out ++ [match default data_url (base64Format options) with
                     | raw_base64 => base64 resolved
                     | data_url => dataUrl resolved
                     end])
      end
  end.

(** The entries of [imageUrls] are the values found at run time, whatever
    their type. *)
Definition prepareImagesForUpstream (imageUrls : list JSON)
    (options : PrepareImagesOptions) : M (list jstring) :=
  if (length imageUrls =? 0)%nat then ret []
  else
    match mode options with
    | passthrough => ret (omap nonblank_string imageUrls)
    | fetch_to_base64 => resolve_each imageUrls options []
    end.

End Prepare.

(** In the words of the claim about the pass-through mode: the entries
    that are non-empty strings. *)
Definition nonempty_string_entries (imageUrls : list JSON) : list jstring :=
  omap (fun u => match u with
                 | JStr (c :: s) => Some (c :: s)
                 | _ => None
                 end) imageUrls.

End ImageInput.

(** ** main.ts: the ModelScope handler

    Logging and the measurement of elapsed time are left out, and so is the
    [Authorization] header, which every request carries unchanged. *)
Module Main.
Import JsString ImageResolver.

(** [ModelScopeConfig] of config.ts and the environment of the process. *)
Record Config : Type := {
  apiUrl : jstring;
  defaultModel : jstring;
  supportedModels : list jstring;
  env : jstring -> option jstring        (* Deno.env.get *)
}.

Record NormalizedChatRequest : Type := {
  model : option jstring;
  size : option jstring
}.

(** An extracted image: [{ url?, b64_json? }]. *)
Record ImageData : Type := {
  url : option jstring;
  b64_json : option jstring
}.

Definition getEnvInt (cfg : Config) (name : jstring) (fallback : Z) : Z :=
  let n := parseInt (trim (default [] (env cfg name))) in
  if isFinite n then num n else fallback.

Definition getEnvBool (cfg : Config) (name : jstring) (fallback : bool) : bool :=
  let raw := toLowerCase (trim (default [] (env cfg name))) in
  if jstring_eqb raw [] then fallback
  else if jstring_eqb raw (lit "1") || jstring_eqb raw (lit "true")
          || jstring_eqb raw (lit "yes") || jstring_eqb raw (lit "on") then true
  else if jstring_eqb raw (lit "0") || jstring_eqb raw (lit "false")
          || jstring_eqb raw (lit "no") || jstring_eqb raw (lit "off") then false
  else fallback.

Definition enforceSupportedModels (cfg : Config) : bool :=
  getEnvBool cfg (lit "ENFORCE_SUPPORTED_MODELS") false.

(** [!v] *)
Definition falsy (v : option JSON) : bool :=
  match v with
  | None | Some JNull | Some (JBool false) | Some (JStr []) => true
  | Some (JNum n) => n =? 0
  | Some _ => false
  end.

(** [o[key]] of an object parsed from JSON; its keys are distinct. *)
Fixpoint field (fields : list (jstring * JSON)) (key : jstring) : option JSON :=
  match fields with
  | [] => None
  | (k, v) :: rest => if jstring_eqb k key then Some v else field rest key
  end.

(** [v?.key]: [undefined] on [null] and [undefined], and on the values
    that have no such property. *)
Definition opt_get (v : option JSON) (key : jstring) : option JSON :=
  match v with
  | Some (JObj fields) => field fields key
  | _ => None
  end.

(** [v.key]: throws on [null]. *)
Definition get (v : JSON) (key : jstring) : result (option JSON) :=
  match v with
  | JNull => Err TypeError
  | _ => Ok (opt_get (Some v) key)
  end.

(** [typeof v === "string" ? v : undefined] *)
Definition as_string (v : option JSON) : option jstring :=
  match v with
  | Some (JStr s) => Some s
  | _ => None
  end.

(** A string that is defined and not empty. *)
Definition truthy_string (s : option jstring) : bool :=
  match s with
  | Some (_ :: _) => true
  | _ => false
  end.

(** What [pushAny(v)] appends to [out]. *)
Definition pushAny (v : option JSON) : list ImageData :=
  if falsy v then []
  else
    match v with
    | Some (JStr s) =>
        if startsWith s (lit "data:") then [{| url := None; b64_json := Some s |}]
        else [{| url := Some s; b64_json := None |}]
    | Some (JObj _) | Some (JArr _) =>
        let url := as_string (opt_get v (lit "url")) in
        let b64 :=
          match as_string (opt_get v (lit "b64_json")) with
          | Some s => Some s
          | None => as_string (opt_get v (lit "base64"))
          end in
        if truthy_string url || truthy_string b64
        then [{| url := url; b64_json := b64 |}]
        else []
    | _ => []
    end.

(** What [tryArray(arr)] appends to [out]. *)
Definition tryArray (arr : option JSON) : list ImageData :=
  match arr with
  | Some (JArr items) => flat_map (fun it => pushAny (Some it)) items
  | _ => []
  end.

Definition nonblank (s : option jstring) : bool :=
  match s with
  | Some s => negb (jstring_eqb (trim s) [])
  | None => false
  end.

(** The final filter: a [url] or a [b64_json] that is a string and not
    blank. *)
Definition has_reference (x : ImageData) : bool :=
  nonblank (url x) || nonblank (b64_json x).

Definition extractImages (payload : JSON) : list ImageData :=
  let p := Some payload in
  let out :=
    tryArray (opt_get p (lit "output_images"))
    ++ tryArray (opt_get (opt_get p (lit "output")) (lit "output_images"))
    ++ tryArray (opt_get (opt_get p (lit "output")) (lit "images"))
    ++ tryArray (opt_get p (lit "output_images"))
    ++ tryArray (opt_get p (lit "images"))
    ++ tryArray (opt_get p (lit "data"))
    ++ pushAny (opt_get p (lit "output_image"))
    ++ pushAny (opt_get (opt_get p (lit "output")) (lit "output_image"))
    ++ pushAny (opt_get (opt_get p (lit "output")) (lit "image")) in
  List.filter has_reference out.

(** An element of a probed array is a valid image reference when
    [pushAny] takes one entry from it and the final filter keeps it. *)
Definition imageReference (it : JSON) : option ImageData :=
  match List.filter has_reference (pushAny (Some it)) with
  | [r] => Some r
  | _ => None
  end.

Definition guessExt (mime : jstring) : jstring :=
  if jstring_eqb mime (lit "image/png") then lit "png"
  else if jstring_eqb mime (lit "image/jpeg") then lit "jpg"
  else if jstring_eqb mime (lit "image/webp") then lit "webp"
  else if jstring_eqb mime (lit "image/gif") then lit "gif"
  else lit "png".

Definition toMarkdown (img : ImageData) : jstring :=
  match url img, b64_json img with
  | Some (c :: u), _ => lit "![Generated Image](" ++ (c :: u) ++ lit ")"
  | _, Some (c :: b) =>
      let v := if startsWith (c :: b) (lit "data:") then c :: b
               else lit "data:image/png;base64," ++ (c :: b) in
      lit "![Generated Image](" ++ v ++ lit ")"
  | _, _ => []
  end.

(** [parts.filter(Boolean).join("\n\n")] *)
Definition join_nonempty (parts : list jstring) : jstring :=
  match List.filter (fun p => negb (jstring_eqb p [])) parts with
  | [] => []
  | p :: ps => p ++ flat_map (fun q => lit (String "010" (String "010" EmptyString)) ++ q) ps
  end.

(** The text returned when no image can be rendered ("图片生成失败"). *)
Definition GENERATION_FAILED : jstring := [22270; 29255; 29983; 25104; 22833; 36133].

(** [imageData.map(toMarkdown).filter(Boolean).join("\n\n") || "图片生成失败"] *)
Definition render (imageData : list ImageData) : jstring :=
  match join_nonempty (List.map toMarkdown imageData) with
  | [] => GENERATION_FAILED
  | s => s
  end.

Definition maxAttempts : nat := 60.

Section Handler.

Variable URL_parse : jstring -> option URL.
Variable cfg : Config.

(** [fetchWithTimeout(`${apiUrl}/tasks/${taskId}`, GET)] with or without
    the task-type header. *)
Definition checkTask (taskId : JSON) (taskType : option jstring) : M Response :=
  transport (EvPoll (apiUrl cfg) taskId taskType).

(** [(Deno.env.get("MODELSCOPE_TASK_TYPE") ?? "image_generation").trim()] *)
Definition configuredTaskType : jstring :=
  trim (default (lit "image_generation") (env cfg (lit "MODELSCOPE_TASK_TYPE"))).

(** The task-type header of the first query of a pass, if one is sent. *)
Definition taskTypeHeader : option jstring :=
  if negb (jstring_eqb configuredTaskType []) then Some configuredTaskType else None.

(** One pass through the body of the polling loop: [Some r] when the pass
    returns [r], [None] when the loop goes on. *)
Definition poll_once (taskId : JSON) : M (option jstring) :=
  emit (EvSleep 5000) ;;;
  let typed := negb (jstring_eqb configuredTaskType []) in
  checkResponse <- checkTask taskId taskTypeHeader ;;
  checkResponse <- (if negb (ok checkResponse) && typed
                    then checkTask taskId None
                    else ret checkResponse) ;;
  if negb (ok checkResponse) then ret None
  else
    emit EvReadJson ;;;
    match json checkResponse with
    | None => throw MalformedResponse
    | Some checkData =>
        match get checkData (lit "task_status") with
        | Err e => throw e
        | Ok status =>
            match status with
            | Some (JStr s) =>
                if jstring_eqb s (lit "SUCCEED")
                then ret (Some (render (extractImages checkData)))
                else if jstring_eqb s (lit "FAILED")
                     then throw UpstreamTaskFailed
                     else ret None
            | _ => ret None
            end
        end
    end.

(** [for (let i = 0; i < maxAttempts; i++)], with [attempts] passes left,
    and the throw after the loop. *)
Fixpoint poll (attempts : nat) (taskId : JSON) : M jstring :=
  match attempts with
  | O => throw PollTimeout
  | S attempts' =>
      r <- poll_once taskId ;;
      match r with
      | Some result => ret result
      | None => poll attempts' taskId
      end
  end.

(** The handler from the check of the submission response on. *)
Definition afterSubmit (submitResponse : Response) : M jstring :=
  if negb (ok submitResponse)
  then emit EvReadText ;;;
       match text submitResponse with
       | Some errorText => throw (SubmitError (status submitResponse) errorText)
       | None => throw NetworkFailure
       end
  else
    emit EvReadJson ;;;
    match json submitResponse with
    | None => throw MalformedResponse
    | Some submitData =>
        match get submitData (lit "task_id") with
        | Err e => throw e
        | Ok taskId =>
            if falsy taskId
            then
              let imageData := extractImages submitData in
              if (0 <? length imageData)%nat then ret (render imageData)
              else throw UnexpectedResponse
            else poll maxAttempts (default JNull taskId)
        end
    end.

(** The choice of the model and the submission. *)
Definition chooseModel (reqBody : NormalizedChatRequest) : jstring :=
  match option_map trim (model reqBody) with
  | Some (c :: m) =>
      let requestedModel := c :: m in
      if negb (enforceSupportedModels cfg)
         || existsb (jstring_eqb requestedModel) (supportedModels cfg)
      then requestedModel
      else defaultModel cfg
  | _ => defaultModel cfg
  end.

Definition nonempty_or (s fallback : jstring) : jstring :=
  match s with
  | [] => fallback
  | _ => s
  end.

Definition submit (reqBody : NormalizedChatRequest) (prompt : jstring)
    (images : list jstring) : M Response :=
  let model := chooseModel reqBody in
  let size := nonempty_or (default [] (size reqBody)) (lit "2048x2048") in
  let isImageEditModel := includes (toLowerCase model) (lit "image-edit") in
  let imageFetchTimeoutMs := getEnvInt cfg (lit "IMAGE_FETCH_TIMEOUT_MS") 10000 in
  let maxImageBytes := getEnvInt cfg (lit "MAX_IMAGE_BYTES") (10 * 1024 * 1024) in
  let allowPrivateImageFetch := getEnvBool cfg (lit "ALLOW_PRIVATE_IMAGE_FETCH") false in
  let submitUrl :=
    if isImageEditModel then apiUrl cfg ++ lit "/images/edits"
    else apiUrl cfg ++ lit "/images/generations" in
  if isImageEditModel
  then
    match images with
    | [] => throw MissingReferenceImage
    | first :: _ =>
        resolved <- resolveImage URL_parse first
                      {| timeoutMs := Some imageFetchTimeoutMs;
                         maxBytes := Some maxImageBytes;
                         allowPrivateNetwork := Some allowPrivateImageFetch |} ;;
        let imageField :=
          nonempty_or
            (trim (default (lit "image") (env cfg (lit "MODELSCOPE_IMAGE_UPLOAD_FIELD"))))
            (lit "image") in
        transport
          (EvSubmit submitUrl
             (EditForm model (nonempty_or prompt (lit "A beautiful scenery")) (lit "1")
                size (lit "url") imageField (bytes resolved) (mime resolved)
                (lit "image." ++ guessExt (mime resolved))))
    end
  else
    transport
      (EvSubmit submitUrl
         (GenerationJson model (nonempty_or prompt (lit "A beautiful scenery"))
            (head images) (lit "url") size 1)).

Definition handleModelScope (reqBody : NormalizedChatRequest) (prompt : jstring)
    (images : list jstring) : M jstring :=
  submitResponse <- submit reqBody prompt images ;;
  afterSubmit submitResponse.

End Handler.

(** A status query answered with a 2xx response whose payload [data]
    carries the task status [s]. *)
Definition reports (p : Response) (data : JSON) (s : jstring) : Prop :=
  ok p = true /\ json p = Some data /\ get data (lit "task_status") = Ok (Some (JStr s)).

(** The trace of one pass of the polling loop that reads the status. *)
Definition pass_events (cfg : Config) (taskId : JSON) : list Event :=
  [EvSleep 5000; EvPoll (apiUrl cfg) taskId (taskTypeHeader cfg); EvReadJson].

End Main.

(** ** Data of the examples *)
Module Examples.
Import JsString ImageResolver ImageInput Main.

(** A stand-in for the URL parser of the platform, enough for the
    references of the examples: [scheme://host/path]. *)
Definition example_URL_parse (url : jstring) : option URL :=
  match indexOf url 58 with
  | Some i =>
      let rest := drop (i + 1) url in
      if startsWith rest (lit "//")
      then
        let authority := drop 2 rest in
        let host := match indexOf authority 47 with
                    | Some j => take j authority
                    | None => authority
                    end in
        Some {| protocol := toLowerCase (take i url) ++ lit ":";
                hostname := toLowerCase host;
                href := url |}
      else None
  | None => None
  end.

(** A parser that gives every reference the IPv4-mapped loopback host. *)
Definition mapped_loopback_URL : URL :=
  {| protocol := lit "http:";
     hostname := lit "::ffff:127.0.0.1";
     href := lit "http://[::ffff:127.0.0.1]/a.png" |}.

Definition mapped_loopback_parse (url : jstring) : option URL := Some mapped_loopback_URL.

Definition default_options : ResolveImageOptions :=
  {| timeoutMs := None; maxBytes := None; allowPrivateNetwork := None |}.

Definition json_response (code : Z) (payload : JSON) : Response :=
  {| status := code; content_length := None;
     content_type := Some (lit "application/json");
     body := None; text := None; json := Some payload |}.

Definition image_response (declared : option jstring) (steps : list ReadStep) : Response :=
  {| status := 200; content_length := declared;
     content_type := Some (lit "image/png");
     body := Some steps; text := None; json := None |}.

Definition task_x : JSON := JObj [(lit "task_id", JStr (lit "x"))].

Definition task_status (s : string) : JSON := JObj [(lit "task_status", JStr (lit s))].

Definition succeeded_payload : JSON :=
  JObj [(lit "task_status", JStr (lit "SUCCEED"));
        (lit "output_images", JArr [JStr (lit "https://cdn.example/1.png")])].

Definition private_reference : jstring := lit "http://192.168.1.5/ref.png".

Definition private_reference_URL : URL :=
  {| protocol := lit "http:"; hostname := lit "192.168.1.5";
     href := lit "http://192.168.1.5/ref.png" |}.

Definition example_cfg : Config :=
  {| apiUrl := lit "https://api-inference.modelscope.cn/v1";
     defaultModel := lit "Tongyi-MAI/Z-Image-Turbo";
     supportedModels := [lit "Tongyi-MAI/Z-Image-Turbo"];
     env := fun _ => None |}.

Definition edit_request : NormalizedChatRequest :=
  {| model := Some (lit "Qwen/Qwen-Image-Edit"); Main.size := None |}.

Definition generation_request : NormalizedChatRequest :=
  {| model := None; Main.size := Some (lit "1024x1024") |}.

(** A world whose transport would answer a submission with a job handle. *)
Definition world_ready : World :=
  {| net := [Responds (json_response 200 task_x)]; trace := [] |}.

Definition world_idle : World := {| net := []; trace := [] |}.

(** A world whose transport answers the submission with the job handle
    ["x"] and the status queries with [answers], in order. *)
Definition world_answers (answers : list JSON) : World :=
  {| net := Responds (json_response 200 task_x)
            :: List.map (fun d => Responds (json_response 200 d)) answers;
     trace := [] |}.

(** The submission of [generation_request] with the prompt ["a cat"]. *)
Definition cat_submission : Event :=
  EvSubmit (lit "https://api-inference.modelscope.cn/v1/images/generations")
    (GenerationJson (lit "Tongyi-MAI/Z-Image-Turbo") (lit "a cat") None (lit "url")
       (lit "1024x1024") 1).

(** The handler on the generation request, in the world of [answers]. *)
Definition run (answers : list JSON) : result jstring * World :=
  handleModelScope example_URL_parse example_cfg generation_request (lit "a cat") []
    (world_answers answers).

(** The world once the submission has been sent. *)
Definition submitted (answers : list JSON) : World :=
  {| net := List.map (fun d => Responds (json_response 200 d)) answers;
     trace := [cat_submission] |}.

(** The 1x1 PNG of the tests. *)
Definition ONE_BY_ONE_PNG_BASE64 : jstring :=
  lit "iVBORw0KGgoAAAANSUhEUgAAAAEAAAABCAQAAAC1HAwCAAAAC0lEQVR42mP8/x8AAwMB/6X5ZQAAAABJRU5ErkJggg==".

Definition png_data_url : jstring := lit "data:image/png;base64," ++ ONE_BY_ONE_PNG_BASE64.

Definition png_bytes : list byte :=
  Eval vm_compute in
    match decodeBase64 ONE_BY_ONE_PNG_BASE64 with
    | Ok b => b
    | Err _ => []
    end.

Definition png_resolved : ResolvedImage :=
  {| ImageResolver.url := png_data_url; mime := lit "image/png"; bytes := png_bytes;
     base64 := ONE_BY_ONE_PNG_BASE64; dataUrl := png_data_url;
     ImageResolver.size := 67 |}.

(** A response that declares 50 MB. *)
Definition declares_50MB : Response :=
  image_response (Some (lit "52428800")) [Chunk (Some [x89; x50; x4e; x47])].

(** A response without content-length whose body comes in chunks of four
    bytes. *)
Definition streams_12_bytes : Response :=
  image_response None
    [Chunk (Some [x01; x02; x03; x04]); Chunk None;
     Chunk (Some [x05; x06; x07; x08]); Chunk (Some [x09; x0a; x0b; x0c])].

End Examples.

(** ** Further notions for the codec *)
Module CodecFacts.

(** The standard symbol for a base64url symbol: ['-'] is ['+'] and ['_'] is
    ['/']; every other code unit is itself. *)
Definition std_symbol (c : Z) : Z :=
  if c =? 45 then 43 else if c =? 95 then 47 else c.

(** The number of padding markers the encoder writes for [n] bytes. *)
Definition pad_count (n : nat) : nat := ((3 - n mod 3) mod 3)%nat.

End CodecFacts.

(** ** Further notions for the preparation of the references *)
Module PrepareFacts.
Import ImageInput.

(** The form of an entry handed upstream by the fetching mode: an inline
    image, or the bare encoding of some bytes. *)
Definition inline_entry (format : ImageBase64Format) (s : jstring) : Prop :=
  match format with
  | data_url => startsWith s (lit "data:image/") = true
  | raw_base64 => exists bytes : list byte, s = encodeBase64 bytes
  end.

End PrepareFacts.

(** ** Text on which the model's lower-casing is the platform's *)
Module TextFacts.

(** Printable ASCII, U+0020 to U+007E.  On such text [JsString.toLowerCase],
    which maps the letters A to Z only, returns what
    [String.prototype.toLowerCase] returns; and a [Blob] keeps such a type
    when it is in lower case. *)
Definition ascii_text (s : jstring) : bool :=
  forallb (fun c => (32 <=? c) && (c <=? 126)) s.

End TextFacts.

(** ** Counting what a computation does to the outside *)
Module Budget.

(** The kinds of events that cost the outside something. *)
Inductive Kind : Type := KFetch | KSubmit | KPoll | KSleep.

Definition of_kind (k : Kind) (ev : Event) : bool :=
  match k, ev with
  | KFetch, EvFetchImage _ _ => true
  | KSubmit, EvSubmit _ _ => true
  | KPoll, EvPoll _ _ _ => true
  | KSleep, EvSleep _ => true
  | _, _ => false
  end.

(** The number of events of kind [k] among [events]. *)
Definition count (k : Kind) (events : list Event) : nat :=
  length (List.filter (of_kind k) events).

(** The computation [c] adds events to the trace, at most [n] of kind [k]. *)
Definition spends {A : Type} (k : Kind) (n : nat) (c : M A) : Prop :=
  forall w : World,
    exists events : list Event,
      trace (snd (c w)) = trace w ++ events /\ (count k events <= n)%nat.

(** What fetching one reference, one submission and one pass of the
    polling loop may spend. *)
Definition fetch_cost (k : Kind) : nat :=
  match k with KFetch => 1 | _ => 0 end%nat.

Definition submit_cost (k : Kind) : nat :=
  match k with KSubmit => 1 | _ => 0 end%nat.

Definition pass_cost (k : Kind) : nat :=
  match k with KPoll => 2 | KSleep => 1 | _ => 0 end%nat.

(** What one call of [handleModelScope] may spend of each kind. *)
Definition handler_budget (k : Kind) : nat :=
  match k with
  | KFetch => 1
  | KSubmit => 1
  | KPoll => 120
  | KSleep => 60
  end%nat.

End Budget.

(** ** Vocabulary for the results of the handler *)
Module HandlerFacts.

(** Every successful result of [c] satisfies [Q]. *)
Definition yields {A : Type} (Q : A -> Prop) (c : M A) : Prop :=
  forall (w w' : World) (a : A), c w = (Ok a, w') -> Q a.

(** [parts.join("\n\n")] *)
Definition join_lines (parts : list jstring) : jstring :=
  match parts with
  | [] => []
  | p :: ps => p ++ flat_map (fun q => [10; 10] ++ q) ps
  end.

(** A markdown image with a non-empty target. *)
Definition image_markdown (s : jstring) : Prop :=
  exists target : jstring,
    target <> [] /\ s = lit "![Generated Image](" ++ target ++ lit ")".

(** The two shapes of a rendered result: the fallback text, or markdown
    that begins with an image. *)
Definition rendered (s : jstring) : Prop :=
  s = Main.GENERATION_FAILED \/ startsWith s (lit "![Generated Image](") = true.

End HandlerFacts.

(** ** More data for the examples *)
Module MoreExamples.
Import JsString ImageResolver ImageInput Main Examples.

Definition public_reference : jstring := lit "https://example.com/a.png".

Definition public_reference_URL : URL :=
  {| protocol := lit "https:"; hostname := lit "example.com";
     href := lit "https://example.com/a.png" |}.

Definition world_with (outcomes : list NetOutcome) : World :=
  {| net := outcomes; trace := [] |}.

Definition not_found_response : Response :=
  {| status := 404; content_length := None; content_type := Some (lit "text/plain");
     body := None; text := Some (lit "missing"); json := None |}.

Definition html_response : Response :=
  {| status := 200; content_length := None;
     content_type := Some (lit "text/html; charset=utf-8");
     body := Some [Chunk (Some [x3c; x68; x31; x3e])]; text := None; json := None |}.

(** A PNG signature sent in two chunks with an empty read in between. *)
Definition png_response : Response :=
  image_response (Some (lit "8"))
    [Chunk (Some [x89; x50; x4e; x47]); Chunk None; Chunk (Some [x0d; x0a; x1a; x0a])].

Definition fetch_options : PrepareImagesOptions :=
  {| mode := fetch_to_base64; base64Format := None; resolveOptions := default_options |}.

End MoreExamples.

(** ** Answers of the ModelScope service used in the examples *)
Module HandlerExamples.
Import JsString ImageResolver ImageInput Main Examples.

Definition rejected_response : Response :=
  {| status := 401; content_length := None; content_type := Some (lit "text/plain");
     body := None; text := Some (lit "unauthorized"); json := None |}.

Definition busy_response : Response :=
  {| status := 503; content_length := None; content_type := None;
     body := None; text := Some (lit "busy"); json := None |}.

(** A synchronous answer: the images come with the submission response. *)
Definition sync_payload : JSON :=
  JObj [(lit "images", JArr [JObj [(lit "url", JStr (lit "https://cdn.example/2.png"))]])].

(** A finished task whose payload names no image. *)
Definition empty_success : JSON := JObj [(lit "task_status", JStr (lit "SUCCEED"))].

(** The handler on the generation request in a world with the given
    outcomes. *)
Definition run_with (outcomes : list NetOutcome) : result jstring * World :=
  handleModelScope example_URL_parse example_cfg generation_request (lit "a cat") []
    {| net := outcomes; trace := [] |}.

(** A configuration whose environment sets the task type to blanks. *)
Definition untyped_cfg : Config :=
  {| apiUrl := apiUrl example_cfg;
     defaultModel := defaultModel example_cfg;
     supportedModels := supportedModels example_cfg;
     env := fun name => if jstring_eqb name (lit "MODELSCOPE_TASK_TYPE")
                        then Some (lit "  ") else None |}.

End HandlerExamples.

(** ** main.ts: the choice of the provider *)
Module Routing.
Import JsString ImageInput Main.

Inductive Provider : Type := VolcEngine | Gitee | ModelScope | Unknown.

(** [[0-9a-f]] under the flag [i] *)
Definition is_hex_digit (c : Z) : bool :=
  is_digit c || ((97 <=? c) && (c <=? 102)) || ((65 <=? c) && (c <=? 70)).

(** [[a-zA-Z0-9]] *)
Definition is_alnum (c : Z) : bool :=
  ((97 <=? c) && (c <=? 122)) || ((65 <=? c) && (c <=? 90)) || is_digit c.

(** [[0-9a-f]{n}] at the head of [s]: what follows it. *)
Fixpoint hex_run (n : nat) (s : jstring) : option jstring :=
  match n with
  | O => Some s
  | S n' =>
      match s with
      | c :: rest => if is_hex_digit c then hex_run n' rest else None
      | [] => None
      end
  end.

(** [-] at the head of [s]: what follows it. *)
Definition dash (s : jstring) : option jstring :=
  match s with
  | 45 :: rest => Some rest
  | _ => None
  end.

(** One piece of a pattern after another. *)
Definition followed_by (matched : option jstring) (piece : jstring -> option jstring)
  : option jstring :=
  match matched with
  | Some rest => piece rest
  | None => None
  end.

(** [/^[0-9a-f]{8}-[0-9a-f]{4}-[0-9a-f]{4}-[0-9a-f]{4}-[0-9a-f]{12}$/i.test(s)] *)
Definition uuidRegex_test (s : jstring) : bool :=
  let pieces := [dash; hex_run 4; dash; hex_run 4; dash; hex_run 4; dash; hex_run 12] in
  match fold_left followed_by pieces (hex_run 8 s) with
  | Some [] => true
  | _ => false
  end.

(** [/^[a-zA-Z0-9]{30,60}$/.test(s)] *)
Definition giteeRegex_test (s : jstring) : bool :=
  forallb is_alnum s && (30 <=? length s)%nat && (length s <=? 60)%nat.

Definition detectProvider (apiKey : jstring) : Provider :=
  match apiKey with
  | [] => Unknown
  | _ =>
      if startsWith apiKey (lit "ms-") then ModelScope
      else if uuidRegex_test apiKey then VolcEngine
      else if giteeRegex_test apiKey then Gitee
      else Unknown
  end.

(** A key of the shape of a UUID: five runs of hexadecimal digits of
    lengths 8, 4, 4, 4 and 12, joined by ["-"]. *)
Definition uuid_shaped (s : jstring) : Prop :=
  exists a b c d e : jstring,
    s = a ++ [45] ++ b ++ [45] ++ c ++ [45] ++ d ++ [45] ++ e
    /\ List.map (@length Z) [a; b; c; d; e] = [8; 4; 4; 4; 12]%nat
    /\ forallb is_hex_digit (a ++ b ++ c ++ d ++ e) = true.

End Routing.

(** ** Dotted quads, for the guard of image_resolver.ts *)
Module DottedQuad.
Import JsString.

(** The number written by a run of decimal digits. *)
Definition decimal_value (g : jstring) : Z :=
  fold_left (fun acc c => acc * 10 + (c - 48)) g 0.

(** One to three decimal digits. *)
Definition octet_text (g : jstring) : Prop :=
  (1 <= length g <= 3)%nat /\ forallb is_digit g = true.

Definition dotted (g1 g2 g3 g4 : jstring) : jstring :=
  g1 ++ [46] ++ g2 ++ [46] ++ g3 ++ [46] ++ g4.

(** 127/8, 10/8, 192.168/16, 172.16/12 and 169.254/16, by the first two
    numbers of an address. *)
Definition private_range (a b : Z) : Prop :=
  a = 127 \/ a = 10 \/ (a = 192 /\ b = 168) \/ (a = 172 /\ 16 <= b <= 31)
  \/ (a = 169 /\ b = 254).

(** A digit or a dot. *)
Definition quad_symbol (c : Z) : bool := is_digit c || (c =? 46).

End DottedQuad.

(** ** normalizer.ts *)
Module Normalizer.
Import JsString.

Inductive NormalizedPart : Type :=
  | text_part (text : jstring)
  | image_part (url : jstring) (detail : option jstring).

Record NormalizedMessage : Type := {
  role : jstring;
  parts : list NormalizedPart
}.

Record NormalizedChatRequest : Type := {
  model : option jstring;
  size : option jstring;
  stream : bool;
  messages : list NormalizedMessage;
  extra : list (jstring * JSON)
}.

(** The two messages of the errors that [normalizeChatRequest] throws. *)
Inductive NormalizeError : Type :=
  | ExpectedObject        (* "Invalid request body: expected JSON object" *)
  | MessagesNotArray.     (* "Invalid request body: messages must be an array" *)

(** Values are [option JSON], [None] standing for [undefined]. *)
Definition isRecord (v : option JSON) : bool :=
  match v with
  | Some (JObj _) => true
  | _ => false
  end.

Definition asString (v : option JSON) : option jstring :=
  match v with
  | Some (JStr s) => Some s
  | _ => None
  end.

(** [a ?? b] *)
Definition or_else {A : Type} (a b : option A) : option A :=
  match a with
  | Some x => Some x
  | None => b
  end.

(** [s.trim() !== ""] *)
Definition nonblank (s : jstring) : bool := negb (jstring_eqb (trim s) []).

(** [t === "text" || t === "input_text"] *)
Definition isTextType (t : option jstring) : bool :=
  match t with
  | Some s => jstring_eqb s (lit "text") || jstring_eqb s (lit "input_text")
  | None => false
  end.

Definition extractTextPart (item : option JSON) : option jstring :=
  match item with
  | Some (JStr s) => Some s
  | Some (JObj _) =>
      let t := asString (Main.opt_get item (lit "type")) in
      match (if isTextType t then asString (Main.opt_get item (lit "text")) else None) with
      | Some text => Some text
      | None =>
          let text := or_else (asString (Main.opt_get item (lit "text")))
                              (asString (Main.opt_get item (lit "content"))) in
          match text with
          | Some text => if isTextType t then Some text else None
          | None => None
          end
      end
  | _ => None
  end.

(** A string that is not blank. *)
Definition nonblank_text (s : option jstring) : option jstring :=
  match s with
  | Some s => if nonblank s then Some s else None
  | None => None
  end.

(** [detail ? { url, detail } : { url }] *)
Definition truthy_detail (detail : option jstring) : option jstring :=
  match detail with
  | Some (c :: d) => Some (c :: d)
  | _ => None
  end.

Definition extractImagePart (item : option JSON) : option (jstring * option jstring) :=
  if negb (isRecord item) then None
  else
    let t := asString (Main.opt_get item (lit "type")) in
    let isImageType :=
      match t with
      | Some s => jstring_eqb s (lit "image_url") || jstring_eqb s (lit "input_image")
                  || jstring_eqb s (lit "image")
      | None => false
      end in
    if negb isImageType then None
    else
      let imageUrlField := Main.opt_get item (lit "image_url") in
      match nonblank_text (asString imageUrlField) with
      | Some s => Some (s, None)
      | None =>
          match (if isRecord imageUrlField
                 then nonblank_text (asString (Main.opt_get imageUrlField (lit "url")))
                 else None) with
          | Some url =>
              Some (url, truthy_detail (asString (Main.opt_get imageUrlField (lit "detail"))))
          | None =>
              match nonblank_text (or_else (asString (Main.opt_get item (lit "url")))
                                           (asString (Main.opt_get item (lit "image")))) with
              | Some url => Some (url, None)
              | None =>
                  match (if isRecord imageUrlField
                         then nonblank_text
                                (asString (Main.opt_get imageUrlField (lit "image_url")))
                         else None) with
                  | Some nested => Some (nested, None)
                  | None => None
                  end
              end
          end
      end.

(** What one pass of the loop of [normalizeContentToParts] pushes. *)
Definition part_of (item : option JSON) : list NormalizedPart :=
  match item with
  | Some (JStr s) => if nonblank s then [text_part s] else []
  | _ =>
      match nonblank_text (extractTextPart item) with
      | Some text => [text_part text]
      | None =>
          match extractImagePart item with
          | Some (url, detail) => [image_part url detail]
          | None => []
          end
      end
  end.

Definition normalizeContentToParts (content : option JSON) : list NormalizedPart :=
  match content with
  | Some (JStr s) => if jstring_eqb (trim s) [] then [] else [text_part s]
  | Some (JArr arr) => flat_map (fun item => part_of (Some item)) arr
  | _ => part_of content
  end.

(** The callback of [rawMessages.map]. *)
Definition normalizeMessage (m : JSON) : NormalizedMessage :=
  if negb (isRecord (Some m)) then {| role := lit "user"; parts := [] |}
  else {| role := default (lit "user") (asString (Main.opt_get (Some m) (lit "role")));
          parts := normalizeContentToParts (Main.opt_get (Some m) (lit "content")) |}.

Definition normalizeChatRequest (input : JSON)
  : NormalizeError + NormalizedChatRequest :=
  match input with
  | JObj fields =>
      match Main.field fields (lit "messages") with
      | Some (JArr rawMessages) =>
          inr {| model := asString (Main.field fields (lit "model"));
                 size := asString (Main.field fields (lit "size"));
                 stream := match Main.field fields (lit "stream") with
                           | Some (JBool true) => true
                           | _ => false
                           end;
                 messages := List.map normalizeMessage rawMessages;
                 extra := fields |}
      | _ => inl MessagesNotArray
      end
  | _ => inl ExpectedObject
  end.

(** [parts.join(sep)] *)
Fixpoint join (items : list jstring) (sep : jstring) : jstring :=
  match items with
  | [] => []
  | [p] => p
  | p :: rest => p ++ sep ++ join rest sep
  end.

Definition texts_of (ps : list NormalizedPart) : list jstring :=
  omap (fun p => match p with text_part t => Some t | image_part _ _ => None end) ps.

Definition image_urls_of (ps : list NormalizedPart) : list jstring :=
  omap (fun p => match p with image_part u _ => Some u | text_part _ => None end) ps.

(** What the loop returns at a message of the role ["user"]. *)
Definition promptAndImages (msg : NormalizedMessage) : jstring * list jstring :=
  (trim (join (texts_of (parts msg)) [10]),
   List.filter nonblank (image_urls_of (parts msg))).

(** The loop from the last message down: [backwards] is the list of the
    messages still to visit, the last one first. *)
Fixpoint lastUser (backwards : list NormalizedMessage) : option NormalizedMessage :=
  match backwards with
  | [] => None
  | msg :: earlier =>
      if negb (jstring_eqb (role msg) (lit "user")) then lastUser earlier else Some msg
  end.

Definition extractLastUserPromptAndImages (messages : list NormalizedMessage)
  : jstring * list jstring :=
  match lastUser (rev messages) with
  | Some msg => promptAndImages msg
  | None => ([], [])
  end.

(** [{ type: "image_url", image_url: { url } }] *)
Definition image_item (url : jstring) : JSON :=
  JObj [(lit "type", JStr (lit "image_url"));
        (lit "image_url", JObj [(lit "url", JStr url)])].

(** [o[key] = v] on an object: the value of an existing key is replaced,
    a new key comes last. *)
Fixpoint set_field (fields : list (jstring * JSON)) (key : jstring) (v : JSON)
  : list (jstring * JSON) :=
  match fields with
  | [] => [(key, v)]
  | (k, old) :: rest =>
      if jstring_eqb k key then (k, v) :: rest else (k, old) :: set_field rest key v
  end.

(** [isRecord(m) && asString(m.role) === "user"] *)
Definition isExplicitUser (m : JSON) : bool :=
  isRecord (Some m)
  && match asString (Main.opt_get (Some m) (lit "role")) with
     | Some r => jstring_eqb r (lit "user")
     | None => false
     end.

(** The loop from the last index down to 0 that sets [idx]: the greatest
    index of a message that passes the test. *)
Fixpoint lastIndex (test : JSON -> bool) (messages : list JSON) : option nat :=
  match messages with
  | [] => None
  | m :: later =>
      match lastIndex test later with
      | Some i => Some (S i)
      | None => if test m then Some 0%nat else None
      end
  end.

(** The array that [msg.content] becomes before the images are pushed. *)
Definition contentArr (current : option JSON) : list JSON :=
  match current with
  | Some (JStr s) => [JObj [(lit "type", JStr (lit "text")); (lit "text", JStr s)]]
  | Some (JArr items) => items
  | None | Some JNull => []
  | Some other => [other]
  end.

(** The object is changed in place and returned; the result is the value
    the caller goes on with. *)
Definition injectImagesIntoLastUserMessage (body : JSON) (dataUrls : list jstring) : JSON :=
  match body with
  | JObj fields =>
      match Main.field fields (lit "messages") with
      | Some (JArr messages) =>
          if (length dataUrls =? 0)%nat then body
          else
            match lastIndex isExplicitUser messages with
            | None =>
                let pushed :=
                  JObj [(lit "role", JStr (lit "user"));
                        (lit "content", JArr (List.map image_item dataUrls))] in
                JObj (set_field fields (lit "messages") (JArr (messages ++ [pushed])))
            | Some idx =>
                match messages !! idx with
                | Some (JObj msg) =>
                    let arr := contentArr (Main.field msg (lit "content"))
                               ++ List.map image_item dataUrls in
                    let changed := JObj (set_field msg (lit "content") (JArr arr)) in
                    JObj (set_field fields (lit "messages")
                            (JArr (<[idx := changed]> messages)))
                | _ => body
                end
            end
      | _ => body
      end
  | _ => body
  end.

(** A message that says who speaks: an object whose [role] is a string. *)
Definition states_role (m : JSON) : Prop :=
  exists (fields : list (jstring * JSON)) (r : jstring),
    m = JObj fields /\ asString (Main.field fields (lit "role")) = Some r.

(** A part whose text, or whose reference, is not blank. *)
Definition part_nonblank (p : NormalizedPart) : Prop :=
  match p with
  | text_part t => trim t <> []
  | image_part u _ => trim u <> []
  end.

(** The image parts that injected references normalize to. *)
Definition injected_parts (dataUrls : list jstring) : list NormalizedPart :=
  List.map (fun u => image_part u None) (List.filter nonblank dataUrls).

(** A message that the normalizer takes for a user message although it
    does not say so: no object, or an object whose [role] is no string. *)
Definition silent_user (m : JSON) : Prop :=
  asString (Main.opt_get (Some m) (lit "role")) = None.

End Normalizer.

(** ** Requests used in the examples of the normalizer *)
Module NormalizerExamples.

Definition system_message : JSON :=
  JObj [(lit "role", JStr (lit "system")); (lit "content", JStr (lit "be kind"))].

Definition user_message : JSON :=
  JObj [(lit "role", JStr (lit "user")); (lit "content", JStr (lit "draw a cat"))].

(** A message without [role]. *)
Definition unsigned_message : JSON := JObj [(lit "content", JStr (lit "and a dog"))].

Definition chat_body (messages : list JSON) : JSON :=
  JObj [(lit "model", JStr (lit "Qwen/Qwen-Image-Edit")); (lit "messages", JArr messages)].

Definition uploaded : list jstring := [lit "data:image/png;base64,iVBORw=="].

End NormalizerExamples.

(** ** request_parser.ts: uploaded files *)
Module RequestParser.
Import JsString.

(** A [File] of the form data: its declared type and its bytes. *)
Record File : Type := {
  type : jstring;
  content : list byte
}.

Definition normalizeMime (mime : option jstring) : jstring :=
  let v := toLowerCase (trim (default [] mime)) in
  match indexOf v 59 with
  | Some semi => slice v 0 semi
  | None => v
  end.

(** The two messages of the errors that [fileToDataUrl] throws. *)
Inductive UploadError : Type :=
  | InvalidUploadedFileType     (* "Invalid uploaded file type: ..." *)
  | UploadedImageTooLarge.      (* "Uploaded image too large: ..." *)

(** The bytes are those that [file.arrayBuffer()] resolves to. *)
Definition fileToDataUrl (file : File) (maxBytes : Z) : UploadError + jstring :=
  let mime := normalizeMime (Some (type file)) in
  if negb (startsWith mime (lit "image/")) then inl InvalidUploadedFileType
  else if Z.of_nat (length (content file)) >? maxBytes then inl UploadedImageTooLarge
  else inr (lit "data:" ++ mime ++ lit ";base64," ++ encodeBase64 (content file)).

End RequestParser.
Ltac euclid := Z.to_euclidean_division_equations; lia.

(** ** The codec on the usual test vectors *)
Example encode_Man : encodeBase64 [x4d; x61; x6e] = lit "TWFu".
Proof. reflexivity. Qed.

Example encode_Ma : encodeBase64 [x4d; x61] = lit "TWE=".
Proof. reflexivity. Qed.

Example encode_M : encodeBase64 [x4d] = lit "TQ==".
Proof. reflexivity. Qed.

Example encode_empty : encodeBase64 [] = lit "".
Proof. reflexivity. Qed.

(** Missing padding is tolerated, white space is skipped. *)
Example decode_unpadded : decodeBase64 (lit "TWE") = Ok [x4d; x61].
Proof. vm_compute. reflexivity. Qed.

Example decode_spaced : decodeBase64 (lit " T W F u ") = Ok [x4d; x61; x6e].
Proof. vm_compute. reflexivity. Qed.

(** A payload of padding only is rejected. *)
Example decode_only_padding : decodeBase64 (lit "====") = Err InvalidCharacter.
Proof. vm_compute. reflexivity. Qed.

(** ** Arithmetic of the bitwise operators on small operands *)
Section BitArithmetic.

Lemma byteval_range (b : byte) : 0 <= byteval b < 256.
Proof. destruct b; vm_compute; split; congruence. Qed.

Lemma toUint8_byteval (b : byte) : toUint8 (byteval b) = b.
Proof. destruct b; reflexivity. Qed.

Lemma ToInt32_small z : 0 <= z < 2 ^ 31 -> ToInt32 z = z.
Proof.
  intros Hz. unfold ToInt32.
  rewrite Z.mod_small by lia.
  destruct (Z.ltb_spec z (2 ^ 31)); lia.
Qed.

Lemma ToUint32_small z : 0 <= z < 2 ^ 32 -> ToUint32 z = z.
Proof. intros Hz. unfold ToUint32. apply Z.mod_small. lia. Qed.

Lemma js_shl_small a k :
  0 <= k < 32 -> 0 <= a -> a * 2 ^ k < 2 ^ 31 -> js_shl a k = a * 2 ^ k.
Proof.
  intros Hk Ha Hlt. unfold js_shl.
  assert (1 <= 2 ^ k) by (apply (Z.pow_le_mono_r 2 0 k); lia).
  rewrite (Z.mod_small k) by lia.
  rewrite (ToInt32_small a) by nia.
  rewrite Z.shiftl_mul_pow2 by lia.
  apply ToInt32_small. nia.
Qed.

Lemma js_shru_small a k :
  0 <= k < 32 -> 0 <= a < 2 ^ 32 -> js_shru a k = a / 2 ^ k.
Proof.
  intros Hk Ha. unfold js_shru.
  rewrite (Z.mod_small k) by lia.
  rewrite ToUint32_small by lia.
  apply Z.shiftr_div_pow2. lia.
Qed.

Lemma land_shifted_low a b k :
  0 <= k -> 0 <= b < 2 ^ k -> Z.land (a * 2 ^ k) b = 0.
Proof.
  intros Hk Hb. rewrite <- Z.shiftl_mul_pow2 by lia.
  apply Z.bits_inj'. intros i Hi.
  rewrite Z.land_spec, Z.bits_0.
  destruct (Z.lt_ge_cases i k) as [Hlt | Hge].
  - rewrite Z.shiftl_spec_low by lia. reflexivity.
  - rewrite <- (Z.mod_small b (2 ^ k)) by lia.
    rewrite Z.mod_pow2_bits_high by lia. apply andb_false_r.
Qed.

Lemma lor_shifted_low a b k :
  0 <= k -> 0 <= b < 2 ^ k -> Z.lor (a * 2 ^ k) b = a * 2 ^ k + b.
Proof.
  intros Hk Hb.
  pose proof (land_shifted_low a b k Hk Hb) as Hland.
  rewrite <- Z.lxor_lor by exact Hland.
  symmetry. apply Z.add_nocarry_lxor. exact Hland.
Qed.

Lemma js_or_shifted a b k :
  0 <= k -> 0 <= a -> 0 <= b < 2 ^ k -> a * 2 ^ k + b < 2 ^ 31 ->
  js_or (a * 2 ^ k) b = a * 2 ^ k + b.
Proof.
  intros Hk Ha Hb Hlt. unfold js_or.
  assert (0 < 2 ^ k) by (apply Z.pow_pos_nonneg; lia).
  rewrite (ToInt32_small (a * 2 ^ k)) by nia.
  rewrite (ToInt32_small b) by lia.
  rewrite lor_shifted_low by lia.
  apply ToInt32_small. nia.
Qed.

Lemma js_and_ones a k :
  0 <= k < 31 -> 0 <= a < 2 ^ 31 -> js_and a (2 ^ k - 1) = a mod 2 ^ k.
Proof.
  intros Hk Ha. unfold js_and.
  assert (0 < 2 ^ k < 2 ^ 31) by (split; [apply Z.pow_pos_nonneg | apply Z.pow_lt_mono_r]; lia).
  rewrite (ToInt32_small a) by lia.
  rewrite (ToInt32_small (2 ^ k - 1)) by lia.
  replace (2 ^ k - 1) with (Z.ones k) by (rewrite Z.ones_equiv; lia).
  rewrite Z.land_ones by lia.
  apply ToInt32_small.
  pose proof (Z.mod_pos_bound a (2 ^ k)). lia.
Qed.

End BitArithmetic.

(** ** The codec on one group *)
Section CodecGroups.

Lemma sextet_ok_all : forallb sextet_ok (List.map Z.of_nat (seq 0 64)) = true.
Proof. vm_compute. reflexivity. Qed.

Lemma alphabet_at_spec k :
  0 <= k < 64 ->
  exists c, alphabet_at k = [c] /\ lookup_code (Some c) = Some k /\ plain_symbol c.
Proof.
  intros Hk.
  assert (Hin : In k (List.map Z.of_nat (seq 0 64))).
  { apply in_map_iff. exists (Z.to_nat k). split; [lia |]. apply in_seq. lia. }
  pose proof (proj1 (forallb_forall _ _) sextet_ok_all k Hin) as Hok.
  unfold sextet_ok in Hok.
  destruct (alphabet_at k) as [| c [| ? ?]]; try discriminate.
  exists c. split; [reflexivity |].
  apply andb_prop in Hok as [Hok Hsp]. apply andb_prop in Hok as [Hlk Hpad].
  split; [| split].
  - unfold jeq in Hlk. destruct (lookup_code (Some c)); [| discriminate].
    apply Z.eqb_eq in Hlk. congruence.
  - apply negb_true_iff in Hpad. apply Z.eqb_neq. exact Hpad.
  - apply negb_true_iff. exact Hsp.
Qed.

Lemma encode_group3_eq b0 b1 b2 :
  let n := byteval b0 * 65536 + byteval b1 * 256 + byteval b2 in
  encode_group3 b0 b1 b2 =
    alphabet_at (n / 262144 mod 64) ++ alphabet_at (n / 4096 mod 64)
    ++ alphabet_at (n / 64 mod 64) ++ alphabet_at (n mod 64).
Proof.
  intros n. subst n.
  pose proof (byteval_range b0). pose proof (byteval_range b1).
  pose proof (byteval_range b2).
  unfold encode_group3.
  rewrite (js_shl_small _ 16), (js_shl_small _ 8) by lia.
  rewrite (js_or_shifted _ (byteval b1 * 2 ^ 8) 16) by lia.
  replace (byteval b0 * 2 ^ 16 + byteval b1 * 2 ^ 8)
    with ((byteval b0 * 256 + byteval b1) * 2 ^ 8) by lia.
  rewrite (js_or_shifted _ (byteval b2) 8) by lia.
  replace ((byteval b0 * 256 + byteval b1) * 2 ^ 8 + byteval b2)
    with (byteval b0 * 65536 + byteval b1 * 256 + byteval b2) by lia.
  rewrite !js_shru_small by lia.
  change 63 with (2 ^ 6 - 1).
  rewrite !js_and_ones by euclid.
  reflexivity.
Qed.

Lemma encode_remain1_eq b0 :
  encode_remain1 b0 =
    alphabet_at (byteval b0 / 4) ++ alphabet_at (byteval b0 mod 4 * 16) ++ [61; 61].
Proof.
  pose proof (byteval_range b0).
  unfold encode_remain1.
  rewrite js_shru_small by lia.
  change 63 with (2 ^ 6 - 1). change 3 with (2 ^ 2 - 1).
  rewrite !js_and_ones by euclid.
  rewrite js_shl_small by euclid.
  rewrite (Z.mod_small (byteval b0 / 2 ^ 2)) by euclid.
  reflexivity.
Qed.

Lemma encode_remain2_eq b0 b1 :
  let n := byteval b0 * 256 + byteval b1 in
  encode_remain2 b0 b1 =
    alphabet_at (n / 1024) ++ alphabet_at (n / 16 mod 64)
    ++ alphabet_at (n mod 16 * 4) ++ [61].
Proof.
  intros n. subst n.
  pose proof (byteval_range b0). pose proof (byteval_range b1).
  unfold encode_remain2.
  rewrite (js_shl_small _ 8) by lia.
  rewrite (js_or_shifted _ (byteval b1) 8) by lia.
  rewrite !js_shru_small by lia.
  change 63 with (2 ^ 6 - 1). change 15 with (2 ^ 4 - 1).
  rewrite !js_and_ones by euclid.
  rewrite js_shl_small by euclid.
  rewrite (Z.mod_small (_ / 2 ^ 10)) by euclid.
  reflexivity.
Qed.

(** The number assembled by the decoder from four 6-bit values. *)
Lemma decode_word_eq s0 s1 s2 s3 :
  0 <= s0 < 64 -> 0 <= s1 < 64 -> 0 <= s2 < 64 -> 0 <= s3 < 64 ->
  js_or (js_or (js_or (js_shl s0 18) (js_shl s1 12)) (js_shl (js_and s2 63) 6))
        (js_and s3 63)
  = ((s0 * 64 + s1) * 64 + s2) * 64 + s3.
Proof.
  intros H0 H1 H2 H3.
  change 63 with (2 ^ 6 - 1).
  rewrite !js_and_ones by lia.
  rewrite (Z.mod_small s2), (Z.mod_small s3) by lia.
  rewrite (js_shl_small _ 18), (js_shl_small _ 12), (js_shl_small _ 6) by lia.
  rewrite (js_or_shifted _ (s1 * 2 ^ 12) 18) by lia.
  replace (s0 * 2 ^ 18 + s1 * 2 ^ 12) with ((s0 * 64 + s1) * 2 ^ 12) by lia.
  rewrite (js_or_shifted _ (s2 * 2 ^ 6) 12) by lia.
  replace ((s0 * 64 + s1) * 2 ^ 12 + s2 * 2 ^ 6)
    with (((s0 * 64 + s1) * 64 + s2) * 2 ^ 6) by lia.
  rewrite (js_or_shifted _ s3 6) by lia.
  lia.
Qed.

Lemma byte_of_word n k :
  0 <= k < 32 -> 0 <= n < 2 ^ 24 ->
  js_and (js_shru n k) 255 = n / 2 ^ k mod 256.
Proof.
  intros Hk Hn.
  assert (0 < 2 ^ k) by (apply Z.pow_pos_nonneg; lia).
  rewrite js_shru_small by lia.
  change 255 with (2 ^ 8 - 1).
  rewrite js_and_ones; [reflexivity | lia |].
  split; [apply Z.div_pos; lia |].
  apply Z.le_lt_trans with n; [| lia].
  apply Z.div_le_upper_bound; nia.
Qed.

Lemma low_byte_of_word n : 0 <= n < 2 ^ 24 -> js_and n 255 = n mod 256.
Proof.
  intros Hn. change 255 with (2 ^ 8 - 1). rewrite js_and_ones by lia. reflexivity.
Qed.

End CodecGroups.

(** ** Decoding what the encoder wrote *)
Section CodecRoundTrip.

Lemma decode_group_full c0 c1 c2 c3 s0 s1 s2 s3 o out :
  lookup_code (Some c0) = Some s0 -> lookup_code (Some c1) = Some s1 ->
  lookup_code (Some c2) = Some s2 -> lookup_code (Some c3) = Some s3 ->
  c2 <> 61 -> c3 <> 61 ->
  0 <= s0 < 64 -> 0 <= s1 < 64 -> 0 <= s2 < 64 -> 0 <= s3 < 64 ->
  decode_group (Some c0) (Some c1) (Some c2) (Some c3) o out =
    let n := ((s0 * 64 + s1) * 64 + s2) * 64 + s3 in
    Ok (S (S (S o)),
        <[S (S o) := toUint8 (n mod 256)]>
          (<[S o := toUint8 (n / 2 ^ 8 mod 256)]>
             (<[o := toUint8 (n / 2 ^ 16 mod 256)]> out))).
Proof.
  intros L0 L1 L2 L3 P2 P3 R0 R1 R2 R3.
  unfold decode_group. rewrite L0, L1.
  cbn [jeq]. rewrite (proj2 (Z.eqb_neq c2 61) P2), (proj2 (Z.eqb_neq c3 61) P3).
  rewrite L2, L3. cbn [jlt0 jeq num].
  rewrite (proj2 (Z.ltb_ge s0 0)), (proj2 (Z.ltb_ge s1 0)) by lia.
  rewrite (proj2 (Z.eqb_neq s2 (-1))), (proj2 (Z.eqb_neq s3 (-1))) by lia.
  rewrite (proj2 (Z.eqb_neq s2 (-2))), (proj2 (Z.eqb_neq s3 (-2))) by lia.
  cbn [orb negb].
  rewrite decode_word_eq by lia.
  rewrite !byte_of_word, low_byte_of_word by lia.
  reflexivity.
Qed.

Lemma decode_group_pad1 c0 c1 c2 s0 s1 s2 o out :
  lookup_code (Some c0) = Some s0 -> lookup_code (Some c1) = Some s1 ->
  lookup_code (Some c2) = Some s2 -> c2 <> 61 ->
  0 <= s0 < 64 -> 0 <= s1 < 64 -> 0 <= s2 < 64 ->
  decode_group (Some c0) (Some c1) (Some c2) (Some 61) o out =
    let n := ((s0 * 64 + s1) * 64 + s2) * 64 + 62 in
    Ok (S (S o),
        <[S o := toUint8 (n / 2 ^ 8 mod 256)]>
          (<[o := toUint8 (n / 2 ^ 16 mod 256)]> out)).
Proof.
  intros L0 L1 L2 P2 R0 R1 R2.
  unfold decode_group. rewrite L0, L1.
  cbn [jeq]. rewrite (proj2 (Z.eqb_neq c2 61) P2). rewrite L2.
  change (61 =? 61) with true. cbn [jlt0 jeq num].
  rewrite (proj2 (Z.ltb_ge s0 0)), (proj2 (Z.ltb_ge s1 0)) by lia.
  rewrite (proj2 (Z.eqb_neq s2 (-1))), (proj2 (Z.eqb_neq s2 (-2))) by lia.
  change (-2 =? -1) with false. change (-2 =? -2) with true.
  cbn [orb negb].
  change (js_and (-2) 63) with (js_and 62 63).
  rewrite decode_word_eq by lia.
  rewrite !byte_of_word by lia.
  reflexivity.
Qed.

Lemma decode_group_pad2 c0 c1 s0 s1 o out :
  lookup_code (Some c0) = Some s0 -> lookup_code (Some c1) = Some s1 ->
  0 <= s0 < 64 -> 0 <= s1 < 64 ->
  decode_group (Some c0) (Some c1) (Some 61) (Some 61) o out =
    let n := ((s0 * 64 + s1) * 64 + 62) * 64 + 62 in
    Ok (S o, <[o := toUint8 (n / 2 ^ 16 mod 256)]> out).
Proof.
  intros L0 L1 R0 R1.
  unfold decode_group. rewrite L0, L1.
  cbn [jeq]. change (61 =? 61) with true. cbn [jlt0 jeq num].
  rewrite (proj2 (Z.ltb_ge s0 0)), (proj2 (Z.ltb_ge s1 0)) by lia.
  change (-2 =? -1) with false. change (-2 =? -2) with true.
  cbn [orb negb].
  change (js_and (-2) 63) with (js_and 62 63).
  rewrite decode_word_eq by lia.
  rewrite !byte_of_word by lia.
  reflexivity.
Qed.

Lemma group3_roundtrip b0 b1 b2 :
  exists c0 c1 c2 c3,
    encode_group3 b0 b1 b2 = [c0; c1; c2; c3]
    /\ Forall plain_symbol [c0; c1; c2; c3]
    /\ forall o out,
        decode_group (Some c0) (Some c1) (Some c2) (Some c3) o out =
          Ok (S (S (S o)), <[S (S o) := b2]> (<[S o := b1]> (<[o := b0]> out))).
Proof.
  pose proof (byteval_range b0) as H0. pose proof (byteval_range b1) as H1.
  pose proof (byteval_range b2) as H2.
  rewrite encode_group3_eq. cbv zeta.
  set (n := byteval b0 * 65536 + byteval b1 * 256 + byteval b2).
  assert (Hn : 0 <= n < 16777216) by (subst n; lia).
  destruct (alphabet_at_spec (n / 262144 mod 64)) as (c0 & E0 & L0 & P0); [euclid |].
  destruct (alphabet_at_spec (n / 4096 mod 64)) as (c1 & E1 & L1 & P1); [euclid |].
  destruct (alphabet_at_spec (n / 64 mod 64)) as (c2 & E2 & L2 & P2); [euclid |].
  destruct (alphabet_at_spec (n mod 64)) as (c3 & E3 & L3 & P3); [euclid |].
  rewrite E0, E1, E2, E3.
  exists c0, c1, c2, c3. split; [reflexivity |]. split.
  { repeat (first [apply Forall_nil_2 | apply Forall_cons_2; [assumption |]]). }
  intros o out.
  rewrite (decode_group_full _ _ _ _ _ _ _ _ o out L0 L1 L2 L3)
    by (first [apply P2 | apply P3 | euclid]).
  cbv zeta.
  assert (Hw : ((n / 262144 mod 64 * 64 + n / 4096 mod 64) * 64 + n / 64 mod 64) * 64
               + n mod 64 = n) by euclid.
  rewrite Hw.
  assert (B0 : n / 2 ^ 16 mod 256 = byteval b0) by (subst n; euclid).
  assert (B1 : n / 2 ^ 8 mod 256 = byteval b1) by (subst n; euclid).
  assert (B2 : n mod 256 = byteval b2) by (subst n; euclid).
  rewrite B0, B1, B2, !toUint8_byteval. reflexivity.
Qed.

Lemma remain2_roundtrip b0 b1 :
  exists c0 c1 c2,
    encode_remain2 b0 b1 = [c0; c1; c2; 61]
    /\ Forall plain_symbol [c0; c1; c2]
    /\ forall o out,
        decode_group (Some c0) (Some c1) (Some c2) (Some 61) o out =
          Ok (S (S o), <[S o := b1]> (<[o := b0]> out)).
Proof.
  pose proof (byteval_range b0) as H0. pose proof (byteval_range b1) as H1.
  rewrite encode_remain2_eq. cbv zeta.
  set (n := byteval b0 * 256 + byteval b1).
  assert (Hn : 0 <= n < 65536) by (subst n; lia).
  destruct (alphabet_at_spec (n / 1024)) as (c0 & E0 & L0 & P0); [euclid |].
  destruct (alphabet_at_spec (n / 16 mod 64)) as (c1 & E1 & L1 & P1); [euclid |].
  destruct (alphabet_at_spec (n mod 16 * 4)) as (c2 & E2 & L2 & P2); [euclid |].
  rewrite E0, E1, E2.
  exists c0, c1, c2. split; [reflexivity |]. split.
  { repeat (first [apply Forall_nil_2 | apply Forall_cons_2; [assumption |]]). }
  intros o out.
  rewrite (decode_group_pad1 _ _ _ _ _ _ o out L0 L1 L2)
    by (first [apply P2 | euclid]).
  cbv zeta.
  assert (B0 : (((n / 1024 * 64 + n / 16 mod 64) * 64 + n mod 16 * 4) * 64 + 62)
               / 2 ^ 16 mod 256 = byteval b0) by (subst n; euclid).
  assert (B1 : (((n / 1024 * 64 + n / 16 mod 64) * 64 + n mod 16 * 4) * 64 + 62)
               / 2 ^ 8 mod 256 = byteval b1) by (subst n; euclid).
  rewrite B0, B1, !toUint8_byteval. reflexivity.
Qed.

Lemma remain1_roundtrip b0 :
  exists c0 c1,
    encode_remain1 b0 = [c0; c1; 61; 61]
    /\ Forall plain_symbol [c0; c1]
    /\ forall o out,
        decode_group (Some c0) (Some c1) (Some 61) (Some 61) o out =
          Ok (S o, <[o := b0]> out).
Proof.
  pose proof (byteval_range b0) as H0.
  rewrite encode_remain1_eq.
  set (n := byteval b0) in *.
  destruct (alphabet_at_spec (n / 4)) as (c0 & E0 & L0 & P0); [euclid |].
  destruct (alphabet_at_spec (n mod 4 * 16)) as (c1 & E1 & L1 & P1); [euclid |].
  rewrite E0, E1.
  exists c0, c1. split; [reflexivity |]. split.
  { repeat (first [apply Forall_nil_2 | apply Forall_cons_2; [assumption |]]). }
  intros o out.
  rewrite (decode_group_pad2 _ _ _ _ o out L0 L1) by euclid.
  cbv zeta.
  assert (B0 : (((n / 4 * 64 + n mod 4 * 16) * 64 + 62) * 64 + 62)
               / 2 ^ 16 mod 256 = n) by euclid.
  rewrite B0. subst n. rewrite toUint8_byteval. reflexivity.
Qed.

End CodecRoundTrip.

(** ** The round trip on whole byte sequences *)
Section CodecWhole.

(** Induction over a list three elements at a time, as the encoder reads it. *)
Lemma list_ind3 {A : Type} (P : list A -> Prop) :
  P [] -> (forall a, P [a]) -> (forall a b, P [a; b]) ->
  (forall a b c l, P l -> P (a :: b :: c :: l)) ->
  forall l, P l.
Proof.
  intros H0 H1 H2 H3 l.
  enough (H : P l /\ (forall a, P (a :: l)) /\ (forall a b, P (a :: b :: l)))
    by apply H.
  induction l as [| x l (IH0 & IH1 & IH2)].
  - auto.
  - split; [apply IH1 |]. split; [intros a; apply IH2 |].
    intros a b. apply H3. exact IH0.
Qed.

Lemma write_at_end (done : list byte) (b x : byte) (rest : list byte) :
  <[length done := b]> (done ++ x :: rest) = (done ++ [b]) ++ rest.
Proof.
  rewrite insert_app_r_alt by lia.
  rewrite Nat.sub_diag. cbn. rewrite <- app_assoc. reflexivity.
Qed.

Lemma decode_from_encode_from (bs : list byte) :
  forall done : list byte,
    decode_from (encode_from bs) (length done) (done ++ replicate (length bs) x00)
    = Ok (done ++ bs).
Proof.
  induction bs as [| b0 | b0 b1 | b0 b1 b2 rest IH] using list_ind3; intros done.
  - cbn. reflexivity.
  - destruct (remain1_roundtrip b0) as (c0 & c1 & E & _ & D).
    cbn [encode_from]. rewrite E. cbn [decode_from]. rewrite D.
    cbn [length replicate]. rewrite write_at_end, app_nil_r. reflexivity.
  - destruct (remain2_roundtrip b0 b1) as (c0 & c1 & c2 & E & _ & D).
    cbn [encode_from]. rewrite E. cbn [decode_from]. rewrite D.
    cbn [length replicate]. rewrite write_at_end.
    replace (S (length done)) with (length (done ++ [b0]))
      by (rewrite length_app; cbn; lia).
    rewrite write_at_end, app_nil_r, <- app_assoc. reflexivity.
  - destruct (group3_roundtrip b0 b1 b2) as (c0 & c1 & c2 & c3 & E & _ & D).
    cbn [encode_from]. rewrite E. cbn [app decode_from]. rewrite D.
    cbn [length replicate]. rewrite write_at_end.
    replace (S (length done)) with (length (done ++ [b0]))
      by (rewrite length_app; cbn; lia).
    rewrite write_at_end.
    replace (S (length (done ++ [b0]))) with (length ((done ++ [b0]) ++ [b1]))
      by (rewrite !length_app; cbn; lia).
    rewrite write_at_end.
    replace (S (length ((done ++ [b0]) ++ [b1])))
      with (length (((done ++ [b0]) ++ [b1]) ++ [b2]))
      by (rewrite !length_app; cbn; lia).
    rewrite IH. rewrite <- !app_assoc. reflexivity.
Qed.

Lemma encode_from_no_space (bs : list byte) :
  Forall (fun c => is_js_space c = false) (encode_from bs).
Proof.
  induction bs as [| b0 | b0 b1 | b0 b1 b2 rest IH] using list_ind3.
  - constructor.
  - destruct (remain1_roundtrip b0) as (c0 & c1 & E & P & _).
    cbn [encode_from]. rewrite E.
    apply Forall_cons_1 in P as [[_ S0] P]. apply Forall_cons_1 in P as [[_ S1] _].
    repeat (apply Forall_cons_2; [first [assumption | reflexivity] |]).
    apply Forall_nil_2.
  - destruct (remain2_roundtrip b0 b1) as (c0 & c1 & c2 & E & P & _).
    cbn [encode_from]. rewrite E.
    apply Forall_cons_1 in P as [[_ S0] P]. apply Forall_cons_1 in P as [[_ S1] P].
    apply Forall_cons_1 in P as [[_ S2] _].
    repeat (apply Forall_cons_2; [first [assumption | reflexivity] |]).
    apply Forall_nil_2.
  - destruct (group3_roundtrip b0 b1 b2) as (c0 & c1 & c2 & c3 & E & P & _).
    cbn [encode_from]. rewrite E.
    apply Forall_app_2; [| exact IH].
    eapply Forall_impl; [exact P |]. intros c [_ Hc]. exact Hc.
Qed.

Lemma filter_all {A : Type} (f : A -> bool) (l : list A) :
  Forall (fun x => f x = true) l -> List.filter f l = l.
Proof.
  induction 1 as [| x l Hx _ IH]; cbn; [reflexivity |].
  rewrite Hx, IH. reflexivity.
Qed.

Lemma endsWith_app (g t suffix : jstring) :
  (length suffix <= length t)%nat -> endsWith (g ++ t) suffix = endsWith t suffix.
Proof.
  intros Hle. unfold endsWith.
  rewrite length_app.
  rewrite (proj2 (Nat.leb_le _ _) Hle).
  rewrite (proj2 (Nat.leb_le (length suffix) (length g + length t))) by lia.
  rewrite drop_app_ge by lia.
  replace (length g + length t - length suffix - length g)%nat
    with (length t - length suffix)%nat by lia.
  reflexivity.
Qed.

Lemma padding_of_app (g t : jstring) :
  (2 <= length t)%nat -> padding_of (g ++ t) = padding_of t.
Proof.
  intros Hle. unfold padding_of.
  rewrite !endsWith_app by (cbn; lia). reflexivity.
Qed.

Lemma encode_from_shape (bs : list byte) :
  bs <> [] ->
  exists k : nat,
    length (encode_from bs) = (4 * S k)%nat
    /\ (padding_of (encode_from bs) <= 2)%nat
    /\ (3 * S k - padding_of (encode_from bs) = length bs)%nat.
Proof.
  induction bs as [| b0 | b0 b1 | b0 b1 b2 rest IH] using list_ind3; intros Hne.
  - congruence.
  - destruct (remain1_roundtrip b0) as (c0 & c1 & E & _ & _).
    cbn [encode_from]. rewrite E. exists 0%nat.
    assert (Hp : padding_of [c0; c1; 61; 61] = 2%nat).
    { unfold padding_of, endsWith, jstring_eqb.
      change (lit "==") with [61; 61]. change (lit "=") with [61]. cbn.
      rewrite bool_decide_eq_true_2 by reflexivity. reflexivity. }
    rewrite Hp. cbn. lia.
  - destruct (remain2_roundtrip b0 b1) as (c0 & c1 & c2 & E & P & _).
    cbn [encode_from]. rewrite E. exists 0%nat.
    apply Forall_cons_1 in P as [_ P]. apply Forall_cons_1 in P as [_ P].
    apply Forall_cons_1 in P as [[N2 _] _].
    assert (Hp : padding_of [c0; c1; c2; 61] = 1%nat).
    { unfold padding_of, endsWith, jstring_eqb.
      change (lit "==") with [61; 61]. change (lit "=") with [61]. cbn.
      rewrite bool_decide_eq_false_2 by congruence.
      rewrite bool_decide_eq_true_2 by reflexivity. reflexivity. }
    rewrite Hp. cbn. lia.
  - destruct (group3_roundtrip b0 b1 b2) as (c0 & c1 & c2 & c3 & E & P & _).
    cbn [encode_from]. rewrite E.
    destruct rest as [| r rest'].
    + exists 0%nat.
      apply Forall_cons_1 in P as [_ P]. apply Forall_cons_1 in P as [_ P].
      apply Forall_cons_1 in P as [_ P]. apply Forall_cons_1 in P as [[N3 _] _].
      assert (Hp : padding_of ([c0; c1; c2; c3] ++ encode_from []) = 0%nat).
      { unfold padding_of, endsWith, jstring_eqb.
      change (lit "==") with [61; 61]. change (lit "=") with [61]. cbn.
        rewrite !bool_decide_eq_false_2 by congruence. reflexivity. }
      rewrite Hp. cbn. lia.
    + destruct IH as (k & Hlen & Hle & Hout); [congruence |].
      exists (S k).
      rewrite padding_of_app by lia.
      rewrite length_app, Hlen. cbn [length] in *. lia.
Qed.

(** The decoder on the symbols written for a non-empty byte sequence. *)
Lemma decodeBase64_encode_from (B : list byte) :
  B <> [] -> decodeBase64 (encode_from B) = Ok B.
Proof.
  intros Hne.
  destruct (encode_from_shape B Hne) as (k & Hlen & Hle & Hout).
  unfold decodeBase64, strip_space.
  rewrite filter_all.
  2: { eapply Forall_impl; [apply encode_from_no_space |].
       cbn. intros c Hc. rewrite Hc. reflexivity. }
  assert (Hmod : (length (encode_from B) mod 4 = 0)%nat).
  { rewrite Hlen, Nat.mul_comm. apply Nat.Div0.mod_mul. }
  replace (length (encode_from B) =? 0)%nat with false
    by (symmetry; apply Nat.eqb_neq; lia).
  rewrite Hmod. cbn [Nat.eqb negb].
  rewrite Hmod. cbn [Nat.eqb negb].
  replace (length (encode_from B) / 4 * 3 - padding_of (encode_from B))%nat
    with (length B).
  2: { rewrite Hlen, (Nat.mul_comm 4), Nat.div_mul by lia. lia. }
  apply (decode_from_encode_from B []).
Qed.

End CodecWhole.

(** C2. For every byte sequence [B] (the empty one and the lengths 0, 1 and
    2 modulo 3 included), decoding the encoding of [B] gives back [B]. *)
Theorem decodeBase64_encodeBase64 (B : list byte) :
  decodeBase64 (encodeBase64 B) = Ok B.
Proof.
  unfold encodeBase64.
  destruct B as [| b B'].
  - reflexivity.
  - cbn [length Nat.eqb].
    apply decodeBase64_encode_from. discriminate.
Qed.

(** ** What the decoder rejects *)
Section CodecRejects.

Lemma unaccepted_ok_all : forallb unaccepted_ok (List.map Z.of_nat (seq 0 256)) = true.
Proof. vm_compute. reflexivity. Qed.

Lemma lookup_code_unaccepted c :
  0 <= c < 256 -> accepted_symbol c = false -> lookup_code (Some c) = Some (-1).
Proof.
  intros Hc Hacc.
  assert (Hin : In c (List.map Z.of_nat (seq 0 256))).
  { apply in_map_iff. exists (Z.to_nat c). split; [lia |]. apply in_seq. lia. }
  pose proof (proj1 (forallb_forall _ _) unaccepted_ok_all c Hin) as Hok.
  unfold unaccepted_ok in Hok. rewrite Hacc in Hok. cbn [orb] in Hok.
  unfold jeq in Hok. destruct (lookup_code (Some c)); [| discriminate].
  apply Z.eqb_eq in Hok. congruence.
Qed.

Lemma decode_group_error c0 c1 c2 c3 o out e :
  decode_group c0 c1 c2 c3 o out = Err e -> e = InvalidCharacter.
Proof.
  unfold decode_group.
  destruct (_ || _ || _ || _); [congruence |].
  destruct (negb _), (negb _); discriminate.
Qed.

Lemma decode_group_bad0 c0 c1 c2 c3 o out :
  lookup_code c0 = Some (-1) ->
  decode_group c0 c1 c2 c3 o out = Err InvalidCharacter.
Proof. intros H. unfold decode_group. rewrite H. reflexivity. Qed.

Lemma decode_group_bad1 c0 c1 c2 c3 o out :
  lookup_code c1 = Some (-1) ->
  decode_group c0 c1 c2 c3 o out = Err InvalidCharacter.
Proof.
  intros H. unfold decode_group. rewrite H.
  destruct (jlt0 (lookup_code c0)); reflexivity.
Qed.

Lemma decode_group_bad2 c0 c1 c o out c3 :
  c <> 61 -> lookup_code (Some c) = Some (-1) ->
  decode_group c0 c1 (Some c) c3 o out = Err InvalidCharacter.
Proof.
  intros Hne H. unfold decode_group.
  cbn [jeq]. rewrite (proj2 (Z.eqb_neq c 61) Hne), H.
  destruct (jlt0 (lookup_code c0)), (jlt0 (lookup_code c1)); reflexivity.
Qed.

Lemma decode_group_bad3 c0 c1 c2 c o out :
  c <> 61 -> lookup_code (Some c) = Some (-1) ->
  decode_group c0 c1 c2 (Some c) o out = Err InvalidCharacter.
Proof.
  intros Hne H. unfold decode_group.
  cbn [jeq]. rewrite (proj2 (Z.eqb_neq c 61) Hne), H. cbv zeta.
  change (jeq (Some (-1)) (-1)) with true. rewrite orb_true_r. reflexivity.
Qed.

(** A code unit without a value, other than a padding marker in the third
    or fourth position of its group, makes the loop throw. *)
Lemma decode_from_bad (n : nat) :
  forall (s : jstring) (i : nat) (c : Z) (o : nat) (out : list byte),
    length s = (4 * n)%nat ->
    s !! i = Some c ->
    lookup_code (Some c) = Some (-1) ->
    c <> 61 \/ (i mod 4 < 2)%nat ->
    decode_from s o out = Err InvalidCharacter.
Proof.
  induction n as [| n IH]; intros s i c o out Hlen Hi Hbad Hpos.
  - destruct s; [| discriminate]. destruct i; discriminate Hi.
  - destruct s as [| c0 [| c1 [| c2 [| c3 rest]]]]; try (cbn in Hlen; lia).
    cbn [decode_from].
    destruct (decode_group (Some c0) (Some c1) (Some c2) (Some c3) o out)
      as [[o' out'] | e] eqn:Hg.
    2: { apply decode_group_error in Hg. congruence. }
    destruct i as [| [| [| [| j]]]]; cbn in Hi.
    + injection Hi as ->. rewrite decode_group_bad0 in Hg by assumption. discriminate.
    + injection Hi as ->. rewrite decode_group_bad1 in Hg by assumption. discriminate.
    + injection Hi as ->. destruct Hpos as [Hne | Hlt]; [| cbn in Hlt; lia].
      rewrite decode_group_bad2 in Hg by assumption. discriminate.
    + injection Hi as ->. destruct Hpos as [Hne | Hlt]; [| cbn in Hlt; lia].
      rewrite decode_group_bad3 in Hg by assumption. discriminate.
    + apply (IH rest j c); try assumption.
      * cbn [length] in Hlen. lia.
      * destruct Hpos as [Hne | Hlt]; [left; exact Hne | right].
        replace (S (S (S (S j)))) with (j + 1 * 4)%nat in Hlt by lia.
        rewrite Nat.Div0.mod_add in Hlt. exact Hlt.
Qed.

(** The string handed to the loop: [cleaned], padded to a multiple of 4. *)
Lemma padded_length (cleaned : jstring) :
  let mod_ := (length cleaned mod 4)%nat in
  let padded :=
    if (mod_ =? 0)%nat then cleaned else cleaned ++ replicate (4 - mod_) 61 in
  (length padded mod 4 = 0)%nat.
Proof.
  cbv zeta.
  pose proof (Nat.div_mod_eq (length cleaned) 4) as Hdm.
  pose proof (Nat.mod_upper_bound (length cleaned) 4 ltac:(lia)) as Hub.
  destruct (Nat.eqb_spec (length cleaned mod 4) 0) as [H0 | H0]; [exact H0 |].
  rewrite length_app, length_replicate.
  replace (length cleaned + (4 - length cleaned mod 4))%nat
    with (0 + (length cleaned / 4 + 1) * 4)%nat by lia.
  rewrite Nat.Div0.mod_add. reflexivity.
Qed.

Lemma decodeBase64_unfold (input : jstring) :
  strip_space input <> [] ->
  let cleaned := strip_space input in
  let mod_ := (length cleaned mod 4)%nat in
  let padded :=
    if (mod_ =? 0)%nat then cleaned else cleaned ++ replicate (4 - mod_) 61 in
  decodeBase64 input =
    decode_from padded 0
      (replicate (length padded / 4 * 3 - padding_of padded) x00).
Proof.
  intros Hne. cbv zeta. unfold decodeBase64.
  destruct (strip_space input) as [| c cleaned] eqn:Hc; [congruence |].
  cbn [length Nat.eqb].
  pose proof (padded_length (c :: cleaned)) as Hp. cbv zeta in Hp.
  cbn [length] in Hp. rewrite Hp. reflexivity.
Qed.

Lemma decode_from_error (s : jstring) :
  forall o out e, decode_from s o out = Err e -> e = InvalidCharacter.
Proof.
  induction s as [s IH] using (induction_ltof1 _ (@length Z)). unfold ltof in IH.
  intros o out e H.
  destruct s as [| c0 [| c1 [| c2 [| c3 rest]]]]; cbn [decode_from] in H;
    try discriminate;
    try (destruct (decode_group _ _ _ _ o out) as [[? ?] | e'] eqn:Hg;
         [discriminate | apply decode_group_error in Hg; congruence]).
  destruct (decode_group _ _ _ _ o out) as [[o' out'] | e'] eqn:Hg.
  - apply (IH rest) in H; [exact H | cbn; lia].
  - apply decode_group_error in Hg. congruence.
Qed.

(** The check on the padded length never fires. *)
Lemma decodeBase64_never_InvalidLength (input : jstring) :
  decodeBase64 input <> Err InvalidLength.
Proof.
  destruct (strip_space input) as [| c cleaned] eqn:Hc.
  - unfold decodeBase64. rewrite Hc. discriminate.
  - rewrite decodeBase64_unfold by congruence. cbv zeta.
    intros H. apply decode_from_error in H. discriminate.
Qed.

End CodecRejects.

(** What the character check does catch.  Once white space is removed, a
    code unit below 256 that is neither one of the 64 alphabet symbols nor
    ['-'], ['_'] or ['='], and a ['='] in the first or second position of a
    group of four, make [decodeBase64] fail with [InvalidCharacter]. *)
Lemma decodeBase64_rejects_unaccepted (input : jstring) (i : nat) (c : Z) :
  strip_space input !! i = Some c ->
  0 <= c < 256 ->
  accepted_symbol c = false ->
  c <> 61 \/ (i mod 4 < 2)%nat ->
  decodeBase64 input = Err InvalidCharacter.
Proof.
  intros Hi Hc Hacc Hpos.
  assert (Hne : strip_space input <> []).
  { intros E. rewrite E in Hi. destruct i; discriminate Hi. }
  rewrite decodeBase64_unfold by exact Hne. cbv zeta.
  pose proof (padded_length (strip_space input)) as Hp. cbv zeta in Hp.
  set (padded := if (length (strip_space input) mod 4 =? 0)%nat
                 then strip_space input
                 else strip_space input
                      ++ replicate (4 - length (strip_space input) mod 4) 61) in *.
  assert (Hi' : padded !! i = Some c).
  { subst padded. destruct (_ =? _)%nat; [exact Hi |].
    apply lookup_app_l_Some. exact Hi. }
  apply (decode_from_bad (length padded / 4) padded i c); try assumption.
  - pose proof (Nat.div_mod_eq (length padded) 4). lia.
  - apply lookup_code_unaccepted; assumption.
Qed.

Lemma decodeBase64_rejects_unaccepted_witness :
  decodeBase64 (lit "QUJD*A==") = Err InvalidCharacter.
Proof.
  apply (decodeBase64_rejects_unaccepted (lit "QUJD*A==") 4 42).
  - reflexivity.
  - lia.
  - reflexivity.
  - left. lia.
Defined.

(** White space is removed before decoding and the table has entries for
    the two base64url symbols, so inputs that contain them are decoded. *)
Lemma decodeBase64_accepts_outside_alphabet :
  (In 45 (lit "-_-_") /\ ~ In 45 BASE64_ALPHABET
   /\ decodeBase64 (lit "-_-_") = Ok [xfb; xff; xbf])
  /\ (In 32 (lit "QQ ==") /\ ~ In 32 BASE64_ALPHABET
      /\ decodeBase64 (lit "QQ ==") = Ok [x41]).
Proof.
  assert (Hnot : forall c, existsb (Z.eqb c) BASE64_ALPHABET = false ->
                           ~ In c BASE64_ALPHABET).
  { intros c Hex Hin.
    assert (existsb (Z.eqb c) BASE64_ALPHABET = true) as Ht.
    { apply existsb_exists. exists c. split; [exact Hin | apply Z.eqb_refl]. }
    congruence. }
  split; (split; [cbn; tauto |]); (split; [apply Hnot; reflexivity |]);
    vm_compute; reflexivity.
Qed.

(** The character check of a group looks at its four code units only. *)
Lemma decode_group_accepts (c0 c1 c2 c3 : jnum) (o o' : nat) (out out' : list byte)
    (r : nat * list byte) :
  decode_group c0 c1 c2 c3 o out = Ok r ->
  exists r', decode_group c0 c1 c2 c3 o' out' = Ok r'.
Proof.
  unfold decode_group. cbv zeta.
  destruct (_ || _ || _ || _); [discriminate |].
  intros _. destruct (negb _), (negb _); eexists; reflexivity.
Qed.

(** Whether the loop accepts a text does not depend on the array it
    writes to. *)
Lemma decode_from_accepts (s : jstring) :
  forall (o o' : nat) (out out' r : list byte),
    decode_from s o out = Ok r -> exists r', decode_from s o' out' = Ok r'.
Proof.
  induction s as [s IH] using (induction_ltof1 _ (@length Z)). unfold ltof in IH.
  intros o o' out out' r H.
  destruct s as [| c0 [| c1 [| c2 [| c3 rest]]]]; cbn [decode_from] in H |- *;
    try (eexists; reflexivity);
    try (destruct (decode_group _ _ _ _ o out) as [[o1 out1] | e] eqn:Hg;
         [| discriminate H];
         destruct (decode_group_accepts _ _ _ _ o o' out out' _ Hg) as [[o2 out2] Hg'];
         rewrite Hg'; eexists; reflexivity).
  destruct (decode_group _ _ _ _ o out) as [[o1 out1] | e] eqn:Hg; [| discriminate H].
  destruct (decode_group_accepts _ _ _ _ o o' out out' _ Hg) as [[o2 out2] Hg'].
  rewrite Hg'. apply (IH rest) with (o := o1) (out := out1) (r := r); [cbn; lia | exact H].
Qed.

(** After whole groups of four that are accepted, the loop goes on with
    what follows them. *)
Lemma decode_from_app (n : nat) :
  forall (s t : jstring) (o : nat) (out r : list byte),
    length s = (4 * n)%nat ->
    decode_from s o out = Ok r ->
    exists (o1 : nat) (out1 : list byte),
      decode_from (s ++ t) o out = decode_from t o1 out1.
Proof.
  induction n as [| n IH]; intros s t o out r Hlen H.
  - destruct s; [| discriminate Hlen]. exists o, out. reflexivity.
  - destruct s as [| c0 [| c1 [| c2 [| c3 rest]]]]; try (cbn in Hlen; lia).
    cbn [app decode_from] in H |- *.
    destruct (decode_group _ _ _ _ o out) as [[o1 out1] | e]; [| discriminate H].
    apply (IH rest t o1 out1 r); [cbn [length] in Hlen; lia | exact H].
Qed.

(** The text handed to the loop, for a text that follows whole groups. *)
Lemma padded_after_groups (s t : jstring) :
  (length s mod 4 = 0)%nat -> t <> [] ->
  (if (length (s ++ t) mod 4 =? 0)%nat then s ++ t
   else (s ++ t) ++ replicate (4 - length (s ++ t) mod 4) 61)
  = s ++ (if (length t mod 4 =? 0)%nat then t
          else t ++ replicate (4 - length t mod 4) 61).
Proof.
  intros Hs _.
  assert (Hmod : (length (s ++ t) mod 4 = length t mod 4)%nat).
  { rewrite length_app.
    pose proof (Nat.div_mod_eq (length s) 4) as Hd.
    replace (length s + length t)%nat with (length t + (length s / 4) * 4)%nat by lia.
    apply Nat.Div0.mod_add. }
  rewrite Hmod. destruct (_ =? _)%nat; [reflexivity |].
  rewrite <- app_assoc. reflexivity.
Qed.

(** C5, what the code does.  A padding marker before the last group is
    not rejected.  The character check takes ['='] in the third and fourth
    position of every group, not only of the last one: whenever two texts
    are accepted and the first one fills whole groups of four, as
    ["QQ=="] does, the two texts written one after the other are accepted
    too. *)
Theorem decodeBase64_padding_before_last_group (s t : jstring) (a b : list byte) :
  (length (strip_space s) mod 4 = 0)%nat ->
  decodeBase64 s = Ok a ->
  decodeBase64 t = Ok b ->
  exists out : list byte, decodeBase64 (s ++ t) = Ok out.
Proof.
  intros Hmod Hs Ht.
  assert (Hstrip : strip_space (s ++ t) = strip_space s ++ strip_space t)
    by apply List.filter_app.
  destruct (strip_space t) as [| ct T] eqn:HT.
  { exists a. unfold decodeBase64 in Hs |- *.
    rewrite Hstrip, app_nil_r. exact Hs. }
  destruct (strip_space s) as [| cs S] eqn:HS.
  { exists b. unfold decodeBase64 in Ht |- *.
    rewrite Hstrip. cbn [app]. rewrite HT in Ht. exact Ht. }
  rewrite decodeBase64_unfold in Hs by (rewrite HS; discriminate).
  rewrite decodeBase64_unfold in Ht by (rewrite HT; discriminate).
  rewrite decodeBase64_unfold by (rewrite Hstrip; discriminate).
  cbv zeta in Hs, Ht |- *. rewrite HS in Hs. rewrite HT in Ht. rewrite Hstrip.
  rewrite Hmod in Hs. cbn [Nat.eqb] in Hs.
  rewrite (padded_after_groups (cs :: S) (ct :: T) Hmod) by discriminate.
  set (paddedT := if (length (ct :: T) mod 4 =? 0)%nat then ct :: T
                  else (ct :: T) ++ replicate (4 - length (ct :: T) mod 4) 61) in *.
  set (init := replicate _ x00).
  destruct (decode_from_accepts (cs :: S) 0 0 _ init a Hs) as [r Hr].
  assert (Hlen : length (cs :: S) = (4 * (length (cs :: S) / 4))%nat).
  { pose proof (Nat.div_mod_eq (length (cs :: S)) 4). lia. }
  destruct (decode_from_app _ (cs :: S) paddedT 0 init r Hlen Hr) as (o1 & out1 & Happ).
  rewrite Happ.
  exact (decode_from_accepts paddedT 0 o1 _ out1 b Ht).
Qed.

Lemma decodeBase64_padding_before_last_group_witness :
  exists out : list byte, decodeBase64 (lit "QQ==" ++ lit "QQ==") = Ok out.
Proof.
  apply (decodeBase64_padding_before_last_group (lit "QQ==") (lit "QQ==") [x41] [x41]).
  - reflexivity.
  - vm_compute. reflexivity.
  - vm_compute. reflexivity.
Defined.

(** The text ["QQ==QQ=="]: the second byte lands where the padding of the
    first group left a gap, and the bytes that the length computation
    counted for that padding stay zero. *)
Lemma decodeBase64_inner_padding :
  decodeBase64 (lit "QQ==QQ==") = Ok [x41; x41; x00; x00].
Proof. vm_compute. reflexivity. Qed.

(** A padding marker followed by a symbol in the same group is taken as
    well: the byte of the marker is skipped and bits of it are written
    with the next one. *)
Lemma decodeBase64_padding_then_symbol :
  decodeBase64 (lit "QQ=A") = Ok [x41; x80; x00].
Proof. vm_compute. reflexivity. Qed.

(** A code unit above the table has no entry: the lookup gives
    [undefined], which passes the check and counts as 0. *)
Lemma decodeBase64_wide_code_unit (c : Z) :
  256 <= c -> is_js_space c = false ->
  decodeBase64 [c; 65; 65; 65] = Ok [x00; x00; x00].
Proof.
  intros Hc Hsp.
  assert (Hlookup : lookup_code (Some c) = None).
  { unfold lookup_code. replace (c <? 0) with false by lia.
    apply lookup_ge_None. change (length BASE64_LOOKUP) with 256%nat. lia. }
  assert (Hstrip : strip_space [c; 65; 65; 65] = [c; 65; 65; 65]).
  { unfold strip_space. cbn [List.filter]. rewrite Hsp. reflexivity. }
  rewrite decodeBase64_unfold by (rewrite Hstrip; discriminate).
  cbv zeta. rewrite Hstrip.
  change (length [c; 65; 65; 65]) with 4%nat.
  change (4 mod 4 =? 0)%nat with true. cbv iota.
  change (length [c; 65; 65; 65]) with 4%nat.
  replace (padding_of [c; 65; 65; 65]) with 0%nat by reflexivity.
  change (4 / 4 * 3 - 0)%nat with 3%nat.
  cbn [replicate decode_from]. unfold decode_group. rewrite Hlookup. reflexivity.
Qed.

(** C6, what the code does.  An input whose length after white-space
    stripping is 1 modulo 4 is padded with three markers, and is rejected
    by the character check, with [InvalidCharacter]. *)
Theorem decodeBase64_length_1_mod_4 (input : jstring) :
  (length (strip_space input) mod 4 = 1)%nat ->
  decodeBase64 input = Err InvalidCharacter.
Proof.
  intros Hmod.
  assert (Hne : strip_space input <> []).
  { intros E. rewrite E in Hmod. discriminate Hmod. }
  rewrite decodeBase64_unfold by exact Hne. cbv zeta.
  pose proof (padded_length (strip_space input)) as Hp. cbv zeta in Hp.
  revert Hp. rewrite Hmod. cbn [Nat.eqb Nat.sub replicate]. intros Hp.
  set (padded := strip_space input ++ [61; 61; 61]) in *.
  apply (decode_from_bad (length padded / 4) padded (length (strip_space input)) 61).
  - pose proof (Nat.div_mod_eq (length padded) 4). lia.
  - subst padded. rewrite lookup_app_r by lia. rewrite Nat.sub_diag. reflexivity.
  - reflexivity.
  - right. rewrite Hmod. lia.
Qed.

Lemma decodeBase64_length_1_mod_4_witness :
  (length (strip_space (lit "QUJDR")) mod 4 = 1)%nat
  /\ decodeBase64 (lit "QUJDR") = Err InvalidCharacter.
Proof.
  split; [reflexivity |].
  apply decodeBase64_length_1_mod_4. reflexivity.
Defined.

(** ** The bounded fetcher *)
Import JsString ImageResolver.

Section MonadLaws.

Lemma bind_emit {A : Type} (ev : Event) (k : M A) (w : World) :
  (emit ev ;;; k) w = k (after w [ev]).
Proof. reflexivity. Qed.

Lemma bind_ret {A B : Type} (a : A) (k : A -> M B) (w : World) :
  (x <- ret a ;; k x) w = k a w.
Proof. reflexivity. Qed.

Lemma bind_throw {A B : Type} (e : Error) (k : A -> M B) (w : World) :
  (x <- throw e ;; k x) w = (Err e, w).
Proof. reflexivity. Qed.

Lemma after_after (w : World) (l1 l2 : list Event) :
  after (after w l1) l2 = after w (l1 ++ l2).
Proof. unfold after. cbn. rewrite app_assoc. reflexivity. Qed.

Lemma after_nil (w : World) : after w [] = w.
Proof. destruct w. unfold after. cbn. rewrite app_nil_r. reflexivity. Qed.

End MonadLaws.

Section BoundedFetcher.

Lemma gtb_true (a b : Z) : a > b -> (a >? b) = true.
Proof. intros H. apply Z.gtb_lt. lia. Qed.

Lemma gtb_false (a b : Z) : a <= b -> (a >? b) = false.
Proof. intros H. rewrite Z.gtb_ltb. apply Z.ltb_ge. exact H. Qed.

Lemma received_nonneg (values : list (option (list byte))) : 0 <= received values.
Proof.
  induction values as [| [value |] values IH]; cbn [received fold_right];
    try fold (received values); lia.
Qed.

(** The reads up to the first one that takes the total above the ceiling. *)
Lemma read_chunks_exceeds (pre : list (option (list byte))) :
  forall (value : list byte) (post : list ReadStep) (maxBytes total : Z)
         (chunks : list (list byte)) (w : World),
    total + received pre <= maxBytes ->
    total + received pre + Z.of_nat (length value) > maxBytes ->
    read_chunks (List.map Chunk pre ++ Chunk (Some value) :: post) maxBytes total chunks w
    = (Err TooLarge, after w (replicate (S (length pre)) EvBodyRead ++ [EvBodyCancel])).
Proof.
  induction pre as [| v pre IH]; intros value post maxBytes total chunks w Hle Hgt.
  - cbn [List.map app read_chunks]. rewrite bind_emit.
    cbn in Hle, Hgt.
    rewrite gtb_true by lia.
    rewrite bind_emit. unfold throw. rewrite after_after. reflexivity.
  - pose proof (received_nonneg pre) as Hnn.
    cbn [List.map app read_chunks]. rewrite bind_emit.
    destruct v as [value0 |]; cbn [received fold_right] in Hle, Hgt;
      fold (received pre) in Hle, Hgt.
    + rewrite gtb_false by lia.
      rewrite IH by lia. rewrite after_after. reflexivity.
    + rewrite IH by lia. rewrite after_after. reflexivity.
Qed.

End BoundedFetcher.

(** C4. With byte ceiling [C]: a response whose content-length header
    parses to a finite number above [C] fails with [TooLarge] and the body
    is not read at all (the world is unchanged); otherwise (header absent,
    or not above [C]) the body is read step by step and the read that
    takes the total above [C] is followed by a cancel and the failure
    [TooLarge], the rest of the stream being left unread. *)
Theorem readResponseBytesWithLimit_ceiling (resp : Response) (C : Z) (w : World) :
  (forall (header : jstring) (declared : Z),
      content_length resp = Some header ->
      parseInt header = Some declared ->
      isFinite (Some declared) = true ->
      declared > C ->
      readResponseBytesWithLimit resp C w = (Err TooLarge, w))
  /\ (forall (pre : list (option (list byte))) (value : list byte) (post : list ReadStep),
         declaredTooLarge resp C = false ->
         body resp = Some (List.map Chunk pre ++ Chunk (Some value) :: post) ->
         received pre <= C ->
         received pre + Z.of_nat (length value) > C ->
         readResponseBytesWithLimit resp C w
         = (Err TooLarge,
            after w (replicate (S (length pre)) EvBodyRead
                     ++ [EvBodyCancel; EvReleaseLock]))).
Proof.
  split.
  - intros header declared Hh Hp Hfin Hgt.
    unfold readResponseBytesWithLimit, declaredTooLarge. rewrite Hh.
    destruct header as [| c s]; [discriminate Hp |].
    cbv zeta. rewrite Hp, Hfin.
    rewrite gtb_true by lia.
    reflexivity.
  - intros pre value post Hd Hb Hle Hgt.
    unfold readResponseBytesWithLimit. rewrite Hd, Hb.
    unfold bind, finally.
    rewrite read_chunks_exceeds by lia.
    cbn [emit snd]. rewrite after_after, <- app_assoc. reflexivity.
Qed.

(** ** The resolver *)
Section ResolverProofs.

Variable URL_parse : jstring -> option URL.

Lemma assertAllowedRemoteUrl_private (u : URL) :
  toLowerCase (protocol u) = lit "http:" \/ toLowerCase (protocol u) = lit "https:" ->
  isPrivateIp (hostname u) = true ->
  assertAllowedRemoteUrl u false = Err BlockedBySsrfPolicy.
Proof.
  intros Hp Hh. unfold assertAllowedRemoteUrl. cbv zeta.
  rewrite Hh. destruct Hp as [-> | ->]; reflexivity.
Qed.

Lemma assertAllowedRemoteUrl_public (u : URL) (allow : bool) :
  toLowerCase (protocol u) = lit "http:" \/ toLowerCase (protocol u) = lit "https:" ->
  isPrivateIp (hostname u) = false ->
  assertAllowedRemoteUrl u allow = Ok tt.
Proof.
  intros Hp Hh. unfold assertAllowedRemoteUrl. cbv zeta.
  rewrite Hh, andb_false_r. destruct Hp as [-> | ->]; reflexivity.
Qed.

Lemma resolveImage_remote (url : jstring) (u : URL) (options : ResolveImageOptions)
    (w : World) :
  remote_http_url URL_parse url u ->
  resolveImage URL_parse url options w =
    match assertAllowedRemoteUrl u (default false (allowPrivateNetwork options)) with
    | Err e => (Err e, after w [EvResolveImage url])
    | Ok _ => fetchImage url u (default 10000 (timeoutMs options))
                (default (10 * 1024 * 1024) (maxBytes options))
                (after w [EvResolveImage url])
    end.
Proof.
  intros (Hblank & Hdata & Hparse & _).
  unfold resolveImage. rewrite bind_emit. cbv zeta.
  rewrite Hblank, Hdata, Hparse.
  destruct (assertAllowedRemoteUrl _ _); reflexivity.
Qed.

Lemma resolveImage_blocked (url : jstring) (u : URL) (options : ResolveImageOptions)
    (w : World) :
  remote_http_url URL_parse url u ->
  isPrivateIp (hostname u) = true ->
  default false (allowPrivateNetwork options) = false ->
  resolveImage URL_parse url options w
  = (Err BlockedBySsrfPolicy, after w [EvResolveImage url]).
Proof.
  intros Hremote Hpriv Hallow.
  rewrite (resolveImage_remote url u) by exact Hremote.
  rewrite Hallow, assertAllowedRemoteUrl_private; [reflexivity | apply Hremote | exact Hpriv].
Qed.

End ResolverProofs.

(** C1. A remote http or https reference whose host the guard classifies
    as private, resolved without the private-network allowance, fails with
    [BlockedBySsrfPolicy]; the world is left as it was but for the record
    of the call, so no fetch was made.  Submitting an image-edit job with
    such a reference fails the same way, before the submission is sent. *)
Theorem private_reference_blocked (URL_parse : jstring -> option URL)
    (url : jstring) (u : URL) (w : World) :
  remote_http_url URL_parse url u ->
  isPrivateIp (hostname u) = true ->
  (forall options : ResolveImageOptions,
      default false (allowPrivateNetwork options) = false ->
      resolveImage URL_parse url options w
      = (Err BlockedBySsrfPolicy, after w [EvResolveImage url]))
  /\ (forall (cfg : Main.Config) (reqBody : Main.NormalizedChatRequest)
             (prompt : jstring) (rest : list jstring),
         includes (toLowerCase (Main.chooseModel cfg reqBody)) (lit "image-edit") = true ->
         Main.getEnvBool cfg (lit "ALLOW_PRIVATE_IMAGE_FETCH") false = false ->
         Main.handleModelScope URL_parse cfg reqBody prompt (url :: rest) w
         = (Err BlockedBySsrfPolicy, after w [EvResolveImage url])).
Proof.
  intros Hremote Hpriv. split.
  - intros options Hallow. apply (resolveImage_blocked URL_parse url u); assumption.
  - intros cfg reqBody prompt rest Hedit Hallow.
    unfold Main.handleModelScope, Main.submit. cbv zeta.
    rewrite Hedit, Hallow.
    unfold bind at 1. unfold bind at 1.
    rewrite (resolveImage_blocked URL_parse url u) by (try assumption; reflexivity).
    reflexivity.
Qed.

(** ** The trace only grows *)
Section Grows.

Lemma grows_ret {A : Type} (a : A) : grows (ret a).
Proof. intros w. exists []. cbn. rewrite app_nil_r. reflexivity. Qed.

Lemma grows_throw {A : Type} (e : Error) : grows (@throw A e).
Proof. intros w. exists []. cbn. rewrite app_nil_r. reflexivity. Qed.

Lemma grows_emit (ev : Event) : grows (emit ev).
Proof. intros w. exists [ev]. reflexivity. Qed.

Lemma grows_bind {A B : Type} (c : M A) (k : A -> M B) :
  grows c -> (forall a, grows (k a)) -> grows (x <- c ;; k x).
Proof.
  intros Hc Hk w. unfold bind.
  destruct (Hc w) as [ev1 H1].
  destruct (c w) as [[a | e] w1]; cbn [snd] in *.
  - destruct (Hk a w1) as [ev2 H2]. exists (ev1 ++ ev2).
    rewrite H2, H1, app_assoc. reflexivity.
  - exists ev1. exact H1.
Qed.

Lemma grows_finally {A : Type} (c : M A) (f : M unit) :
  grows c -> grows f -> grows (finally c f).
Proof.
  intros Hc Hf w. unfold finally.
  destruct (Hc w) as [ev1 H1].
  destruct (c w) as [r w1]; cbn [snd] in *.
  destruct (Hf w1) as [ev2 H2]. exists (ev1 ++ ev2).
  rewrite H2, H1, app_assoc. reflexivity.
Qed.

Lemma transport_trace (ev : Event) (w : World) :
  trace (snd (transport ev w)) = trace w ++ [ev].
Proof.
  unfold transport. rewrite bind_emit.
  cbn [net after]. destruct (net w) as [| [resp | e] rest]; reflexivity.
Qed.

Lemma grows_transport (ev : Event) : grows (transport ev).
Proof. intros w. exists [ev]. apply transport_trace. Qed.

Lemma grows_read_chunks (stream : list ReadStep) :
  forall maxBytes total chunks, grows (read_chunks stream maxBytes total chunks).
Proof.
  induction stream as [| step stream IH]; intros maxBytes total chunks;
    cbn [read_chunks]; apply grows_bind; try apply grows_emit; intros _.
  - apply grows_ret.
  - destruct step as [[value |] | e].
    + destruct (_ >? _).
      * apply grows_bind; [apply grows_emit | intros _; apply grows_throw].
      * apply IH.
    + apply IH.
    + apply grows_throw.
Qed.

Lemma grows_readResponseBytesWithLimit (resp : Response) (maxBytes : Z) :
  grows (readResponseBytesWithLimit resp maxBytes).
Proof.
  unfold readResponseBytesWithLimit.
  destruct (declaredTooLarge resp maxBytes); [apply grows_throw |].
  destruct (body resp) as [stream |]; [| apply grows_ret].
  apply grows_bind.
  - apply grows_finally; [apply grows_read_chunks | apply grows_emit].
  - intros [total chunks]. apply grows_ret.
Qed.

(** The remote path performs the fetch, whatever comes of it. *)
Lemma fetchImage_fetches (url : jstring) (u : URL) (timeoutMs maxBytes : Z) (w : World) :
  exists events : list Event,
    trace (snd (fetchImage url u timeoutMs maxBytes w))
    = trace w ++ EvFetchImage (href u) timeoutMs :: events.
Proof.
  unfold fetchImage, bind.
  pose proof (transport_trace (EvFetchImage (href u) timeoutMs) w) as Ht.
  destruct (transport _ w) as [[resp | e] w1]; cbn [snd] in *.
  2: { exists []. exact Ht. }
  set (k := if negb (ok resp) then _ else _).
  assert (Hk : grows k).
  { subst k. destruct (negb (ok resp)).
    - apply grows_bind; [apply grows_emit | intros _; apply grows_throw].
    - destruct (normalizeMime _) as [ct |]; [| apply grows_throw].
      destruct (negb _); [apply grows_throw |].
      apply grows_bind; [apply grows_readResponseBytesWithLimit |].
      intros bytes. apply grows_ret. }
  destruct (Hk w1) as [events Hev]. exists events.
  rewrite Hev, Ht, <- app_assoc. reflexivity.
Qed.

(** Every call of [resolveImage] is recorded in the trace. *)
Lemma resolveImage_recorded (URL_parse : jstring -> option URL) (url : jstring)
    (options : ResolveImageOptions) (w : World) :
  exists events : list Event,
    trace (snd (resolveImage URL_parse url options w))
    = trace w ++ EvResolveImage url :: events.
Proof.
  unfold resolveImage. rewrite bind_emit. cbv zeta.
  set (k := if jstring_eqb (trim url) [] then _ else _).
  assert (Hk : grows k).
  { subst k. destruct (jstring_eqb (trim url) []); [apply grows_throw |].
    destruct (isDataUrl url).
    - destruct (parseDataUrlToBytes url) as [[mime bytes] | e]; [| apply grows_throw].
      destruct (_ >? _); [apply grows_throw | apply grows_ret].
    - destruct (URL_parse url) as [parsed |]; [| apply grows_throw].
      destruct (assertAllowedRemoteUrl _ _); [| apply grows_throw].
      intros w1. destruct (fetchImage_fetches url parsed
        (default 10000 (timeoutMs options))
        (default (10 * 1024 * 1024) (maxBytes options)) w1) as [events Hev].
      eexists. exact Hev. }
  destruct (Hk (after w [EvResolveImage url])) as [events Hev].
  exists events. rewrite Hev. cbn [after trace]. rewrite <- app_assoc. reflexivity.
Qed.

End Grows.

(** C8. The guard classifies the IPv4-mapped loopback literal
    [::ffff:127.0.0.1] as public, and a reference parsed to that host is
    fetched even without the private-network allowance. *)
Theorem mapped_loopback_not_blocked :
  isPrivateIp (lit "::ffff:127.0.0.1") = false
  /\ parseIpv4 (lit "::ffff:127.0.0.1") = None
  /\ existsb (fun p => jstring_eqb (lit "::ffff:127.0.0.1") p
                       || startsWith (lit "::ffff:127.0.0.1") p)
             [lit "::1"; lit "fc"; lit "fd"; lit "fe80"] = false
  /\ forall (URL_parse : jstring -> option URL) (url : jstring) (u : URL)
            (options : ResolveImageOptions) (w : World),
      remote_http_url URL_parse url u ->
      hostname u = lit "::ffff:127.0.0.1" ->
      allowPrivateNetwork options = Some false \/ allowPrivateNetwork options = None ->
      exists events : list Event,
        trace (snd (resolveImage URL_parse url options w))
        = trace w ++ EvResolveImage url
                     :: EvFetchImage (href u) (default 10000 (timeoutMs options))
                     :: events.
Proof.
  assert (Hpub : isPrivateIp (lit "::ffff:127.0.0.1") = false) by (vm_compute; reflexivity).
  split; [exact Hpub |].
  split; [vm_compute; reflexivity |]. split; [vm_compute; reflexivity |].
  intros URL_parse url u options w Hremote Hhost Hallow.
  rewrite (resolveImage_remote URL_parse url u) by exact Hremote.
  rewrite assertAllowedRemoteUrl_public; [| apply Hremote | rewrite Hhost; exact Hpub].
  destruct (fetchImage_fetches url u (default 10000 (timeoutMs options))
              (default (10 * 1024 * 1024) (maxBytes options))
              (after w [EvResolveImage url])) as [events Hev].
  exists events. rewrite Hev. cbn [after trace]. rewrite <- app_assoc. reflexivity.
Qed.

(** The same holds of the bracketed forms a URL parser gives to the host. *)
Lemma bracketed_hosts_public :
  isPrivateIp (lit "[::ffff:127.0.0.1]") = false
  /\ isPrivateIp (lit "[::ffff:7f00:1]") = false.
Proof. split; vm_compute; reflexivity. Qed.

(** ** The resolved image *)
Section ResolvedInvariant.

Lemma parseDataUrlToBytes_image (dataUrl mime : jstring) (bytes : list byte) :
  parseDataUrlToBytes dataUrl = Ok (mime, bytes) -> startsWith mime (lit "image/") = true.
Proof.
  unfold parseDataUrlToBytes.
  destruct (indexOf dataUrl 44) as [comma |]; [| discriminate].
  cbv zeta.
  destruct (negb (existsb _ _)); [discriminate |].
  destruct (negb (startsWith _ _)) eqn:Hs; [discriminate |].
  destruct (decodeBase64 _); [| discriminate].
  intros H. injection H as <- _.
  apply negb_false_iff. exact Hs.
Qed.

End ResolvedInvariant.

(** C7. A resolved image returned by [resolveImage], on the inline path
    or on the remote path, has [size] equal to the length of [bytes], a
    [mime] that begins with ["image/"], [base64] equal to the encoding of
    [bytes] and [dataUrl] equal to ["data:" + mime + ";base64," + base64];
    the codec decodes [base64], and the payload of [dataUrl], back to
    [bytes]. *)
Theorem resolveImage_invariant (URL_parse : jstring -> option URL) (url : jstring)
    (options : ResolveImageOptions) (w w' : World) (r : ResolvedImage) :
  resolveImage URL_parse url options w = (Ok r, w') ->
  size r = Z.of_nat (length (bytes r))
  /\ startsWith (mime r) (lit "image/") = true
  /\ base64 r = encodeBase64 (bytes r)
  /\ dataUrl r = lit "data:" ++ mime r ++ lit ";base64," ++ base64 r
  /\ decodeBase64 (base64 r) = Ok (bytes r)
  /\ decodeBase64 (drop (length (lit "data:" ++ mime r ++ lit ";base64,")) (dataUrl r))
     = Ok (bytes r).
Proof.
  intros H.
  enough (Hinv : size r = Z.of_nat (length (bytes r))
                 /\ startsWith (mime r) (lit "image/") = true
                 /\ base64 r = encodeBase64 (bytes r)
                 /\ dataUrl r = lit "data:" ++ mime r ++ lit ";base64," ++ base64 r).
  { destruct Hinv as (Hs & Hm & Hb & Hd).
    assert (Hrt : decodeBase64 (base64 r) = Ok (bytes r)).
    { rewrite Hb. unfold encodeBase64.
      destruct (bytes r) as [| b0 bs]; [reflexivity |].
      cbn [length Nat.eqb]. apply decodeBase64_encode_from. discriminate. }
    repeat split; try assumption.
    rewrite Hd.
    replace (lit "data:" ++ mime r ++ lit ";base64," ++ base64 r)
      with ((lit "data:" ++ mime r ++ lit ";base64,") ++ base64 r)
      by (rewrite <- !app_assoc; reflexivity).
    rewrite drop_app_length. exact Hrt. }
  unfold resolveImage in H. rewrite bind_emit in H. cbv zeta in H.
  destruct (jstring_eqb (trim url) []); [discriminate H |].
  destruct (isDataUrl url).
  - destruct (parseDataUrlToBytes url) as [[mime bytes] | e] eqn:Hp; [| discriminate H].
    destruct (_ >? _); [discriminate H |].
    injection H as <- _. cbn.
    repeat split. exact (parseDataUrlToBytes_image _ _ _ Hp).
  - destruct (URL_parse url) as [parsed |]; [| discriminate H].
    destruct (assertAllowedRemoteUrl _ _); [| discriminate H].
    unfold fetchImage, bind in H.
    destruct (transport _ _) as [[resp | e] w1]; [| discriminate H].
    destruct (negb (ok resp)); [discriminate H |].
    destruct (normalizeMime _) as [ct |]; [| discriminate H].
    destruct (negb (startsWith ct _)) eqn:Hs; [discriminate H |].
    destruct (readResponseBytesWithLimit _ _ _) as [[bytes | e] w2]; [| discriminate H].
    injection H as <- _. cbn.
    repeat split. apply negb_false_iff. exact Hs.
Qed.

(** ** The fetch inside the resolver *)
Section ResolverFetch.

Variable URL_parse : jstring -> option URL.

Lemma transport_next (ev : Event) (w : World) (resp : Response) (rest : list NetOutcome) :
  net w = Responds resp :: rest ->
  transport ev w = (Ok resp, {| net := rest; trace := trace w ++ [ev] |}).
Proof.
  intros Hnet. unfold transport. rewrite bind_emit. cbn [net after trace].
  rewrite Hnet. reflexivity.
Qed.

(** On a 2xx response with an image media type the declared length is
    checked before any read: the resolver fails with [TooLarge] right
    after the fetch. *)
Lemma resolveImage_declared_too_large (url : jstring) (u : URL)
    (options : ResolveImageOptions) (w : World) (resp : Response)
    (rest : list NetOutcome) (ct : jstring) :
  remote_http_url URL_parse url u ->
  isPrivateIp (hostname u) = false ->
  net w = Responds resp :: rest ->
  ok resp = true ->
  normalizeMime (content_type resp) = Some ct ->
  startsWith ct (lit "image/") = true ->
  declaredTooLarge resp (default (10 * 1024 * 1024) (maxBytes options)) = true ->
  resolveImage URL_parse url options w
  = (Err TooLarge,
     {| net := rest;
        trace := trace w ++ [EvResolveImage url;
                             EvFetchImage (href u) (default 10000 (timeoutMs options))] |}).
Proof.
  intros Hremote Hpub Hnet Hok Hct Himg Hdecl.
  rewrite (resolveImage_remote URL_parse url u) by exact Hremote.
  rewrite assertAllowedRemoteUrl_public; [| apply Hremote | exact Hpub].
  unfold fetchImage, bind.
  rewrite (transport_next _ _ resp rest) by exact Hnet.
  rewrite Hok, Hct, Himg. cbn [negb].
  unfold readResponseBytesWithLimit. rewrite Hdecl.
  cbn [throw after trace]. rewrite <- app_assoc. reflexivity.
Qed.

(** On a response outside 2xx the text of the body is read and the
    failure is [UpstreamError], whatever length the response declares. *)
Lemma resolveImage_not_ok (url : jstring) (u : URL)
    (options : ResolveImageOptions) (w : World) (resp : Response)
    (rest : list NetOutcome) :
  remote_http_url URL_parse url u ->
  isPrivateIp (hostname u) = false ->
  net w = Responds resp :: rest ->
  ok resp = false ->
  resolveImage URL_parse url options w
  = (Err (UpstreamError (status resp) (default [] (text resp))),
     {| net := rest;
        trace := trace w ++ [EvResolveImage url;
                             EvFetchImage (href u) (default 10000 (timeoutMs options));
                             EvReadText] |}).
Proof.
  intros Hremote Hpub Hnet Hok.
  rewrite (resolveImage_remote URL_parse url u) by exact Hremote.
  rewrite assertAllowedRemoteUrl_public; [| apply Hremote | exact Hpub].
  unfold fetchImage, bind.
  rewrite (transport_next _ _ resp rest) by exact Hnet.
  rewrite Hok. cbn [negb]. unfold emit, throw, after. cbn [trace net].
  rewrite <- !app_assoc. reflexivity.
Qed.

End ResolverFetch.

(** ** The guard on the addresses of the specification *)
Example guard_private :
  forallb isPrivateIp
    [lit "127.0.0.1"; lit "10.1.2.3"; lit "192.168.0.1"; lit "172.20.0.5";
     lit "169.254.1.1"; lit "localhost"; lit "::1"; lit "api.LOCALHOST";
     lit "0.0.0.0"; lit "192.168.1.5"; lit "fd12::1"; lit "fe80::1%eth0"]
  = true.
Proof. vm_compute. reflexivity. Qed.

Example guard_public :
  existsb isPrivateIp
    [lit "8.8.8.8"; lit "example.com"; lit "172.32.0.1"; lit "10.0.0.256";
     lit "2001:db8::1"]
  = false.
Proof. vm_compute. reflexivity. Qed.

(** ** The properties on the data of the examples *)
Section ResolverExamples.
Import Examples.

Lemma readResponseBytesWithLimit_ceiling_witness :
  readResponseBytesWithLimit declares_50MB (10 * 1024 * 1024) world_ready
  = (Err TooLarge, world_ready)
  /\ readResponseBytesWithLimit streams_12_bytes 6 world_ready
     = (Err TooLarge,
        after world_ready [EvBodyRead; EvBodyRead; EvBodyRead; EvBodyCancel; EvReleaseLock]).
Proof.
  split.
  - apply (proj1 (readResponseBytesWithLimit_ceiling declares_50MB (10 * 1024 * 1024)
                    world_ready) (lit "52428800") 52428800).
    + reflexivity.
    + reflexivity.
    + vm_compute. reflexivity.
    + lia.
  - apply (proj2 (readResponseBytesWithLimit_ceiling streams_12_bytes 6 world_ready)
             [Some [x01; x02; x03; x04]; None] [x05; x06; x07; x08]
             [Chunk (Some [x09; x0a; x0b; x0c])]).
    + reflexivity.
    + reflexivity.
    + vm_compute. discriminate.
    + vm_compute. reflexivity.
Defined.

Lemma private_reference_remote :
  remote_http_url example_URL_parse private_reference private_reference_URL.
Proof.
  unfold remote_http_url. split; [vm_compute; reflexivity |].
  split; [vm_compute; reflexivity |]. split; [vm_compute; reflexivity |].
  left. vm_compute. reflexivity.
Defined.

Lemma private_reference_blocked_witness :
  resolveImage example_URL_parse private_reference default_options world_ready
  = (Err BlockedBySsrfPolicy, after world_ready [EvResolveImage private_reference])
  /\ Main.handleModelScope example_URL_parse example_cfg edit_request (lit "make it blue")
       [private_reference] world_ready
     = (Err BlockedBySsrfPolicy, after world_ready [EvResolveImage private_reference]).
Proof.
  destruct (private_reference_blocked example_URL_parse private_reference
              private_reference_URL world_ready) as [Hresolve Hsubmit].
  - exact private_reference_remote.
  - vm_compute. reflexivity.
  - split.
    + apply Hresolve. reflexivity.
    + apply Hsubmit; vm_compute; reflexivity.
Defined.

Lemma mapped_loopback_not_blocked_witness :
  exists events : list Event,
    trace (snd (resolveImage mapped_loopback_parse (lit "http://[::ffff:127.0.0.1]/a.png")
                  default_options world_ready))
    = trace world_ready
      ++ EvResolveImage (lit "http://[::ffff:127.0.0.1]/a.png")
         :: EvFetchImage (lit "http://[::ffff:127.0.0.1]/a.png") 10000 :: events.
Proof.
  apply (proj2 (proj2 (proj2 mapped_loopback_not_blocked)) mapped_loopback_parse
           (lit "http://[::ffff:127.0.0.1]/a.png") mapped_loopback_URL
           default_options world_ready).
  - unfold remote_http_url. split; [vm_compute; reflexivity |].
    split; [vm_compute; reflexivity |]. split; [reflexivity |].
    left. vm_compute. reflexivity.
  - reflexivity.
  - right. reflexivity.
Defined.

Lemma resolveImage_invariant_witness :
  size png_resolved = Z.of_nat (length (bytes png_resolved))
  /\ startsWith (mime png_resolved) (lit "image/") = true
  /\ base64 png_resolved = encodeBase64 (bytes png_resolved)
  /\ dataUrl png_resolved
     = lit "data:" ++ mime png_resolved ++ lit ";base64," ++ base64 png_resolved
  /\ decodeBase64 (base64 png_resolved) = Ok (bytes png_resolved)
  /\ decodeBase64 (drop (length (lit "data:" ++ mime png_resolved ++ lit ";base64,"))
                     (dataUrl png_resolved))
     = Ok (bytes png_resolved).
Proof.
  apply (resolveImage_invariant example_URL_parse png_data_url default_options
           world_idle (after world_idle [EvResolveImage png_data_url]) png_resolved).
  vm_compute. reflexivity.
Defined.

End ResolverExamples.

(** ** Preparation of the references *)
Import ImageInput.

(** C9, as the code has it.  In the pass-through mode
    [prepareImagesForUpstream] returns the entries that are strings and
    are not blank (not empty once trimmed), in their order, and leaves the
    world as it was: [resolveImage] is not entered, so neither the guard
    nor the ceiling nor the time budget is applied. *)
Theorem prepareImagesForUpstream_passthrough (URL_parse : jstring -> option URL)
    (imageUrls : list JSON) (options : PrepareImagesOptions) (w : World) :
  mode options = passthrough ->
  prepareImagesForUpstream URL_parse imageUrls options w
  = (Ok (omap nonblank_string imageUrls), w).
Proof.
  intros Hmode. unfold prepareImagesForUpstream. rewrite Hmode.
  destruct imageUrls; reflexivity.
Qed.

Lemma prepareImagesForUpstream_passthrough_witness :
  prepareImagesForUpstream Examples.example_URL_parse
    [JStr Examples.private_reference; JStr (lit "  "); JNum 7; JStr (lit "x")]
    {| mode := passthrough; base64Format := None;
       resolveOptions := Examples.default_options |}
    Examples.world_ready
  = (Ok [Examples.private_reference; lit "x"], Examples.world_ready).
Proof.
  apply (prepareImagesForUpstream_passthrough Examples.example_URL_parse
           [JStr Examples.private_reference; JStr (lit "  "); JNum 7; JStr (lit "x")]).
  reflexivity.
Defined.

(** C9 as stated fails: a string of white space is a non-empty string, and
    the pass-through mode drops it. *)
Lemma passthrough_drops_blank_string :
  nonempty_string_entries [JStr (lit " ")] = [lit " "]
  /\ fst (prepareImagesForUpstream Examples.example_URL_parse [JStr (lit " ")]
            {| mode := passthrough; base64Format := None;
               resolveOptions := Examples.default_options |}
            Examples.world_idle)
     = Ok [].
Proof. split; vm_compute; reflexivity. Qed.

(** ** Extraction of the results *)
Import Main.

Section Extraction.

Lemma filter_app_list {A : Type} (f : A -> bool) (l1 l2 : list A) :
  List.filter f (l1 ++ l2) = List.filter f l1 ++ List.filter f l2.
Proof.
  induction l1 as [| x l1 IH]; cbn; [reflexivity |].
  destruct (f x); cbn; rewrite IH; reflexivity.
Qed.

Lemma imageReference_filter (it : JSON) (r : ImageData) :
  imageReference it = Some r -> List.filter has_reference (pushAny (Some it)) = [r].
Proof.
  unfold imageReference.
  destruct (List.filter has_reference (pushAny (Some it))) as [| x [| y l]];
    congruence.
Qed.

Lemma tryArray_references (items : list JSON) (refs : list ImageData) :
  Forall2 (fun it r => imageReference it = Some r) items refs ->
  List.filter has_reference (tryArray (Some (JArr items))) = refs.
Proof.
  cbn [tryArray].
  induction 1 as [| it r items refs Hit _ IH]; [reflexivity |].
  cbn [flat_map]. rewrite filter_app_list, IH, (imageReference_filter it r Hit).
  reflexivity.
Qed.

Lemma twice_among {A : Type} (a b c d : list A) :
  exists between rest : list A, a ++ b ++ c ++ a ++ d = a ++ between ++ a ++ rest.
Proof. exists (b ++ c), d. rewrite <- app_assoc. reflexivity. Qed.

End Extraction.

(** C10. The top-level [output_images] array is probed twice: when it
    holds n valid image references, the extraction gives them once, then
    what the two probes under [output] give, then the n references again,
    then what the remaining probes give; with no other probed field in the
    payload the output is the n references twice over, 2n entries. *)
Theorem extractImages_output_images_twice (fields : list (jstring * JSON))
    (items : list JSON) (refs : list ImageData) :
  field fields (lit "output_images") = Some (JArr items) ->
  Forall2 (fun it r => imageReference it = Some r) items refs ->
  (exists between rest : list ImageData,
      extractImages (JObj fields) = refs ++ between ++ refs ++ rest)
  /\ (field fields (lit "output") = None ->
      field fields (lit "images") = None ->
      field fields (lit "data") = None ->
      field fields (lit "output_image") = None ->
      extractImages (JObj fields) = refs ++ refs
      /\ length (extractImages (JObj fields)) = (2 * length items)%nat).
Proof.
  intros Hfield Hrefs.
  pose proof (tryArray_references items refs Hrefs) as Hprobe.
  split.
  - unfold extractImages. cbv zeta. cbn [opt_get].
    set (k_output := lit "output") in *. set (k_images := lit "images") in *.
    set (k_data := lit "data") in *. set (k_output_image := lit "output_image") in *.
    set (k_image := lit "image") in *. set (k_output_images := lit "output_images") in *.
    rewrite Hfield.
    rewrite !filter_app_list, Hprobe.
    apply twice_among.
  - intros Ho Hi Hd Hoi.
    assert (Heq : extractImages (JObj fields) = refs ++ refs).
    { unfold extractImages. cbv zeta. cbn [opt_get].
      set (k_output := lit "output") in *. set (k_images := lit "images") in *.
      set (k_data := lit "data") in *. set (k_output_image := lit "output_image") in *.
      set (k_image := lit "image") in *. set (k_output_images := lit "output_images") in *.
      rewrite Hfield, Ho, Hi, Hd, Hoi.
      rewrite !filter_app_list, Hprobe.
      cbn [opt_get tryArray pushAny falsy List.filter app]. rewrite !app_nil_r.
      reflexivity. }
    split; [exact Heq |].
    rewrite Heq, length_app. rewrite <- (Forall2_length _ _ _ Hrefs). lia.
Qed.

Lemma extractImages_output_images_twice_witness :
  extractImages
    (JObj [(lit "output_images",
            JArr [JStr (lit "https://cdn.example/1.png");
                  JObj [(lit "b64_json", JStr (lit "iVBORw0KGgo="))]])])
  = [ {| url := Some (lit "https://cdn.example/1.png"); b64_json := None |};
      {| url := None; b64_json := Some (lit "iVBORw0KGgo=") |};
      {| url := Some (lit "https://cdn.example/1.png"); b64_json := None |};
      {| url := None; b64_json := Some (lit "iVBORw0KGgo=") |} ].
Proof.
  refine (proj1 (proj2 (extractImages_output_images_twice _
            [JStr (lit "https://cdn.example/1.png");
             JObj [(lit "b64_json", JStr (lit "iVBORw0KGgo="))]]
            [ {| url := Some (lit "https://cdn.example/1.png"); b64_json := None |};
              {| url := None; b64_json := Some (lit "iVBORw0KGgo=") |} ] _ _)
          _ _ _ _)).
  - reflexivity.
  - repeat constructor.
  - reflexivity.
  - reflexivity.
  - reflexivity.
  - reflexivity.
Defined.

(** ** The polling loop *)
Section Polling.

Variable URL_parse : jstring -> option URL.
Variable cfg : Config.

(** A pass whose query is answered at once with a status. *)
Lemma poll_once_reports (taskId : JSON) (w : World) (p : Response) (data : JSON)
    (s : jstring) (rest : list NetOutcome) :
  net w = Responds p :: rest ->
  reports p data s ->
  poll_once cfg taskId w =
    (if jstring_eqb s (lit "SUCCEED") then Ok (Some (render (extractImages data)))
     else if jstring_eqb s (lit "FAILED") then Err UpstreamTaskFailed
          else Ok None,
     {| net := rest; trace := trace w ++ pass_events cfg taskId |}).
Proof.
  intros Hnet (Hok & Hjson & Hstatus).
  unfold poll_once. rewrite bind_emit. cbv zeta.
  unfold checkTask at 1. unfold bind at 1.
  rewrite (transport_next _ _ p rest) by exact Hnet.
  rewrite Hok. cbn [negb andb]. rewrite bind_ret. rewrite Hok. cbn [negb].
  rewrite bind_emit, Hjson, Hstatus.
  unfold pass_events, after. cbn [net trace].
  rewrite <- !app_assoc. cbn [app].
  destruct (jstring_eqb s (lit "SUCCEED")); [reflexivity |].
  destruct (jstring_eqb s (lit "FAILED")); reflexivity.
Qed.

Lemma poll_pending (n : nat) :
  forall (taskId : JSON) (ps : list Response) (rest : list NetOutcome) (w : World),
    length ps = n ->
    Forall (fun p => exists data, reports p data (lit "PENDING")) ps ->
    net w = List.map Responds ps ++ rest ->
    poll cfg n taskId w
    = (Err PollTimeout,
       {| net := rest;
          trace := trace w ++ concat (replicate n (pass_events cfg taskId)) |}).
Proof.
  induction n as [| n IH]; intros taskId ps rest w Hlen Hall Hnet.
  - destruct ps; [| discriminate Hlen]. cbn in Hnet.
    cbn. rewrite app_nil_r, <- Hnet. destruct w; reflexivity.
  - destruct ps as [| p ps]; [discriminate Hlen |].
    apply Forall_cons_1 in Hall as [[data Hp] Hall].
    cbn [poll]. unfold bind at 1.
    rewrite (poll_once_reports taskId w p data (lit "PENDING") (List.map Responds ps ++ rest))
      by assumption.
    change (jstring_eqb (lit "PENDING") (lit "SUCCEED")) with false.
    change (jstring_eqb (lit "PENDING") (lit "FAILED")) with false.
    cbv iota.
    rewrite (IH taskId ps rest) by (cbn in *; first [lia | assumption | reflexivity]).
    cbn [trace replicate concat]. rewrite <- app_assoc. reflexivity.
Qed.

(** The handler once the submission has returned a job handle. *)
Lemma afterSubmit_handle (resp : Response) (data taskId : JSON) (w : World) :
  ok resp = true ->
  json resp = Some data ->
  get data (lit "task_id") = Ok (Some taskId) ->
  falsy (Some taskId) = false ->
  afterSubmit cfg resp w = poll cfg maxAttempts taskId (after w [EvReadJson]).
Proof.
  intros Hok Hjson Hid Htruthy.
  unfold afterSubmit. rewrite Hok. cbn [negb].
  rewrite bind_emit, Hjson, Hid, Htruthy. reflexivity.
Qed.

End Polling.

(** C3. After a submission that returned a job handle, the handler waits
    5000 ms before every status query and makes at most 60 of them:
    the answers PENDING, PENDING, SUCCEED give the rendered images after
    exactly three queries; 60 answers PENDING give [PollTimeout] after
    exactly 60 queries; FAILED as the first answer gives
    [UpstreamTaskFailed] after that one query. *)
Theorem handleModelScope_polling (URL_parse : jstring -> option URL) (cfg : Config)
    (reqBody : NormalizedChatRequest) (prompt : jstring) (images : list jstring)
    (w0 w : World) (resp : Response) (data taskId : JSON) :
  submit URL_parse cfg reqBody prompt images w0 = (Ok resp, w) ->
  ok resp = true ->
  json resp = Some data ->
  get data (lit "task_id") = Ok (Some taskId) ->
  falsy (Some taskId) = false ->
  maxAttempts = 60%nat
  /\ (forall (p1 p2 p3 : Response) (d1 d2 d3 : JSON) (rest : list NetOutcome),
         reports p1 d1 (lit "PENDING") -> reports p2 d2 (lit "PENDING") ->
         reports p3 d3 (lit "SUCCEED") ->
         net w = Responds p1 :: Responds p2 :: Responds p3 :: rest ->
         handleModelScope URL_parse cfg reqBody prompt images w0
         = (Ok (render (extractImages d3)),
            {| net := rest;
               trace := trace w ++ EvReadJson
                          :: concat (replicate 3 (pass_events cfg taskId)) |}))
  /\ (forall (ps : list Response) (rest : list NetOutcome),
         length ps = 60%nat ->
         Forall (fun p => exists d, reports p d (lit "PENDING")) ps ->
         net w = List.map Responds ps ++ rest ->
         handleModelScope URL_parse cfg reqBody prompt images w0
         = (Err PollTimeout,
            {| net := rest;
               trace := trace w ++ EvReadJson
                          :: concat (replicate 60 (pass_events cfg taskId)) |}))
  /\ (forall (p : Response) (d : JSON) (rest : list NetOutcome),
         reports p d (lit "FAILED") ->
         net w = Responds p :: rest ->
         handleModelScope URL_parse cfg reqBody prompt images w0
         = (Err UpstreamTaskFailed,
            {| net := rest;
               trace := trace w ++ EvReadJson :: pass_events cfg taskId |})).
Proof.
  intros Hsubmit Hok Hjson Hid Htruthy.
  assert (Hstart : handleModelScope URL_parse cfg reqBody prompt images w0
                   = poll cfg maxAttempts taskId (after w [EvReadJson])).
  { unfold handleModelScope, bind. rewrite Hsubmit.
    apply (afterSubmit_handle cfg resp data taskId); assumption. }
  split; [reflexivity |]. split; [| split].
  - intros p1 p2 p3 d1 d2 d3 rest H1 H2 H3 Hnet.
    rewrite Hstart. unfold maxAttempts.
    cbn [poll]. unfold bind at 1.
    rewrite (poll_once_reports cfg taskId _ p1 d1 (lit "PENDING")
               (Responds p2 :: Responds p3 :: rest)) by assumption.
    change (jstring_eqb (lit "PENDING") (lit "SUCCEED")) with false.
    change (jstring_eqb (lit "PENDING") (lit "FAILED")) with false.
    cbv iota. unfold bind at 1.
    rewrite (poll_once_reports cfg taskId _ p2 d2 (lit "PENDING") (Responds p3 :: rest))
      by (first [assumption | reflexivity]).
    change (jstring_eqb (lit "PENDING") (lit "SUCCEED")) with false.
    change (jstring_eqb (lit "PENDING") (lit "FAILED")) with false.
    cbv iota. unfold bind at 1.
    rewrite (poll_once_reports cfg taskId _ p3 d3 (lit "SUCCEED") rest)
      by (first [assumption | reflexivity]).
    change (jstring_eqb (lit "SUCCEED") (lit "SUCCEED")) with true.
    cbv iota. cbn [ret trace after replicate concat].
    rewrite <- !app_assoc. reflexivity.
  - intros ps rest Hlen Hall Hnet.
    rewrite Hstart. unfold maxAttempts.
    rewrite (poll_pending cfg 60 taskId ps rest) by assumption.
    cbn [trace after]. rewrite <- app_assoc. reflexivity.
  - intros p d rest Hp Hnet.
    rewrite Hstart. unfold maxAttempts.
    cbn [poll]. unfold bind at 1.
    rewrite (poll_once_reports cfg taskId _ p d (lit "FAILED") rest) by assumption.
    change (jstring_eqb (lit "FAILED") (lit "SUCCEED")) with false.
    change (jstring_eqb (lit "FAILED") (lit "FAILED")) with true.
    cbv iota. cbn [trace after]. rewrite <- app_assoc. reflexivity.
Qed.

Section PollingExamples.
Import Examples.

Lemma json_response_reports (s : string) :
  reports (json_response 200 (task_status s)) (task_status s) (lit s).
Proof. repeat split. Defined.

Lemma handleModelScope_polling_witness :
  run [task_status "PENDING"; task_status "PENDING"; succeeded_payload]
  = (Ok (lit "![Generated Image](https://cdn.example/1.png)" ++ [10; 10]
         ++ lit "![Generated Image](https://cdn.example/1.png)"),
     {| net := [];
        trace := cat_submission :: EvReadJson
                 :: concat (replicate 3 (pass_events example_cfg (JStr (lit "x")))) |})
  /\ run (replicate 60 (task_status "PENDING"))
     = (Err PollTimeout,
        {| net := [];
           trace := cat_submission :: EvReadJson
                    :: concat (replicate 60 (pass_events example_cfg (JStr (lit "x")))) |})
  /\ run [task_status "FAILED"; succeeded_payload]
     = (Err UpstreamTaskFailed,
        {| net := [Responds (json_response 200 succeeded_payload)];
           trace := cat_submission :: EvReadJson
                    :: pass_events example_cfg (JStr (lit "x")) |}).
Proof.
  pose (polling := fun answers : list JSON =>
    handleModelScope_polling example_URL_parse example_cfg generation_request
      (lit "a cat") [] (world_answers answers) (submitted answers)
      (json_response 200 task_x) task_x (JStr (lit "x"))
      eq_refl eq_refl eq_refl eq_refl eq_refl).
  unfold run. split; [| split].
  - rewrite (proj1 (proj2 (polling [task_status "PENDING"; task_status "PENDING";
                                     succeeded_payload]))
               (json_response 200 (task_status "PENDING"))
               (json_response 200 (task_status "PENDING"))
               (json_response 200 succeeded_payload)
               (task_status "PENDING") (task_status "PENDING") succeeded_payload []
               (json_response_reports "PENDING") (json_response_reports "PENDING")
               (conj eq_refl (conj eq_refl eq_refl)) eq_refl).
    vm_compute. reflexivity.
  - assert (Hall : Forall (fun p => exists d, reports p d (lit "PENDING"))
                     (replicate 60 (json_response 200 (task_status "PENDING")))).
    { apply Forall_forall. intros p Hp.
      apply elem_of_replicate in Hp as [-> _].
      exists (task_status "PENDING"). apply json_response_reports. }
    rewrite (proj1 (proj2 (proj2 (polling (replicate 60 (task_status "PENDING")))))
               (replicate 60 (json_response 200 (task_status "PENDING"))) []
               eq_refl Hall eq_refl).
    vm_compute. reflexivity.
  - rewrite (proj2 (proj2 (proj2 (polling [task_status "FAILED"; succeeded_payload])))
               (json_response 200 (task_status "FAILED")) (task_status "FAILED")
               [Responds (json_response 200 succeeded_payload)]
               (json_response_reports "FAILED") eq_refl).
    vm_compute. reflexivity.
Defined.

End PollingExamples.

(** ** More on the codec *)
Import CodecFacts.

Section CodecShape.

Lemma alphabet_at_member (k c : Z) : In c (alphabet_at k) -> In c BASE64_ALPHABET.
Proof.
  unfold alphabet_at. destruct (k <? 0); [intros [] |].
  destruct (BASE64_ALPHABET !! Z.to_nat k) as [d |] eqn:Hd; [| intros []].
  intros [<- | []]. apply list_elem_of_In.
  apply (list_elem_of_lookup_2 _ (Z.to_nat k)). exact Hd.
Qed.

Lemma encode_group3_members (b0 b1 b2 : byte) :
  Forall (fun c => In c BASE64_ALPHABET) (encode_group3 b0 b1 b2).
Proof.
  unfold encode_group3. cbv zeta.
  repeat apply Forall_app_2; apply Forall_forall; intros c Hc;
    apply list_elem_of_In in Hc; eapply alphabet_at_member; exact Hc.
Qed.

Lemma pad_count_step (n : nat) : pad_count (S (S (S n))) = pad_count n.
Proof.
  unfold pad_count. replace (S (S (S n))) with (n + 1 * 3)%nat by lia.
  rewrite Nat.Div0.mod_add. reflexivity.
Qed.

Lemma ceil3_step (n : nat) : ((S (S (S n)) + 2) / 3 = S ((n + 2) / 3))%nat.
Proof.
  replace (S (S (S n)) + 2)%nat with (n + 2 + 1 * 3)%nat by lia.
  rewrite Nat.div_add by lia. lia.
Qed.

Lemma encode_from_layout (B : list byte) :
  exists body : jstring,
    encode_from B = body ++ replicate (pad_count (length B)) 61
    /\ Forall (fun c => In c BASE64_ALPHABET) body
    /\ length (encode_from B) = (4 * ((length B + 2) / 3))%nat.
Proof.
  induction B as [| b0 | b0 b1 | b0 b1 b2 rest IH] using list_ind3.
  - exists []. repeat split. constructor.
  - pose proof (byteval_range b0) as H0.
    cbn [encode_from]. rewrite encode_remain1_eq.
    destruct (alphabet_at_spec (byteval b0 / 4)) as (c0 & E0 & _); [euclid |].
    destruct (alphabet_at_spec (byteval b0 mod 4 * 16)) as (c1 & E1 & _); [euclid |].
    exists [c0; c1]. rewrite E0, E1. repeat split.
    repeat apply Forall_cons_2; [| | apply Forall_nil_2].
    + apply (alphabet_at_member (byteval b0 / 4)). rewrite E0. left. reflexivity.
    + apply (alphabet_at_member (byteval b0 mod 4 * 16)). rewrite E1. left. reflexivity.
  - pose proof (byteval_range b0) as H0. pose proof (byteval_range b1) as H1.
    cbn [encode_from]. rewrite encode_remain2_eq. cbv zeta.
    set (n := byteval b0 * 256 + byteval b1).
    assert (Hn : 0 <= n < 65536) by (subst n; lia).
    destruct (alphabet_at_spec (n / 1024)) as (c0 & E0 & _); [euclid |].
    destruct (alphabet_at_spec (n / 16 mod 64)) as (c1 & E1 & _); [euclid |].
    destruct (alphabet_at_spec (n mod 16 * 4)) as (c2 & E2 & _); [euclid |].
    exists [c0; c1; c2]. rewrite E0, E1, E2. repeat split.
    repeat apply Forall_cons_2; [| | | apply Forall_nil_2].
    + apply (alphabet_at_member (n / 1024)). rewrite E0. left. reflexivity.
    + apply (alphabet_at_member (n / 16 mod 64)). rewrite E1. left. reflexivity.
    + apply (alphabet_at_member (n mod 16 * 4)). rewrite E2. left. reflexivity.
  - destruct IH as (body & Hbody & Hall & Hlen).
    exists (encode_group3 b0 b1 b2 ++ body).
    cbn [encode_from length]. rewrite pad_count_step, ceil3_step.
    split; [rewrite Hbody, app_assoc; reflexivity |].
    split; [apply Forall_app_2; [apply encode_group3_members | exact Hall] |].
    destruct (group3_roundtrip b0 b1 b2) as (c0 & c1 & c2 & c3 & E & _ & _).
    rewrite length_app, Hlen, E. cbn [length]. lia.
Qed.

End CodecShape.

(** X1. The text written for [n] bytes has [4 * ceil(n / 3)] symbols:
    symbols of the 64-symbol alphabet followed by as many padding markers
    as bytes are missing from the last group of three (none, one or
    two). *)
Theorem encodeBase64_layout (B : list byte) :
  exists body : jstring,
    encodeBase64 B = body ++ replicate (pad_count (length B)) 61
    /\ Forall (fun c => In c BASE64_ALPHABET) body
    /\ length (encodeBase64 B) = (4 * ((length B + 2) / 3))%nat
    /\ (pad_count (length B) <= 2)%nat.
Proof.
  assert (Hpad : (pad_count (length B) <= 2)%nat).
  { unfold pad_count.
    pose proof (Nat.mod_upper_bound (3 - length B mod 3) 3 ltac:(lia)). lia. }
  unfold encodeBase64. destruct B as [| b B'].
  - exists []. repeat split; [constructor | exact Hpad].
  - cbn [length Nat.eqb].
    destruct (encode_from_layout (b :: B')) as (body & Hbody & Hall & Hlen).
    exists body. repeat split; assumption.
Qed.

Section CodecTolerance.

Lemma strip_space_idem (t : jstring) : strip_space (strip_space t) = strip_space t.
Proof.
  unfold strip_space. induction t as [| c t IH]; [reflexivity |].
  cbn [List.filter]. destruct (negb (is_js_space c)) eqn:Hc; [| exact IH].
  cbn [List.filter]. rewrite Hc, IH. reflexivity.
Qed.

(** The decoder sees its input through [strip_space] only. *)
Lemma decodeBase64_strip (t : jstring) : decodeBase64 t = decodeBase64 (strip_space t).
Proof. unfold decodeBase64. rewrite strip_space_idem. reflexivity. Qed.

Lemma strip_space_encode_from (B : list byte) :
  strip_space (encode_from B) = encode_from B.
Proof.
  unfold strip_space. apply filter_all.
  eapply Forall_impl; [apply encode_from_no_space |].
  cbn. intros c Hc. rewrite Hc. reflexivity.
Qed.

(** Decoding after encoding, for use in other proofs. *)
Lemma decode_after_encode (B : list byte) : decodeBase64 (encodeBase64 B) = Ok B.
Proof.
  unfold encodeBase64. destruct B as [| b B']; [reflexivity |].
  cbn [length Nat.eqb]. apply decodeBase64_encode_from. discriminate.
Qed.

Lemma decode_group_length c0 c1 c2 c3 o out o' out' :
  decode_group c0 c1 c2 c3 o out = Ok (o', out') -> length out' = length out.
Proof.
  unfold decode_group.
  destruct (_ || _ || _ || _); [discriminate |].
  destruct (negb _), (negb _); intros H; injection H as <- <-;
    rewrite ?length_insert; reflexivity.
Qed.

Lemma decode_from_length (s : jstring) :
  forall o out out', decode_from s o out = Ok out' -> length out' = length out.
Proof.
  induction s as [s IH] using (induction_ltof1 _ (@length Z)). unfold ltof in IH.
  intros o out out' H.
  destruct s as [| c0 [| c1 [| c2 [| c3 rest]]]]; cbn [decode_from] in H.
  - injection H as <-. reflexivity.
  - destruct (decode_group _ _ _ _ o out) as [[o1 out1] | e] eqn:Hg; [| discriminate].
    injection H as <-. eapply decode_group_length. exact Hg.
  - destruct (decode_group _ _ _ _ o out) as [[o1 out1] | e] eqn:Hg; [| discriminate].
    injection H as <-. eapply decode_group_length. exact Hg.
  - destruct (decode_group _ _ _ _ o out) as [[o1 out1] | e] eqn:Hg; [| discriminate].
    injection H as <-. eapply decode_group_length. exact Hg.
  - destruct (decode_group _ _ _ _ o out) as [[o1 out1] | e] eqn:Hg; [| discriminate].
    apply (IH rest) in H; [| cbn; lia].
    rewrite H. eapply decode_group_length. exact Hg.
Qed.

Lemma padding_of_le (s : jstring) : (padding_of s <= 2)%nat.
Proof. unfold padding_of. destruct (endsWith s _); [lia |]. destruct (endsWith s _); lia. Qed.

End CodecTolerance.

(** X2. The decoder tolerates white space anywhere and missing padding:
    a text that, once its white space is removed, is the encoding of [B]
    without its last [k] padding markers is decoded to [B]. *)
Theorem decodeBase64_tolerant (t : jstring) (k : nat) (B : list byte) :
  strip_space t ++ replicate k 61 = encodeBase64 B ->
  (k <= 2)%nat ->
  decodeBase64 t = Ok B.
Proof.
  intros Henc Hk. rewrite decodeBase64_strip.
  pose proof (strip_space_idem t) as Hidem.
  set (s := strip_space t) in *.
  unfold encodeBase64 in Henc. destruct B as [| b B'].
  - cbn in Henc. apply app_eq_nil in Henc as [-> _]. reflexivity.
  - cbn [length Nat.eqb] in Henc. set (B := b :: B') in *.
    assert (Hne : B <> []) by (subst B; discriminate).
    destruct (encode_from_shape B Hne) as (m & Hlen & Hle & Hout).
    assert (Hs : (length s + k = 4 * S m)%nat).
    { rewrite <- Hlen, <- Henc, length_app, length_replicate. reflexivity. }
    destruct k as [| k].
    { cbn [replicate] in Henc. rewrite app_nil_r in Henc. rewrite Henc.
      apply decodeBase64_encode_from. exact Hne. }
    assert (Hsne : strip_space s <> []).
    { rewrite Hidem. intros E. rewrite E in Hs. cbn in Hs. lia. }
    rewrite (decodeBase64_unfold s Hsne). cbv zeta. rewrite Hidem.
    assert (Hmod : (length s mod 4 = 4 - S k)%nat).
    { replace (length s) with (4 - S k + m * 4)%nat by lia.
      rewrite Nat.Div0.mod_add. apply Nat.mod_small. lia. }
    rewrite Hmod.
    replace (4 - S k =? 0)%nat with false by (symmetry; apply Nat.eqb_neq; lia).
    replace (4 - (4 - S k))%nat with (S k) by lia.
    rewrite Henc.
    replace (length (encode_from B) / 4 * 3 - padding_of (encode_from B))%nat
      with (length B).
    2: { rewrite Hlen, (Nat.mul_comm 4), Nat.div_mul by lia. lia. }
    apply (decode_from_encode_from B []).
Qed.

Lemma decodeBase64_tolerant_witness :
  decodeBase64 (lit "TW E") = Ok [x4d; x61].
Proof.
  apply (decodeBase64_tolerant (lit "TW E") 1 [x4d; x61]).
  - reflexivity.
  - lia.
Defined.

(** X3. A decoded payload is never longer than three bytes for every four
    symbols of the text (white space apart, the last group counted in
    full), and at most two bytes shorter. *)
Theorem decodeBase64_size (input : jstring) (out : list byte) :
  decodeBase64 input = Ok out ->
  (3 * ((length (strip_space input) + 3) / 4) - 2 <= length out
   /\ length out <= 3 * ((length (strip_space input) + 3) / 4))%nat.
Proof.
  intros H.
  destruct (strip_space input) as [| c cleaned] eqn:Hc.
  - unfold decodeBase64 in H. rewrite Hc in H. injection H as <-. cbn. lia.
  - rewrite decodeBase64_unfold in H by congruence. cbv zeta in H.
    rewrite Hc in H. apply decode_from_length in H.
    rewrite length_replicate in H. rewrite H.
    assert (Hpos : (1 <= length (c :: cleaned))%nat) by (cbn; lia).
    set (cl := c :: cleaned) in *. clearbody cl.
    set (n := length cl) in *.
    pose proof (padding_of_le (if (n mod 4 =? 0)%nat then cl
                               else cl ++ replicate (4 - n mod 4) 61)) as Hle.
    pose proof (Nat.div_mod_eq n 4) as Hdm.
    pose proof (Nat.mod_upper_bound n 4 ltac:(lia)) as Hub.
    assert (Hlen : length (if (n mod 4 =? 0)%nat then cl
                           else cl ++ replicate (4 - n mod 4) 61)
                   = (4 * ((n + 3) / 4))%nat).
    { destruct (Nat.eqb_spec (n mod 4) 0) as [H0 | H0]; fold n.
      - replace (n + 3)%nat with (3 + (n / 4) * 4)%nat by lia.
        rewrite Nat.div_add by lia. rewrite (Nat.div_small 3 4) by lia. lia.
      - rewrite length_app, length_replicate. fold n.
        replace (n + 3)%nat with ((n mod 4 - 1) + (n / 4 + 1) * 4)%nat by lia.
        rewrite Nat.div_add by lia.
        rewrite (Nat.div_small (n mod 4 - 1) 4) by lia. lia. }
    rewrite Hlen, (Nat.mul_comm 4), Nat.div_mul by lia.
    assert (1 <= (n + 3) / 4)%nat.
    { replace (n + 3)%nat with ((n - 1) + 1 * 4)%nat by lia.
      rewrite Nat.div_add by lia. lia. }
    lia.
Qed.

Lemma decodeBase64_size_witness :
  (3 * ((length (strip_space (lit "TWE=")) + 3) / 4) - 2 <= length [x4d; x61]
   /\ length [x4d; x61] <= 3 * ((length (strip_space (lit "TWE=")) + 3) / 4))%nat.
Proof.
  apply (decodeBase64_size (lit "TWE=") [x4d; x61]).
  vm_compute. reflexivity.
Defined.

(** X4. The only failure of the decoder is [InvalidCharacter]. *)
Theorem decodeBase64_only_error (input : jstring) (e : Error) :
  decodeBase64 input = Err e -> e = InvalidCharacter.
Proof.
  destruct (strip_space input) as [| c cleaned] eqn:Hc.
  - unfold decodeBase64. rewrite Hc. discriminate.
  - rewrite decodeBase64_unfold by congruence. cbv zeta.
    apply decode_from_error.
Qed.

Lemma decodeBase64_only_error_witness :
  decodeBase64 (lit "@@@@") = Err InvalidCharacter /\ InvalidCharacter = InvalidCharacter.
Proof.
  assert (H : decodeBase64 (lit "@@@@") = Err InvalidCharacter)
    by (vm_compute; reflexivity).
  split; [exact H |].
  symmetry. apply (decodeBase64_only_error (lit "@@@@") InvalidCharacter H).
Defined.

(** X5. Two byte sequences with the same encoding are the same. *)
Theorem encodeBase64_injective (B1 B2 : list byte) :
  encodeBase64 B1 = encodeBase64 B2 -> B1 = B2.
Proof.
  intros H.
  pose proof (decode_after_encode B1) as H1.
  rewrite H, decode_after_encode in H1. congruence.
Qed.

Lemma encodeBase64_injective_witness :
  encodeBase64 [x4d; x61] = lit "TWE=" /\ [x4d; x61] = [x4d; x61].
Proof.
  split; [reflexivity |].
  apply encodeBase64_injective. reflexivity.
Defined.

Section CodecUrlSafe.

Lemma std_symbol_cases (c : Z) :
  (c = 45 /\ std_symbol c = 43) \/ (c = 95 /\ std_symbol c = 47)
  \/ (c <> 45 /\ c <> 95 /\ std_symbol c = c).
Proof.
  unfold std_symbol.
  destruct (Z.eqb_spec c 45) as [-> | H45]; [left; split; reflexivity |].
  destruct (Z.eqb_spec c 95) as [-> | H95]; [right; left; split; reflexivity |].
  right. right. repeat split; assumption.
Qed.

Lemma is_js_space_std (c : Z) : is_js_space (std_symbol c) = is_js_space c.
Proof.
  destruct (std_symbol_cases c) as [[-> ->] | [[-> ->] | (_ & _ & ->)]]; reflexivity.
Qed.

Lemma lookup_code_std (c : option Z) :
  lookup_code (option_map std_symbol c) = lookup_code c.
Proof.
  destruct c as [c |]; [| reflexivity]. cbn [option_map].
  destruct (std_symbol_cases c) as [[-> ->] | [[-> ->] | (_ & _ & ->)]];
    vm_compute; reflexivity || reflexivity.
Qed.

Lemma jeq_std (c : option Z) : jeq (option_map std_symbol c) 61 = jeq c 61.
Proof.
  destruct c as [c |]; [| reflexivity]. cbn [option_map].
  destruct (std_symbol_cases c) as [[-> ->] | [[-> ->] | (_ & _ & ->)]]; reflexivity.
Qed.

Lemma decode_group_std c0 c1 c2 c3 o out :
  decode_group (option_map std_symbol c0) (option_map std_symbol c1)
    (option_map std_symbol c2) (option_map std_symbol c3) o out
  = decode_group c0 c1 c2 c3 o out.
Proof.
  unfold decode_group. rewrite !lookup_code_std, !jeq_std. reflexivity.
Qed.

Lemma decode_from_std (s : jstring) :
  forall o out, decode_from (List.map std_symbol s) o out = decode_from s o out.
Proof.
  induction s as [s IH] using (induction_ltof1 _ (@length Z)). unfold ltof in IH.
  intros o out.
  destruct s as [| c0 [| c1 [| c2 [| c3 rest]]]]; cbn [List.map decode_from];
    try reflexivity;
    try (rewrite <- (decode_group_std (Some c0)); reflexivity).
  rewrite <- (decode_group_std (Some c0) (Some c1) (Some c2) (Some c3)).
  cbn [option_map].
  destruct (decode_group _ _ _ _ o out) as [[o' out'] | e]; [| reflexivity].
  apply IH. cbn. lia.
Qed.

Lemma strip_space_std (s : jstring) :
  strip_space (List.map std_symbol s) = List.map std_symbol (strip_space s).
Proof.
  unfold strip_space. induction s as [| c s IH]; [reflexivity |].
  cbn [List.map List.filter]. rewrite is_js_space_std.
  destruct (negb (is_js_space c)); cbn [List.map]; rewrite IH; reflexivity.
Qed.

Lemma std_symbol_pad (c : Z) : std_symbol c = 61 <-> c = 61.
Proof.
  destruct (std_symbol_cases c) as [[-> ->] | [[-> ->] | (_ & _ & ->)]];
    split; intros H; (discriminate H || exact H || reflexivity).
Qed.

Lemma map_std_pad (l : jstring) :
  forall k : nat, List.map std_symbol l = replicate k 61 <-> l = replicate k 61.
Proof.
  induction l as [| c l IH]; intros [| k]; cbn [List.map replicate];
    split; intros H; try discriminate H; try reflexivity.
  - injection H as Hc Hl. apply (proj1 (std_symbol_pad c)) in Hc.
    apply (proj1 (IH k)) in Hl. rewrite Hc, Hl. reflexivity.
  - injection H as Hc Hl. subst c. apply (proj2 (IH k)) in Hl.
    rewrite Hl. reflexivity.
Qed.

Lemma endsWith_std (s : jstring) (k : nat) :
  endsWith (List.map std_symbol s) (replicate k 61) = endsWith s (replicate k 61).
Proof.
  unfold endsWith. rewrite length_map. f_equal.
  rewrite skipn_map. unfold jstring_eqb.
  apply bool_decide_ext. apply map_std_pad.
Qed.

Lemma padding_of_std (s : jstring) :
  padding_of (List.map std_symbol s) = padding_of s.
Proof.
  unfold padding_of.
  change (lit "==") with (replicate 2 61). change (lit "=") with (replicate 1 61).
  rewrite !endsWith_std. reflexivity.
Qed.

End CodecUrlSafe.

(** X6. The base64url symbols are read as their standard counterparts:
    replacing every ['-'] by ['+'] and every ['_'] by ['/'] does not change
    what the decoder returns. *)
Theorem decodeBase64_urlsafe (input : jstring) :
  decodeBase64 (List.map std_symbol input) = decodeBase64 input.
Proof.
  unfold decodeBase64. rewrite strip_space_std, length_map.
  destruct (length (strip_space input) =? 0)%nat; [reflexivity |].
  cbv zeta.
  set (cleaned := strip_space input).
  set (m := (length cleaned mod 4)%nat).
  assert (Hpad : (if (m =? 0)%nat then List.map std_symbol cleaned
                  else List.map std_symbol cleaned ++ replicate (4 - m) 61)
                 = List.map std_symbol
                     (if (m =? 0)%nat then cleaned else cleaned ++ replicate (4 - m) 61)).
  { destruct (m =? 0)%nat; [reflexivity |].
    rewrite List.map_app. f_equal.
    induction (4 - m)%nat as [| k IH]; [reflexivity |].
    cbn [replicate List.map]. rewrite <- IH. reflexivity. }
  rewrite Hpad, length_map, padding_of_std.
  destruct (negb _); [reflexivity |].
  apply decode_from_std.
Qed.

(** ** More on the string operations *)
Import TextFacts.
Section StringFacts.

Lemma indexOf_app_none (s t : jstring) (c : Z) :
  indexOf s c = None ->
  indexOf (s ++ t) c = option_map (fun i => (length s + i)%nat) (indexOf t c).
Proof.
  induction s as [| d s IH]; intros H.
  - cbn. destruct (indexOf t c); reflexivity.
  - cbn [indexOf app] in *. destruct (d =? c); [discriminate H |].
    destruct (indexOf s c) eqn:Hs; [discriminate H |].
    rewrite IH by reflexivity.
    destruct (indexOf t c); reflexivity.
Qed.

Lemma indexOf_none_notin (s : jstring) (c : Z) : indexOf s c = None <-> ~ In c s.
Proof.
  induction s as [| d s IH]; cbn [indexOf In].
  - split; [intros _ [] | reflexivity].
  - destruct (Z.eqb_spec d c) as [-> | Hne].
    + split; [discriminate | intros H; exfalso; apply H; left; reflexivity].
    + destruct (indexOf s c) eqn:Hs; cbn [option_map].
      * split; [discriminate |]. intros H. exfalso.
        assert (Hn : ~ In c s) by (intros Hin; apply H; right; exact Hin).
        apply IH in Hn. discriminate Hn.
      * split; [| reflexivity]. intros _ [Heq | Hin]; [congruence |].
        apply (proj1 IH); [reflexivity | exact Hin].
Qed.

Lemma split_app_sep (p r : jstring) (sep : Z) :
  indexOf p sep = None -> split (p ++ sep :: r) sep = p :: split r sep.
Proof.
  induction p as [| c p IH]; intros H.
  - cbn [app split]. rewrite Z.eqb_refl. reflexivity.
  - cbn [indexOf] in H. cbn [app split].
    destruct (c =? sep); [discriminate H |].
    destruct (indexOf p sep); [discriminate H |].
    rewrite IH by reflexivity. reflexivity.
Qed.

Lemma split_no_sep (p : jstring) (sep : Z) : indexOf p sep = None -> split p sep = [p].
Proof.
  induction p as [| c p IH]; intros H; [reflexivity |].
  cbn [indexOf] in H. cbn [split].
  destruct (c =? sep); [discriminate H |].
  destruct (indexOf p sep); [discriminate H |].
  rewrite IH by reflexivity. reflexivity.
Qed.

Lemma trimStart_snoc (a : jstring) (c : Z) :
  is_js_space c = false -> exists y, trimStart (a ++ [c]) = y ++ [c].
Proof.
  intros Hc. induction a as [| d a [y IH]].
  - exists []. cbn. rewrite Hc. reflexivity.
  - cbn [app trimStart]. destruct (is_js_space d).
    + exists y. exact IH.
    + exists (d :: a). reflexivity.
Qed.

(** A string that begins with a symbol other than white space keeps it
    when trimmed. *)
Lemma trim_cons (c : Z) (s : jstring) :
  is_js_space c = false -> exists x, trim (c :: s) = c :: x.
Proof.
  intros Hc. unfold trim. cbn [trimStart]. rewrite Hc. cbn [rev].
  destruct (trimStart_snoc (rev s) c Hc) as [y Hy].
  exists (rev y). rewrite Hy, rev_app_distr. reflexivity.
Qed.

Lemma startsWith_app (p t : jstring) : startsWith (p ++ t) p = true.
Proof.
  unfold startsWith, jstring_eqb. rewrite take_app_length.
  apply bool_decide_eq_true_2. reflexivity.
Qed.

Lemma startsWith_true (s p : jstring) : startsWith s p = true -> exists t, s = p ++ t.
Proof.
  unfold startsWith, jstring_eqb. intros H. apply bool_decide_eq_true_1 in H.
  exists (drop (length p) s). rewrite <- H at 1. symmetry. apply take_drop.
Qed.

Lemma jstring_eqb_false (s t : jstring) : s <> t -> jstring_eqb s t = false.
Proof. intros H. apply bool_decide_eq_false_2. exact H. Qed.

Lemma jstring_eqb_true (s t : jstring) : jstring_eqb s t = true -> s = t.
Proof. intros H. apply bool_decide_eq_true_1 in H. exact H. Qed.

End StringFacts.

(** ** More on the resolver *)
Section ResolverMore.

Variable URL_parse : jstring -> option URL.

Lemma data_url_not_blank (rest : jstring) :
  jstring_eqb (trim (lit "data:" ++ rest)) [] = false.
Proof.
  destruct (trim_cons 100 (lit "ata:" ++ rest) eq_refl) as [x Hx].
  change (lit "data:" ++ rest) with (100 :: lit "ata:" ++ rest).
  rewrite Hx. apply jstring_eqb_false. discriminate.
Qed.

Lemma data_url_comma (mime payload : jstring) :
  indexOf mime 44 = None ->
  indexOf (lit "data:" ++ mime ++ lit ";base64," ++ payload) 44
  = Some (5 + (length mime + 7))%nat.
Proof.
  intros Hm.
  rewrite (indexOf_app_none (lit "data:")) by reflexivity.
  rewrite (indexOf_app_none mime) by exact Hm.
  reflexivity.
Qed.

Lemma parseDataUrlToBytes_encoded (mime : jstring) (B : list byte) :
  indexOf mime 44 = None ->
  indexOf mime 59 = None ->
  startsWith (toLowerCase (trim mime)) (lit "image/") = true ->
  parseDataUrlToBytes (lit "data:" ++ mime ++ lit ";base64," ++ encodeBase64 B)
  = Ok (toLowerCase (trim mime), B).
Proof.
  intros Hcomma Hsemi Himg.
  unfold parseDataUrlToBytes. rewrite data_url_comma by exact Hcomma.
  cbv zeta.
  assert (Hmeta : slice (lit "data:" ++ mime ++ lit ";base64," ++ encodeBase64 B) 5
                    (5 + (length mime + 7)) = mime ++ 59 :: lit "base64").
  { unfold slice.
    replace (5 + (length mime + 7) - 5)%nat with (length mime + 7)%nat by lia.
    rewrite (drop_app_length' (lit "data:")) by reflexivity.
    rewrite take_app_add. reflexivity. }
  assert (Hdata : drop (5 + (length mime + 7) + 1)
                    (lit "data:" ++ mime ++ lit ";base64," ++ encodeBase64 B)
                  = encodeBase64 B).
  { rewrite !app_assoc. apply drop_app_length'.
    rewrite !length_app. cbn [length lit]. cbn. lia. }
  rewrite Hmeta, Hdata.
  rewrite (split_app_sep mime (lit "base64") 59 Hsemi).
  change (split (lit "base64") 59) with [lit "base64"].
  assert (Hmime : normalizeMime (Some mime) = Some (toLowerCase (trim mime))).
  { unfold normalizeMime. destruct mime as [| c m]; [discriminate Himg |].
    rewrite Hsemi. reflexivity. }
  rewrite Hmime.
  destruct (toLowerCase (trim mime)) as [| c m] eqn:Hm; [discriminate Himg |].
  cbn [existsb].
  change (jstring_eqb (toLowerCase (trim (lit "base64"))) (lit "base64")) with true.
  rewrite orb_true_r. cbn [negb].
  rewrite Himg. cbn [negb].
  rewrite decode_after_encode. reflexivity.
Qed.

End ResolverMore.

(** X7. An inline reference never reaches the network: whatever a
    [data:] reference resolves to, the world is left as it was but for the
    record of the call. *)
Theorem resolveImage_inline_offline (URL_parse : jstring -> option URL) (url : jstring)
    (options : ResolveImageOptions) (w : World) :
  isDataUrl url = true ->
  snd (resolveImage URL_parse url options w) = after w [EvResolveImage url].
Proof.
  intros Hdata. unfold resolveImage. rewrite bind_emit. cbv zeta.
  destruct (jstring_eqb (trim url) []); [reflexivity |].
  rewrite Hdata.
  destruct (parseDataUrlToBytes url) as [[mime bytes] | e]; [| reflexivity].
  destruct (_ >? _); reflexivity.
Qed.

Lemma resolveImage_inline_offline_witness :
  snd (resolveImage Examples.example_URL_parse (lit "data:text/plain,hello")
         Examples.default_options Examples.world_ready)
  = after Examples.world_ready [EvResolveImage (lit "data:text/plain,hello")].
Proof. apply resolveImage_inline_offline. reflexivity. Defined.

(** X8. Resolving the inline form of an image gives the image back: for a
    media type without comma or semicolon whose trimmed lower-case form
    begins with ["image/"], and bytes [B] within the ceiling, the reference
    ["data:" + mime + ";base64," + encodeBase64(B)] resolves to the bytes
    [B], their encoding and their number.  When the media type is
    printable ASCII, the resolved media type is its trimmed lower-case
    form, and the inline form returned is built from it. *)
Theorem resolveImage_data_url (URL_parse : jstring -> option URL) (mime : jstring)
    (B : list byte) (options : ResolveImageOptions) (w : World) :
  indexOf mime 44 = None ->
  indexOf mime 59 = None ->
  startsWith (toLowerCase (trim mime)) (lit "image/") = true ->
  Z.of_nat (length B) <= default (10 * 1024 * 1024) (maxBytes options) ->
  let reference := lit "data:" ++ mime ++ lit ";base64," ++ encodeBase64 B in
  exists r : ResolvedImage,
    resolveImage URL_parse reference options w = (Ok r, after w [EvResolveImage reference])
    /\ ImageResolver.url r = reference
    /\ bytes r = B
    /\ base64 r = encodeBase64 B
    /\ ImageResolver.size r = Z.of_nat (length B)
    /\ (ascii_text mime = true ->
        ImageResolver.mime r = toLowerCase (trim mime)
        /\ dataUrl r = lit "data:" ++ toLowerCase (trim mime) ++ lit ";base64,"
                       ++ encodeBase64 B).
Proof.
  intros Hcomma Hsemi Himg Hsize reference.
  eexists. split.
  - unfold resolveImage. rewrite bind_emit. cbv zeta.
    subst reference. rewrite data_url_not_blank.
    unfold isDataUrl. rewrite startsWith_app.
    rewrite parseDataUrlToBytes_encoded by assumption.
    rewrite gtb_false by exact Hsize.
    reflexivity.
  - cbn [ImageResolver.url bytes base64 ImageResolver.size ImageResolver.mime dataUrl].
    repeat split.
Qed.

Lemma resolveImage_data_url_witness :
  exists r : ResolvedImage,
    resolveImage Examples.example_URL_parse
      (lit "data:" ++ lit " Image/PNG " ++ lit ";base64,"
       ++ encodeBase64 [x89; x50; x4e; x47])
      Examples.default_options Examples.world_idle
    = (Ok r, after Examples.world_idle
               [EvResolveImage (lit "data: Image/PNG ;base64,iVBORw==")])
    /\ ImageResolver.url r = lit "data: Image/PNG ;base64,iVBORw=="
    /\ bytes r = [x89; x50; x4e; x47]
    /\ base64 r = lit "iVBORw=="
    /\ ImageResolver.size r = 4
    /\ (ascii_text (lit " Image/PNG ") = true ->
        ImageResolver.mime r = lit "image/png"
        /\ dataUrl r = lit "data:image/png;base64,iVBORw==").
Proof.
  apply (resolveImage_data_url Examples.example_URL_parse (lit " Image/PNG ")
           [x89; x50; x4e; x47] Examples.default_options Examples.world_idle).
  - reflexivity.
  - reflexivity.
  - vm_compute. reflexivity.
  - vm_compute. discriminate.
Defined.

Section ReaderMore.


(** A successful read never returns more than the ceiling. *)
Lemma read_chunks_ceiling (stream : list ReadStep) :
  forall (maxBytes total total' : Z) (chunks chunks' : list (list byte)) (w w' : World),
    read_chunks stream maxBytes total chunks w = (Ok (total', chunks'), w') ->
    total = Z.of_nat (length (concat chunks)) ->
    total <= maxBytes ->
    total' = Z.of_nat (length (concat chunks')) /\ total' <= maxBytes.
Proof.
  induction stream as [| step stream IH];
    intros maxBytes total total' chunks chunks' w w' H Hsum Hle;
    cbn [read_chunks] in H; rewrite bind_emit in H.
  - injection H as <- <- _. split; assumption.
  - destruct step as [[value |] | e].
    + destruct (Z.gtb_spec (total + Z.of_nat (length value)) maxBytes) as [Hgt | Hng].
      * rewrite bind_emit in H. discriminate H.
      * apply IH in H; [exact H | | lia].
        rewrite concat_app, length_app. cbn [concat]. rewrite app_nil_r. lia.
    + apply IH in H; assumption.
    + discriminate H.
Qed.

Lemma readResponseBytesWithLimit_ceiling_ok (resp : Response) (maxBytes : Z)
    (w w' : World) (bytes : list byte) :
  readResponseBytesWithLimit resp maxBytes w = (Ok bytes, w') ->
  0 <= maxBytes ->
  Z.of_nat (length bytes) <= maxBytes.
Proof.
  unfold readResponseBytesWithLimit. intros H Hpos.
  destruct (declaredTooLarge resp maxBytes); [discriminate H |].
  destruct (body resp) as [stream |].
  - unfold bind, finally in H.
    destruct (read_chunks stream maxBytes 0 [] w) as [[[total chunks] | e] w1] eqn:Hread;
      [| discriminate H].
    injection H as <- _.
    apply read_chunks_ceiling in Hread; [| reflexivity | exact Hpos].
    destruct Hread as [<- Hle]. exact Hle.
  - injection H as <- _. cbn. exact Hpos.
Qed.

End ReaderMore.

(** X9. A resolved image is never larger than the ceiling: whenever
    [resolveImage] succeeds with a ceiling that is not negative, [size] is
    at most [maxBytes] (10 MiB when the option is absent), on both
    paths. *)
Theorem resolveImage_within_ceiling (URL_parse : jstring -> option URL) (url : jstring)
    (options : ResolveImageOptions) (w w' : World) (r : ResolvedImage) :
  resolveImage URL_parse url options w = (Ok r, w') ->
  0 <= default (10 * 1024 * 1024) (maxBytes options) ->
  ImageResolver.size r <= default (10 * 1024 * 1024) (maxBytes options)
  /\ ImageResolver.size r = Z.of_nat (length (bytes r)).
Proof.
  intros H Hpos.
  unfold resolveImage in H. rewrite bind_emit in H. cbv zeta in H.
  destruct (jstring_eqb (trim url) []); [discriminate H |].
  destruct (isDataUrl url).
  - destruct (parseDataUrlToBytes url) as [[mime bytes] | e]; [| discriminate H].
    destruct (Z.gtb_spec (Z.of_nat (length bytes))
                (default (10 * 1024 * 1024) (maxBytes options))) as [Hgt | Hng];
      [discriminate H |].
    injection H as <- _. cbn. split; [exact Hng | reflexivity].
  - destruct (URL_parse url) as [parsed |]; [| discriminate H].
    destruct (assertAllowedRemoteUrl _ _); [| discriminate H].
    unfold fetchImage, bind in H.
    destruct (transport _ _) as [[resp | e] w1]; [| discriminate H].
    destruct (negb (ok resp)); [discriminate H |].
    destruct (normalizeMime _) as [ct |]; [| discriminate H].
    destruct (negb (startsWith ct _)); [discriminate H |].
    destruct (readResponseBytesWithLimit _ _ _) as [[bytes | e] w2] eqn:Hread;
      [| discriminate H].
    injection H as <- _. cbn. split; [| reflexivity].
    eapply readResponseBytesWithLimit_ceiling_ok; eassumption.
Qed.

Lemma resolveImage_within_ceiling_witness :
  ImageResolver.size Examples.png_resolved <= 10 * 1024 * 1024
  /\ ImageResolver.size Examples.png_resolved
     = Z.of_nat (length (bytes Examples.png_resolved)).
Proof.
  apply (resolveImage_within_ceiling Examples.example_URL_parse Examples.png_data_url
           Examples.default_options Examples.world_idle
           (after Examples.world_idle [EvResolveImage Examples.png_data_url])
           Examples.png_resolved).
  - vm_compute. reflexivity.
  - vm_compute. discriminate.
Defined.

(** X10. A reference whose scheme is neither http nor https fails with
    [UnsupportedScheme] before any fetch, whether or not private networks
    are allowed. *)
Theorem resolveImage_unsupported_scheme (URL_parse : jstring -> option URL)
    (url : jstring) (u : URL) (options : ResolveImageOptions) (w : World) :
  jstring_eqb (trim url) [] = false ->
  isDataUrl url = false ->
  URL_parse url = Some u ->
  toLowerCase (protocol u) <> lit "http:" ->
  toLowerCase (protocol u) <> lit "https:" ->
  resolveImage URL_parse url options w
  = (Err UnsupportedScheme, after w [EvResolveImage url]).
Proof.
  intros Hblank Hdata Hparse Hhttp Hhttps.
  unfold resolveImage. rewrite bind_emit. cbv zeta.
  rewrite Hblank, Hdata, Hparse.
  unfold assertAllowedRemoteUrl. cbv zeta.
  rewrite (jstring_eqb_false _ _ Hhttp), (jstring_eqb_false _ _ Hhttps).
  reflexivity.
Qed.

Lemma resolveImage_unsupported_scheme_witness :
  resolveImage Examples.example_URL_parse (lit "ftp://example.com/a.png")
    {| timeoutMs := None; maxBytes := None; allowPrivateNetwork := Some true |}
    Examples.world_ready
  = (Err UnsupportedScheme,
     after Examples.world_ready [EvResolveImage (lit "ftp://example.com/a.png")]).
Proof.
  apply (resolveImage_unsupported_scheme Examples.example_URL_parse
           (lit "ftp://example.com/a.png")
           {| protocol := lit "ftp:"; hostname := lit "example.com";
              href := lit "ftp://example.com/a.png" |}).
  - vm_compute. reflexivity.
  - vm_compute. reflexivity.
  - vm_compute. reflexivity.
  - vm_compute. discriminate.
  - vm_compute. discriminate.
Defined.

(** X11. How the response to the fetch is vetted, once the guard has let
    the reference through: a status outside 2xx fails with [UpstreamError]
    carrying the status and the text of the body; a 2xx response whose
    content type is absent or not [image/*] fails with [InvalidMediaType],
    and its body is not read. *)
Theorem resolveImage_vets_response (URL_parse : jstring -> option URL) (url : jstring)
    (u : URL) (options : ResolveImageOptions) (w : World) (resp : Response)
    (rest : list NetOutcome) :
  remote_http_url URL_parse url u ->
  assertAllowedRemoteUrl u (default false (allowPrivateNetwork options)) = Ok tt ->
  net w = Responds resp :: rest ->
  (ok resp = false ->
   resolveImage URL_parse url options w
   = (Err (UpstreamError (status resp) (default [] (text resp))),
      {| net := rest;
         trace := trace w ++ [EvResolveImage url;
                              EvFetchImage (href u) (default 10000 (timeoutMs options));
                              EvReadText] |}))
  /\ (ok resp = true ->
      match normalizeMime (content_type resp) with
      | Some ct => startsWith ct (lit "image/") = false
      | None => True
      end ->
      resolveImage URL_parse url options w
      = (Err InvalidMediaType,
         {| net := rest;
            trace := trace w ++ [EvResolveImage url;
                                 EvFetchImage (href u)
                                   (default 10000 (timeoutMs options))] |})).
Proof.
  intros Hremote Hguard Hnet.
  assert (Hstart : resolveImage URL_parse url options w
                   = fetchImage url u (default 10000 (timeoutMs options))
                       (default (10 * 1024 * 1024) (maxBytes options))
                       (after w [EvResolveImage url])).
  { rewrite (resolveImage_remote URL_parse url u) by exact Hremote.
    rewrite Hguard. reflexivity. }
  rewrite Hstart. unfold fetchImage, bind.
  rewrite (transport_next _ _ resp rest) by exact Hnet.
  split.
  - intros Hok. rewrite Hok. cbn [negb]. unfold emit, throw, after. cbn [trace net].
    rewrite <- !app_assoc. reflexivity.
  - intros Hok Hct. rewrite Hok. cbn [negb].
    destruct (normalizeMime (content_type resp)) as [ct |].
    + rewrite Hct. cbn [negb]. unfold throw, after. cbn [trace net].
      rewrite <- !app_assoc. reflexivity.
    + unfold throw, after. cbn [trace net]. rewrite <- !app_assoc. reflexivity.
Qed.


Section ResolverMoreExamples.
Import Examples MoreExamples.

Lemma public_reference_remote :
  remote_http_url example_URL_parse public_reference public_reference_URL.
Proof.
  unfold remote_http_url. split; [vm_compute; reflexivity |].
  split; [vm_compute; reflexivity |]. split; [vm_compute; reflexivity |].
  right. vm_compute. reflexivity.
Defined.

Lemma resolveImage_vets_response_witness :
  resolveImage example_URL_parse public_reference default_options
    (world_with [Responds not_found_response])
  = (Err (UpstreamError 404 (lit "missing")),
     {| net := [];
        trace := [EvResolveImage public_reference;
                  EvFetchImage public_reference 10000; EvReadText] |})
  /\ resolveImage example_URL_parse public_reference default_options
       (world_with [Responds html_response])
     = (Err InvalidMediaType,
        {| net := [];
           trace := [EvResolveImage public_reference;
                     EvFetchImage public_reference 10000] |}).
Proof.
  split.
  - apply (proj1 (resolveImage_vets_response example_URL_parse public_reference
                    public_reference_URL default_options
                    (world_with [Responds not_found_response]) not_found_response []
                    public_reference_remote eq_refl eq_refl)).
    reflexivity.
  - apply (proj2 (resolveImage_vets_response example_URL_parse public_reference
                    public_reference_URL default_options
                    (world_with [Responds html_response]) html_response []
                    public_reference_remote eq_refl eq_refl)).
    + reflexivity.
    + vm_compute. reflexivity.
Defined.


End ResolverMoreExamples.

(** ** More on the preparation of the references *)
Import PrepareFacts.

Section PrepareMore.

Variable URL_parse : jstring -> option URL.

(** What every resolved image looks like. *)
Lemma resolveImage_ok_shape (url : jstring) (options : ResolveImageOptions)
    (w w' : World) (r : ResolvedImage) :
  resolveImage URL_parse url options w = (Ok r, w') ->
  startsWith (mime r) (lit "image/") = true
  /\ base64 r = encodeBase64 (bytes r)
  /\ dataUrl r = lit "data:" ++ mime r ++ lit ";base64," ++ base64 r.
Proof.
  intros H. unfold resolveImage in H. rewrite bind_emit in H. cbv zeta in H.
  destruct (jstring_eqb (trim url) []); [discriminate H |].
  destruct (isDataUrl url).
  - destruct (parseDataUrlToBytes url) as [[mime bytes] | e] eqn:Hp; [| discriminate H].
    destruct (_ >? _); [discriminate H |].
    injection H as <- _. cbn.
    repeat split. exact (parseDataUrlToBytes_image _ _ _ Hp).
  - destruct (URL_parse url) as [parsed |]; [| discriminate H].
    destruct (assertAllowedRemoteUrl _ _); [| discriminate H].
    unfold fetchImage, bind in H.
    destruct (transport _ _) as [[resp | e] w1]; [| discriminate H].
    destruct (negb (ok resp)); [discriminate H |].
    destruct (normalizeMime _) as [ct |]; [| discriminate H].
    destruct (negb (startsWith ct _)) eqn:Hs; [discriminate H |].
    destruct (readResponseBytesWithLimit _ _ _) as [[bytes | e] w2]; [| discriminate H].
    injection H as <- _. cbn.
    repeat split. apply negb_false_iff. exact Hs.
Qed.

Lemma resolve_each_shape (imageUrls : list JSON) (options : PrepareImagesOptions) :
  forall (out0 out : list jstring) (w w' : World),
    resolve_each URL_parse imageUrls options out0 w = (Ok out, w') ->
    exists added : list jstring,
      out = out0 ++ added
      /\ length added = length (omap nonblank_string imageUrls)
      /\ Forall (inline_entry (default data_url (base64Format options))) added.
Proof.
  induction imageUrls as [| u imageUrls IH]; intros out0 out w w' H;
    cbn [resolve_each] in H.
  - injection H as <- _. exists []. rewrite app_nil_r. repeat split. constructor.
  - assert (Homap : omap nonblank_string (u :: imageUrls)
                    = match nonblank_string u with
                      | Some url => url :: omap nonblank_string imageUrls
                      | None => omap nonblank_string imageUrls
                      end) by reflexivity.
    rewrite Homap. clear Homap.
    destruct (nonblank_string u) as [url |] eqn:Hu.
    + unfold bind in H.
      destruct (resolveImage URL_parse url (resolveOptions options) w)
        as [[r | e] w1] eqn:Hr; [| discriminate H].
      apply IH in H as (added & -> & Hlen & Hall).
      apply resolveImage_ok_shape in Hr as (Hmime & Hb64 & Hdata).
      eexists (_ :: added). rewrite <- app_assoc. split; [reflexivity |].
      split; [cbn [length]; rewrite Hlen; reflexivity |].
      apply Forall_cons_2; [| exact Hall].
      destruct (default data_url (base64Format options)); cbn [inline_entry].
      * rewrite Hdata. apply startsWith_true in Hmime as [t Ht]. rewrite Ht.
        change (lit "data:image/") with (lit "data:" ++ lit "image/").
        replace (lit "data:" ++ (lit "image/" ++ t) ++ lit ";base64," ++ base64 r)
          with ((lit "data:" ++ lit "image/") ++ t ++ lit ";base64," ++ base64 r)
          by (rewrite <- !app_assoc; reflexivity).
        apply startsWith_app.
      * exists (bytes r). exact Hb64.
    + apply IH in H as (added & -> & Hlen & Hall).
      exists added. repeat split; assumption.
Qed.

End PrepareMore.

(** X13. In the fetching mode no remote reference is handed upstream:
    when [prepareImagesForUpstream] succeeds, it returns one entry for
    every entry of the input that is a non-blank string, and each is an
    inline image (it begins with ["data:image/"]) or, in the raw format,
    the bare encoding of the bytes. *)
Theorem prepareImagesForUpstream_fetch_shape (URL_parse : jstring -> option URL)
    (imageUrls : list JSON) (options : PrepareImagesOptions) (w w' : World)
    (out : list jstring) :
  mode options = fetch_to_base64 ->
  prepareImagesForUpstream URL_parse imageUrls options w = (Ok out, w') ->
  length out = length (omap nonblank_string imageUrls)
  /\ Forall (inline_entry (default data_url (base64Format options))) out.
Proof.
  intros Hmode H. unfold prepareImagesForUpstream in H. rewrite Hmode in H.
  destruct imageUrls as [| u imageUrls].
  - injection H as <- _. split; [reflexivity | constructor].
  - cbn [length Nat.eqb] in H.
    apply resolve_each_shape in H as (added & -> & Hlen & Hall).
    split; assumption.
Qed.

Lemma prepareImagesForUpstream_fetch_shape_witness :
  length [lit "data:image/png;base64,iVBORw0KGgo="]
  = length (omap nonblank_string [JStr (lit " "); JStr MoreExamples.public_reference])
  /\ Forall (inline_entry data_url) [lit "data:image/png;base64,iVBORw0KGgo="].
Proof.
  apply (prepareImagesForUpstream_fetch_shape Examples.example_URL_parse
           [JStr (lit " "); JStr MoreExamples.public_reference]
           MoreExamples.fetch_options
           (MoreExamples.world_with [Responds MoreExamples.png_response])
           {| net := [];
              trace := [EvResolveImage MoreExamples.public_reference;
                        EvFetchImage MoreExamples.public_reference 10000;
                        EvBodyRead; EvBodyRead; EvBodyRead; EvBodyRead;
                        EvReleaseLock] |}).
  - reflexivity.
  - vm_compute. reflexivity.
Defined.

(** X14. In the fetching mode the guard stops the preparation itself: when
    the first entry that is a non-blank string is a remote reference to a
    private host and private networks are not allowed, the preparation
    fails with [BlockedBySsrfPolicy] without any network call, and the
    entries after it are not looked at. *)
Theorem prepareImagesForUpstream_blocks_private (URL_parse : jstring -> option URL)
    (skipped rest : list JSON) (url : jstring) (u : URL)
    (options : PrepareImagesOptions) (w : World) :
  mode options = fetch_to_base64 ->
  Forall (fun v => nonblank_string v = None) skipped ->
  remote_http_url URL_parse url u ->
  isPrivateIp (hostname u) = true ->
  default false (allowPrivateNetwork (resolveOptions options)) = false ->
  prepareImagesForUpstream URL_parse (skipped ++ JStr url :: rest) options w
  = (Err BlockedBySsrfPolicy, after w [EvResolveImage url]).
Proof.
  intros Hmode Hskip Hremote Hpriv Hallow.
  unfold prepareImagesForUpstream. rewrite Hmode.
  replace (length (skipped ++ JStr url :: rest) =? 0)%nat with false
    by (symmetry; apply Nat.eqb_neq; rewrite length_app; cbn; lia).
  generalize (@nil jstring) as out0.
  induction Hskip as [| v skipped Hv _ IH]; intros out0.
  - cbn [app resolve_each nonblank_string].
    destruct Hremote as (Hblank & Hrest). rewrite Hblank.
    unfold bind.
    rewrite (resolveImage_blocked URL_parse url u)
      by (first [assumption | split; assumption]).
    reflexivity.
  - cbn [app resolve_each]. rewrite Hv. apply IH.
Qed.

Lemma prepareImagesForUpstream_blocks_private_witness :
  prepareImagesForUpstream Examples.example_URL_parse
    ([JNull; JStr (lit "  ")]
     ++ JStr Examples.private_reference :: [JStr MoreExamples.public_reference])
    MoreExamples.fetch_options Examples.world_ready
  = (Err BlockedBySsrfPolicy,
     after Examples.world_ready [EvResolveImage Examples.private_reference]).
Proof.
  apply (prepareImagesForUpstream_blocks_private Examples.example_URL_parse
           [JNull; JStr (lit "  ")] [JStr MoreExamples.public_reference]
           Examples.private_reference Examples.private_reference_URL).
  - reflexivity.
  - repeat constructor.
  - exact private_reference_remote.
  - vm_compute. reflexivity.
  - reflexivity.
Defined.

(** ** More on the ModelScope handler *)
Section HandlerMore.

Variable URL_parse : jstring -> option URL.
Variable cfg : Config.

(** A pass of the loop whose query fails: with a task type configured the
    query is repeated once without the header. *)
Lemma poll_once_retry (taskId : JSON) (w : World) (t : jstring)
    (b1 b2 : Response) (rest : list NetOutcome) :
  taskTypeHeader cfg = Some t ->
  net w = Responds b1 :: Responds b2 :: rest ->
  ok b1 = false ->
  poll_once cfg taskId w =
    (if ok b2
     then match json b2 with
          | None => Err MalformedResponse
          | Some checkData =>
              match get checkData (lit "task_status") with
              | Err e => Err e
              | Ok (Some (JStr s)) =>
                  if jstring_eqb s (lit "SUCCEED")
                  then Ok (Some (render (extractImages checkData)))
                  else if jstring_eqb s (lit "FAILED") then Err UpstreamTaskFailed
                       else Ok None
              | Ok _ => Ok None
              end
          end
     else Ok None,
     {| net := rest;
        trace := trace w ++ [EvSleep 5000; EvPoll (apiUrl cfg) taskId (Some t);
                             EvPoll (apiUrl cfg) taskId None]
                 ++ (if ok b2 then [EvReadJson] else []) |}).
Proof.
  intros Htype Hnet Hbad.
  assert (Htyped : negb (jstring_eqb (configuredTaskType cfg) []) = true).
  { unfold taskTypeHeader in Htype. destruct (negb _); [reflexivity | discriminate]. }
  unfold poll_once. rewrite bind_emit. cbv zeta.
  unfold checkTask at 1. unfold bind at 1.
  rewrite (transport_next _ _ b1 (Responds b2 :: rest)) by exact Hnet.
  rewrite Hbad, Htyped, Htype. cbn [negb andb].
  unfold checkTask. unfold bind at 1.
  rewrite (transport_next _ _ b2 rest) by reflexivity.
  cbn [trace after].
  destruct (ok b2); cbn [negb].
  - rewrite bind_emit.
    destruct (json b2) as [checkData |].
    + destruct (get checkData (lit "task_status")) as [[[| | | s | |] |] | e];
        unfold ret, throw, after; cbn [trace net]; rewrite <- !app_assoc;
        try reflexivity.
      destruct (jstring_eqb s (lit "SUCCEED")); [reflexivity |].
      destruct (jstring_eqb s (lit "FAILED")); reflexivity.
    + unfold throw, after. cbn [trace net]. rewrite <- !app_assoc. reflexivity.
  - unfold ret. rewrite <- !app_assoc. reflexivity.
Qed.

(** A pass of the loop without a task type: one query, not repeated. *)
Lemma poll_once_untyped (taskId : JSON) (w : World) (b : Response)
    (rest : list NetOutcome) :
  taskTypeHeader cfg = None ->
  net w = Responds b :: rest ->
  ok b = false ->
  poll_once cfg taskId w
  = (Ok None,
     {| net := rest; trace := trace w ++ [EvSleep 5000; EvPoll (apiUrl cfg) taskId None] |}).
Proof.
  intros Htype Hnet Hbad.
  assert (Htyped : negb (jstring_eqb (configuredTaskType cfg) []) = false).
  { unfold taskTypeHeader in Htype. destruct (negb _); [discriminate | reflexivity]. }
  unfold poll_once. rewrite bind_emit. cbv zeta.
  unfold checkTask at 1. unfold bind at 1.
  rewrite (transport_next _ _ b rest) by exact Hnet.
  rewrite Hbad, Htyped, Htype. cbn [negb andb]. rewrite bind_ret, Hbad.
  cbn [negb]. unfold ret, after. cbn [trace net]. rewrite <- !app_assoc. reflexivity.
Qed.

(** The outcomes of passes whose query and its repeat both fail. *)
Lemma poll_failing (fs : list (Response * Response)) :
  forall (taskId : JSON) (t : jstring) (rest : list NetOutcome) (w : World),
    taskTypeHeader cfg = Some t ->
    Forall (fun f => ok (fst f) = false /\ ok (snd f) = false) fs ->
    net w = flat_map (fun f => [Responds (fst f); Responds (snd f)]) fs ++ rest ->
    poll cfg (length fs) taskId w
    = (Err PollTimeout,
       {| net := rest;
          trace := trace w
                   ++ concat (replicate (length fs)
                                [EvSleep 5000; EvPoll (apiUrl cfg) taskId (Some t);
                                 EvPoll (apiUrl cfg) taskId None]) |}).
Proof.
  induction fs as [| [b1 b2] fs IH]; intros taskId t rest w Htype Hall Hnet.
  - cbn in Hnet. cbn. rewrite app_nil_r, <- Hnet. destruct w; reflexivity.
  - apply Forall_cons_1 in Hall as [[H1 H2] Hall]. cbn [fst snd] in H1, H2.
    cbn [flat_map fst snd app] in Hnet. cbn [length poll]. unfold bind at 1.
    rewrite (poll_once_retry taskId w t b1 b2 _ Htype Hnet H1).
    rewrite H2. cbv iota.
    rewrite (IH taskId t rest) by (first [assumption | reflexivity]).
    cbn [trace replicate concat]. rewrite app_nil_r, <- !app_assoc. reflexivity.
Qed.

Lemma poll_recovers (fs : list (Response * Response)) :
  forall (m : nat) (taskId : JSON) (t : jstring) (p : Response) (d : JSON)
         (rest : list NetOutcome) (w : World),
    taskTypeHeader cfg = Some t ->
    Forall (fun f => ok (fst f) = false /\ ok (snd f) = false) fs ->
    reports p d (lit "SUCCEED") ->
    (length fs < m)%nat ->
    net w = flat_map (fun f => [Responds (fst f); Responds (snd f)]) fs
            ++ Responds p :: rest ->
    poll cfg m taskId w
    = (Ok (render (extractImages d)),
       {| net := rest;
          trace := trace w
                   ++ concat (replicate (length fs)
                                [EvSleep 5000; EvPoll (apiUrl cfg) taskId (Some t);
                                 EvPoll (apiUrl cfg) taskId None])
                   ++ pass_events cfg taskId |}).
Proof.
  induction fs as [| [b1 b2] fs IH]; intros m taskId t p d rest w Htype Hall Hp Hlt Hnet;
    (destruct m as [| m]; [cbn in Hlt; lia |]).
  - cbn [flat_map app] in Hnet. cbn [poll]. unfold bind at 1.
    rewrite (poll_once_reports cfg taskId w p d (lit "SUCCEED") rest Hnet Hp).
    change (jstring_eqb (lit "SUCCEED") (lit "SUCCEED")) with true.
    cbv iota. reflexivity.
  - apply Forall_cons_1 in Hall as [[H1 H2] Hall]. cbn [fst snd] in H1, H2.
    cbn [flat_map fst snd app] in Hnet. cbn [length poll]. unfold bind at 1.
    rewrite (poll_once_retry taskId w t b1 b2 _ Htype Hnet H1).
    rewrite H2. cbv iota.
    rewrite (IH m taskId t p d rest)
      by (first [assumption | reflexivity | cbn in Hlt; lia]).
    cbn [trace replicate concat]. rewrite app_nil_r, <- !app_assoc. reflexivity.
Qed.

End HandlerMore.

(** X15. An image-edit job without a reference image fails with
    [MissingReferenceImage] and nothing is sent: the world is untouched. *)
Theorem handleModelScope_missing_reference (URL_parse : jstring -> option URL)
    (cfg : Config) (reqBody : NormalizedChatRequest) (prompt : jstring) (w : World) :
  includes (toLowerCase (chooseModel cfg reqBody)) (lit "image-edit") = true ->
  handleModelScope URL_parse cfg reqBody prompt [] w = (Err MissingReferenceImage, w).
Proof.
  intros Hedit. unfold handleModelScope, submit. cbv zeta. rewrite Hedit. reflexivity.
Qed.

Lemma handleModelScope_missing_reference_witness :
  handleModelScope Examples.example_URL_parse Examples.example_cfg Examples.edit_request
    (lit "make it blue") [] Examples.world_ready
  = (Err MissingReferenceImage, Examples.world_ready).
Proof. apply handleModelScope_missing_reference. vm_compute. reflexivity. Defined.

(** X16. A submission answered outside 2xx ends the request with
    [SubmitError], carrying the status and the text of the answer; no
    status query follows. *)
Theorem handleModelScope_submit_rejected (URL_parse : jstring -> option URL)
    (cfg : Config) (reqBody : NormalizedChatRequest) (prompt : jstring)
    (images : list jstring) (w0 w : World) (resp : Response) (errorText : jstring) :
  submit URL_parse cfg reqBody prompt images w0 = (Ok resp, w) ->
  ok resp = false ->
  text resp = Some errorText ->
  handleModelScope URL_parse cfg reqBody prompt images w0
  = (Err (SubmitError (status resp) errorText), after w [EvReadText]).
Proof.
  intros Hsubmit Hok Htext. unfold handleModelScope, bind. rewrite Hsubmit.
  unfold afterSubmit. rewrite Hok. cbn [negb]. rewrite bind_emit, Htext. reflexivity.
Qed.

(** X17. The synchronous path: a 2xx submission answer without a job
    handle is searched for images at once.  If any is found the rendered
    images are the result, else the request fails with
    [UnexpectedResponse]; in neither case is the task queried. *)
Theorem handleModelScope_without_handle (URL_parse : jstring -> option URL)
    (cfg : Config) (reqBody : NormalizedChatRequest) (prompt : jstring)
    (images : list jstring) (w0 w : World) (resp : Response) (data : JSON)
    (taskId : option JSON) :
  submit URL_parse cfg reqBody prompt images w0 = (Ok resp, w) ->
  ok resp = true ->
  json resp = Some data ->
  get data (lit "task_id") = Ok taskId ->
  falsy taskId = true ->
  handleModelScope URL_parse cfg reqBody prompt images w0
  = (match extractImages data with
     | [] => Err UnexpectedResponse
     | _ :: _ => Ok (render (extractImages data))
     end, after w [EvReadJson]).
Proof.
  intros Hsubmit Hok Hjson Hid Hfalsy. unfold handleModelScope, bind. rewrite Hsubmit.
  unfold afterSubmit. rewrite Hok. cbn [negb]. rewrite bind_emit, Hjson, Hid, Hfalsy.
  cbv zeta. destruct (extractImages data); reflexivity.
Qed.

Section HandlerMoreExamples.
Import Examples HandlerExamples.

Lemma handleModelScope_submit_rejected_witness :
  run_with [Responds rejected_response; Responds (json_response 200 succeeded_payload)]
  = (Err (SubmitError 401 (lit "unauthorized")),
     {| net := [Responds (json_response 200 succeeded_payload)];
        trace := [cat_submission; EvReadText] |}).
Proof.
  exact (handleModelScope_submit_rejected example_URL_parse example_cfg generation_request
           (lit "a cat") []
           {| net := [Responds rejected_response;
                      Responds (json_response 200 succeeded_payload)];
              trace := [] |}
           {| net := [Responds (json_response 200 succeeded_payload)];
              trace := [cat_submission] |}
           rejected_response (lit "unauthorized") eq_refl eq_refl eq_refl).
Defined.

Lemma handleModelScope_without_handle_witness :
  run_with [Responds (json_response 200 sync_payload)]
  = (Ok (lit "![Generated Image](https://cdn.example/2.png)"),
     {| net := []; trace := [cat_submission; EvReadJson] |})
  /\ run_with [Responds (json_response 200 (JObj []))]
     = (Err UnexpectedResponse, {| net := []; trace := [cat_submission; EvReadJson] |}).
Proof.
  split.
  - exact (handleModelScope_without_handle example_URL_parse example_cfg generation_request
             (lit "a cat") []
             {| net := [Responds (json_response 200 sync_payload)]; trace := [] |}
             {| net := []; trace := [cat_submission] |}
             (json_response 200 sync_payload) sync_payload None
             eq_refl eq_refl eq_refl eq_refl eq_refl).
  - exact (handleModelScope_without_handle example_URL_parse example_cfg generation_request
             (lit "a cat") []
             {| net := [Responds (json_response 200 (JObj []))]; trace := [] |}
             {| net := []; trace := [cat_submission] |}
             (json_response 200 (JObj [])) (JObj []) None
             eq_refl eq_refl eq_refl eq_refl eq_refl).
Defined.

End HandlerMoreExamples.

(** ** What the handler returns, and what it may cost *)
Import HandlerFacts Budget.

Section Rendering.

Lemma has_reference_markdown (x : ImageData) :
  has_reference x = true -> image_markdown (toMarkdown x).
Proof.
  unfold has_reference, toMarkdown, image_markdown.
  destruct x as [[[| c u] |] [[| d b] |]]; cbn [Main.url Main.b64_json nonblank];
    intros H; try discriminate H;
    try (exists (c :: u); split; [discriminate | reflexivity]).
  - destruct (startsWith (d :: b) (lit "data:"));
      eexists; (split; [| reflexivity]); discriminate.
  - destruct (startsWith (d :: b) (lit "data:"));
      eexists; (split; [| reflexivity]); discriminate.
Qed.

Lemma image_markdown_nonempty (s : jstring) : image_markdown s -> s <> [].
Proof. intros (target & _ & ->). discriminate. Qed.

Lemma join_nonempty_all (parts : list jstring) :
  Forall (fun p => p <> []) parts -> join_nonempty parts = join_lines parts.
Proof.
  intros Hall. unfold join_nonempty.
  replace (List.filter (fun p => negb (jstring_eqb p [])) parts) with parts;
    [reflexivity |].
  induction Hall as [| p parts Hp Hall IH]; [reflexivity |].
  cbn [List.filter]. rewrite (jstring_eqb_false _ _ Hp). cbn [negb].
  rewrite <- IH. reflexivity.
Qed.

Lemma toMarkdown_shape (x : ImageData) :
  toMarkdown x = [] \/ startsWith (toMarkdown x) (lit "![Generated Image](") = true.
Proof.
  unfold toMarkdown.
  destruct (Main.url x) as [[| c u] |]; destruct (b64_json x) as [[| d b] |];
    first [left; reflexivity | right; apply startsWith_app].
Qed.

Lemma render_shape (imageData : list ImageData) : rendered (render imageData).
Proof.
  unfold rendered, render, join_nonempty.
  destruct (List.filter _ (List.map toMarkdown imageData)) as [| p ps] eqn:Hparts;
    [left; reflexivity |].
  assert (Hin : In p (List.filter (fun p => negb (jstring_eqb p []))
                        (List.map toMarkdown imageData))).
  { rewrite Hparts. left. reflexivity. }
  apply filter_In in Hin as [Hin Hp].
  apply in_map_iff in Hin as (x & <- & _).
  destruct (toMarkdown_shape x) as [Hempty | Hstarts].
  - rewrite Hempty in Hp. discriminate Hp.
  - apply startsWith_true in Hstarts as [rest Hrest].
    destruct (toMarkdown x ++ _) eqn:Hs; [left; reflexivity |].
    right. rewrite <- Hs, Hrest, <- app_assoc. apply startsWith_app.
Qed.

End Rendering.

Section Yields.

Lemma yields_ret {A : Type} (Q : A -> Prop) (a : A) : Q a -> yields Q (ret a).
Proof. intros H w w' b Hb. injection Hb as <- _. exact H. Qed.

Lemma yields_throw {A : Type} (Q : A -> Prop) (e : Error) : yields Q (@throw A e).
Proof. intros w w' b Hb. discriminate Hb. Qed.

Lemma yields_bind {A B : Type} (Q : B -> Prop) (c : M A) (k : A -> M B) :
  (forall a, yields Q (k a)) -> yields Q (x <- c ;; k x).
Proof.
  intros Hk w w' b. unfold bind.
  destruct (c w) as [[a | e] w1]; [apply Hk | discriminate].
Qed.

Variable cfg : Config.

Lemma yields_poll_once (taskId : JSON) :
  yields (fun r => match r with Some s => rendered s | None => True end)
    (poll_once cfg taskId).
Proof.
  unfold poll_once. apply yields_bind. intros _. cbv zeta.
  apply yields_bind. intros r1. apply yields_bind. intros r2.
  destruct (negb (ok r2)); [apply yields_ret; exact I |].
  apply yields_bind. intros _.
  destruct (json r2) as [checkData |]; [| apply yields_throw].
  destruct (get checkData (lit "task_status")) as [[[| | | s | |] |] | e];
    try (apply yields_ret; exact I); try apply yields_throw.
  destruct (jstring_eqb s (lit "SUCCEED")); [apply yields_ret, render_shape |].
  destruct (jstring_eqb s (lit "FAILED")); [apply yields_throw | apply yields_ret; exact I].
Qed.

Lemma yields_poll (attempts : nat) (taskId : JSON) :
  yields rendered (poll cfg attempts taskId).
Proof.
  induction attempts as [| n IH]; cbn [poll]; [apply yields_throw |].
  intros w w' s. unfold bind.
  destruct (poll_once cfg taskId w) as [[[r |] | e] w1] eqn:Hpass.
  - intros H. injection H as <- _.
    exact (yields_poll_once taskId w w1 (Some r) Hpass).
  - apply IH.
  - discriminate.
Qed.

Lemma yields_afterSubmit (resp : Response) : yields rendered (afterSubmit cfg resp).
Proof.
  unfold afterSubmit. destruct (negb (ok resp)).
  - apply yields_bind. intros _. destruct (text resp); apply yields_throw.
  - apply yields_bind. intros _.
    destruct (json resp) as [submitData |]; [| apply yields_throw].
    destruct (get submitData (lit "task_id")) as [taskId | e]; [| apply yields_throw].
    destruct (falsy taskId); [| apply yields_poll].
    cbv zeta. destruct (_ <? _)%nat; [apply yields_ret, render_shape | apply yields_throw].
Qed.

End Yields.

(** X18. Status queries answered outside 2xx are tolerated: with a task
    type configured, every pass whose query and its repeat both fail only
    uses up one of the 60 attempts.  Fewer than 60 such passes followed by
    a SUCCEED answer give the rendered images; 60 of them give
    [PollTimeout] after 120 queries. *)
Theorem handleModelScope_transient_failures (URL_parse : jstring -> option URL)
    (cfg : Config) (reqBody : NormalizedChatRequest) (prompt : jstring)
    (images : list jstring) (w0 w : World) (resp : Response) (data taskId : JSON)
    (t : jstring) (fs : list (Response * Response)) :
  submit URL_parse cfg reqBody prompt images w0 = (Ok resp, w) ->
  ok resp = true ->
  json resp = Some data ->
  get data (lit "task_id") = Ok (Some taskId) ->
  falsy (Some taskId) = false ->
  taskTypeHeader cfg = Some t ->
  Forall (fun f => ok (fst f) = false /\ ok (snd f) = false) fs ->
  let failing := flat_map (fun f => [Responds (fst f); Responds (snd f)]) fs in
  let failed_pass := [EvSleep 5000; EvPoll (apiUrl cfg) taskId (Some t);
                      EvPoll (apiUrl cfg) taskId None] in
  (forall (p : Response) (d : JSON) (rest : list NetOutcome),
      (length fs < 60)%nat ->
      reports p d (lit "SUCCEED") ->
      net w = failing ++ Responds p :: rest ->
      handleModelScope URL_parse cfg reqBody prompt images w0
      = (Ok (render (extractImages d)),
         {| net := rest;
            trace := trace w ++ EvReadJson
                       :: concat (replicate (length fs) failed_pass)
                       ++ pass_events cfg taskId |}))
  /\ (forall rest : list NetOutcome,
         length fs = 60%nat ->
         net w = failing ++ rest ->
         handleModelScope URL_parse cfg reqBody prompt images w0
         = (Err PollTimeout,
            {| net := rest;
               trace := trace w ++ EvReadJson :: concat (replicate 60 failed_pass) |})).
Proof.
  intros Hsubmit Hok Hjson Hid Htruthy Htype Hall failing failed_pass.
  assert (Hstart : handleModelScope URL_parse cfg reqBody prompt images w0
                   = poll cfg maxAttempts taskId (after w [EvReadJson])).
  { unfold handleModelScope, bind. rewrite Hsubmit.
    apply (afterSubmit_handle cfg resp data taskId); assumption. }
  split.
  - intros p d rest Hlt Hp Hnet. rewrite Hstart.
    rewrite (poll_recovers cfg fs maxAttempts taskId t p d rest)
      by (first [assumption | exact Hlt]).
    cbn [trace after]. rewrite <- app_assoc. reflexivity.
  - intros rest Hlen Hnet. rewrite Hstart.
    change maxAttempts with 60%nat. rewrite <- Hlen.
    rewrite (poll_failing cfg fs taskId t rest) by assumption.
    cbn [trace after]. rewrite <- app_assoc. reflexivity.
Qed.

(** X19. The retry without the task-type header.  When the first status
    query is answered outside 2xx and the next answer reports SUCCEED: with
    a task type configured the query is repeated at once, without the
    header, and that answer ends the job in the same pass; with no task
    type configured there is no repeat, and the answer is read in the next
    pass, after another wait. *)
Theorem handleModelScope_header_downgrade (URL_parse : jstring -> option URL)
    (cfg : Config) (reqBody : NormalizedChatRequest) (prompt : jstring)
    (images : list jstring) (w0 w : World) (resp : Response) (data taskId : JSON)
    (b p : Response) (d : JSON) (rest : list NetOutcome) :
  submit URL_parse cfg reqBody prompt images w0 = (Ok resp, w) ->
  ok resp = true ->
  json resp = Some data ->
  get data (lit "task_id") = Ok (Some taskId) ->
  falsy (Some taskId) = false ->
  ok b = false ->
  reports p d (lit "SUCCEED") ->
  net w = Responds b :: Responds p :: rest ->
  handleModelScope URL_parse cfg reqBody prompt images w0
  = (Ok (render (extractImages d)),
     {| net := rest;
        trace := trace w
                 ++ [EvReadJson; EvSleep 5000]
                 ++ match taskTypeHeader cfg with
                    | Some t => [EvPoll (apiUrl cfg) taskId (Some t);
                                 EvPoll (apiUrl cfg) taskId None; EvReadJson]
                    | None => [EvPoll (apiUrl cfg) taskId None; EvSleep 5000;
                               EvPoll (apiUrl cfg) taskId None; EvReadJson]
                    end |}).
Proof.
  intros Hsubmit Hok Hjson Hid Htruthy Hbad Hp Hnet.
  assert (Hstart : handleModelScope URL_parse cfg reqBody prompt images w0
                   = poll cfg maxAttempts taskId (after w [EvReadJson])).
  { unfold handleModelScope, bind. rewrite Hsubmit.
    apply (afterSubmit_handle cfg resp data taskId); assumption. }
  rewrite Hstart. unfold maxAttempts. cbn [poll]. unfold bind at 1.
  destruct (taskTypeHeader cfg) as [t |] eqn:Htype.
  - rewrite (poll_once_retry cfg taskId (after w [EvReadJson]) t b p rest Htype Hnet Hbad).
    destruct Hp as (Hpok & Hpjson & Hpstatus).
    rewrite Hpok, Hpjson, Hpstatus.
    change (jstring_eqb (lit "SUCCEED") (lit "SUCCEED")) with true.
    cbv iota. cbn [trace after]. rewrite <- !app_assoc. reflexivity.
  - rewrite (poll_once_untyped cfg taskId (after w [EvReadJson]) b (Responds p :: rest)
               Htype Hnet Hbad).
    cbv iota. unfold bind at 1.
    rewrite (poll_once_reports cfg taskId _ p d (lit "SUCCEED") rest)
      by (first [assumption | reflexivity]).
    change (jstring_eqb (lit "SUCCEED") (lit "SUCCEED")) with true.
    cbv iota. unfold pass_events. rewrite Htype.
    cbn [trace after]. rewrite <- !app_assoc. reflexivity.
Qed.

(** X20. Rendering loses no extracted image.  Every entry that
    [extractImages] returns renders as a markdown image with a non-empty
    target, and the rendered text is these images in order, separated by a
    blank line; it is the fallback text exactly when nothing was
    extracted. *)
Theorem render_extractImages (payload : JSON) :
  Forall (fun img => image_markdown (toMarkdown img)) (extractImages payload)
  /\ render (extractImages payload)
     = match extractImages payload with
       | [] => GENERATION_FAILED
       | _ :: _ => join_lines (List.map toMarkdown (extractImages payload))
       end.
Proof.
  assert (Hall : Forall (fun img => image_markdown (toMarkdown img))
                   (extractImages payload)).
  { unfold extractImages. cbv zeta. apply List.Forall_forall. intros x Hx.
    apply filter_In in Hx as [_ Hx]. apply has_reference_markdown, Hx. }
  split; [exact Hall |].
  unfold render. rewrite join_nonempty_all.
  - destruct (extractImages payload) as [| x xs]; [reflexivity |].
    apply Forall_cons_1 in Hall as [Hx _].
    apply image_markdown_nonempty in Hx.
    cbn [List.map join_lines].
    destruct (toMarkdown x); [contradiction Hx; reflexivity | reflexivity].
  - apply List.Forall_forall. intros s Hs. apply in_map_iff in Hs as (x & <- & Hx).
    apply image_markdown_nonempty.
    exact (proj1 (List.Forall_forall _ _) Hall x Hx).
Qed.

(** X21. Whatever the service answers, a result that [handleModelScope]
    returns is never empty: it is the fallback text, or markdown that
    begins with an image. *)
Theorem handleModelScope_result (URL_parse : jstring -> option URL) (cfg : Config)
    (reqBody : NormalizedChatRequest) (prompt : jstring) (images : list jstring)
    (w w' : World) (s : jstring) :
  handleModelScope URL_parse cfg reqBody prompt images w = (Ok s, w') ->
  s <> [] /\ rendered s.
Proof.
  intros H.
  assert (Hs : rendered s).
  { revert H. apply (yields_bind rendered). intros resp. apply yields_afterSubmit. }
  split; [| exact Hs].
  destruct Hs as [-> | Hs]; [discriminate |].
  apply startsWith_true in Hs as [rest ->]. discriminate.
Qed.

Section Spending.

Variable k : Kind.

Lemma count_app (l1 l2 : list Event) : count k (l1 ++ l2) = (count k l1 + count k l2)%nat.
Proof. unfold count. rewrite List.filter_app, length_app. reflexivity. Qed.

Lemma spends_ret {A : Type} (n : nat) (a : A) : spends k n (ret a).
Proof. intros w. exists []. split; [symmetry; apply app_nil_r | cbn; lia]. Qed.

Lemma spends_throw {A : Type} (n : nat) (e : Error) : spends k n (@throw A e).
Proof. intros w. exists []. split; [symmetry; apply app_nil_r | cbn; lia]. Qed.

Lemma spends_emit (n : nat) (ev : Event) :
  (count k [ev] <= n)%nat -> spends k n (emit ev).
Proof. intros H w. exists [ev]. split; [reflexivity | exact H]. Qed.

Lemma spends_transport (n : nat) (ev : Event) :
  (count k [ev] <= n)%nat -> spends k n (transport ev).
Proof. intros H w. exists [ev]. split; [apply transport_trace | exact H]. Qed.

Lemma spends_bind {A B : Type} (n1 n2 n : nat) (c : M A) (f : A -> M B) :
  (n1 + n2 <= n)%nat ->
  spends k n1 c -> (forall a, spends k n2 (f a)) -> spends k n (x <- c ;; f x).
Proof.
  intros Hn Hc Hf w. unfold bind.
  destruct (Hc w) as (ev1 & H1 & C1).
  destruct (c w) as [[a | e] w1]; cbn [snd] in *.
  - destruct (Hf a w1) as (ev2 & H2 & C2). exists (ev1 ++ ev2).
    rewrite H2, H1, app_assoc, count_app. split; [reflexivity | lia].
  - exists ev1. split; [exact H1 | lia].
Qed.

Lemma spends_finally {A : Type} (n1 n2 n : nat) (c : M A) (f : M unit) :
  (n1 + n2 <= n)%nat -> spends k n1 c -> spends k n2 f -> spends k n (finally c f).
Proof.
  intros Hn Hc Hf w. unfold finally.
  destruct (Hc w) as (ev1 & H1 & C1).
  destruct (c w) as [r w1]; cbn [snd] in *.
  destruct (Hf w1) as (ev2 & H2 & C2). exists (ev1 ++ ev2).
  rewrite H2, H1, app_assoc, count_app. split; [reflexivity | lia].
Qed.

(** An event that is no fetch, submission, status query or wait. *)
Ltac uncounted := clear; destruct k; cbn; lia.

Lemma spends_read_chunks (stream : list ReadStep) :
  forall maxBytes total chunks, spends k 0 (read_chunks stream maxBytes total chunks).
Proof.
  induction stream as [| step stream IH]; intros maxBytes total chunks;
    cbn [read_chunks];
    (apply (spends_bind 0 0); [lia | apply spends_emit; uncounted | intros _]).
  - apply spends_ret.
  - destruct step as [[value |] | e].
    + destruct (_ >? _).
      * apply (spends_bind 0 0); [lia | apply spends_emit; uncounted |].
        intros _. apply spends_throw.
      * apply IH.
    + apply IH.
    + apply spends_throw.
Qed.

Lemma spends_readResponseBytesWithLimit (resp : Response) (maxBytes : Z) :
  spends k 0 (readResponseBytesWithLimit resp maxBytes).
Proof.
  unfold readResponseBytesWithLimit.
  destruct (declaredTooLarge resp maxBytes); [apply spends_throw |].
  destruct (body resp) as [stream |]; [| apply spends_ret].
  apply (spends_bind 0 0); [lia | |].
  - apply (spends_finally 0 0); [lia | apply spends_read_chunks |].
    apply spends_emit; uncounted.
  - intros [total chunks]. apply spends_ret.
Qed.

Lemma spends_fetchImage (url : jstring) (u : URL) (timeoutMs maxBytes : Z) :
  spends k (fetch_cost k) (fetchImage url u timeoutMs maxBytes).
Proof.
  unfold fetchImage.
  apply (spends_bind (fetch_cost k) 0); [lia | apply spends_transport; uncounted |].
  intros resp. destruct (negb (ok resp)).
  - apply (spends_bind 0 0); [lia | apply spends_emit; uncounted |].
    intros _. apply spends_throw.
  - destruct (normalizeMime (content_type resp)) as [ct |]; [| apply spends_throw].
    destruct (negb _); [apply spends_throw |].
    apply (spends_bind 0 0); [lia | apply spends_readResponseBytesWithLimit |].
    intros bytes. apply spends_ret.
Qed.

Lemma spends_resolveImage (URL_parse : jstring -> option URL) (url : jstring)
    (options : ResolveImageOptions) :
  spends k (fetch_cost k) (resolveImage URL_parse url options).
Proof.
  unfold resolveImage.
  apply (spends_bind 0 (fetch_cost k)); [lia | apply spends_emit; uncounted |].
  intros _. cbv zeta.
  destruct (jstring_eqb (trim url) []); [apply spends_throw |].
  destruct (isDataUrl url).
  - destruct (parseDataUrlToBytes url) as [[mime bytes] | e]; [| apply spends_throw].
    destruct (_ >? _); [apply spends_throw | apply spends_ret].
  - destruct (URL_parse url) as [parsed |]; [| apply spends_throw].
    destruct (assertAllowedRemoteUrl parsed _); [| apply spends_throw].
    apply spends_fetchImage.
Qed.

Variable cfg : Config.

Lemma spends_submit (URL_parse : jstring -> option URL) (reqBody : NormalizedChatRequest)
    (prompt : jstring) (images : list jstring) :
  spends k (fetch_cost k + submit_cost k) (submit URL_parse cfg reqBody prompt images).
Proof.
  unfold submit. cbv zeta.
  destruct (includes _ _).
  - destruct images as [| first rest]; [apply spends_throw |].
    apply (spends_bind (fetch_cost k) (submit_cost k));
      [lia | apply spends_resolveImage |].
    intros resolved. apply spends_transport; uncounted.
  - apply spends_transport; uncounted.
Qed.

Lemma spends_poll_once (taskId : JSON) : spends k (pass_cost k) (poll_once cfg taskId).
Proof.
  unfold poll_once.
  apply (spends_bind (count k [EvSleep 5000]) (pass_cost k - count k [EvSleep 5000]));
    [uncounted | apply spends_emit; lia |].
  intros _. cbv zeta. unfold checkTask.
  set (once := count k [EvPoll [] JNull None]).
  apply (spends_bind once (pass_cost k - count k [EvSleep 5000] - once));
    [subst once; uncounted | apply spends_transport; subst once; uncounted |].
  intros r1.
  apply (spends_bind once 0);
    [subst once; uncounted | | ].
  - destruct (_ && _); [apply spends_transport; subst once; uncounted | apply spends_ret].
  - intros r2. destruct (negb (ok r2)); [apply spends_ret |].
    apply (spends_bind 0 0); [lia | apply spends_emit; uncounted |].
    intros _. destruct (json r2) as [checkData |]; [| apply spends_throw].
    destruct (get checkData (lit "task_status")) as [[[| | | s | |] |] | e];
      try apply spends_ret; try apply spends_throw.
    destruct (jstring_eqb s (lit "SUCCEED")); [apply spends_ret |].
    destruct (jstring_eqb s (lit "FAILED")); [apply spends_throw | apply spends_ret].
Qed.

Lemma spends_poll (attempts : nat) (taskId : JSON) :
  spends k (attempts * pass_cost k) (poll cfg attempts taskId).
Proof.
  induction attempts as [| n IH]; cbn [poll]; [apply spends_throw |].
  apply (spends_bind (pass_cost k) (n * pass_cost k)); [lia | apply spends_poll_once |].
  intros [result |]; [apply spends_ret | exact IH].
Qed.

Lemma spends_afterSubmit (resp : Response) :
  spends k (60 * pass_cost k) (afterSubmit cfg resp).
Proof.
  unfold afterSubmit. destruct (negb (ok resp)).
  - apply (spends_bind 0 0); [lia | apply spends_emit; uncounted |].
    intros _. destruct (text resp); apply spends_throw.
  - apply (spends_bind 0 (60 * pass_cost k)); [lia | apply spends_emit; uncounted |].
    intros _. destruct (json resp) as [submitData |]; [| apply spends_throw].
    destruct (get submitData (lit "task_id")) as [taskId | e]; [| apply spends_throw].
    destruct (falsy taskId); [| apply (spends_poll 60)].
    cbv zeta. destruct (_ <? _)%nat; [apply spends_ret | apply spends_throw].
Qed.

Lemma spends_handleModelScope (URL_parse : jstring -> option URL)
    (reqBody : NormalizedChatRequest) (prompt : jstring) (images : list jstring) :
  spends k (handler_budget k) (handleModelScope URL_parse cfg reqBody prompt images).
Proof.
  unfold handleModelScope.
  apply (spends_bind (fetch_cost k + submit_cost k) (60 * pass_cost k));
    [uncounted | apply spends_submit | apply spends_afterSubmit].
Qed.

End Spending.

(** X22. The cost of one call of [handleModelScope], whatever the
    references and whatever the network answers: at most one image fetch,
    at most one submission, at most 60 waits and at most 120 status
    queries; and the trace it finds is only extended. *)
Theorem handleModelScope_budget (URL_parse : jstring -> option URL) (cfg : Config)
    (reqBody : NormalizedChatRequest) (prompt : jstring) (images : list jstring)
    (w : World) :
  exists events : list Event,
    trace (snd (handleModelScope URL_parse cfg reqBody prompt images w))
    = trace w ++ events
    /\ (count KFetch events <= 1)%nat
    /\ (count KSubmit events <= 1)%nat
    /\ (count KSleep events <= 60)%nat
    /\ (count KPoll events <= 120)%nat.
Proof.
  destruct (spends_handleModelScope KFetch cfg URL_parse reqBody prompt images w)
    as (events & Htrace & Hfetch).
  exists events. split; [exact Htrace |].
  split; [exact Hfetch |].
  assert (Hother : forall k, (count k events <= handler_budget k)%nat).
  { intros k.
    destruct (spends_handleModelScope k cfg URL_parse reqBody prompt images w)
      as (events' & Htrace' & Hk).
    rewrite Htrace in Htrace'. apply app_inv_head in Htrace'. subst events'. exact Hk. }
  split; [exact (Hother KSubmit) |].
  split; [exact (Hother KSleep) | exact (Hother KPoll)].
Qed.

Section HandlerBehaviourExamples.
Import Examples HandlerExamples.

Lemma busy_fails : ok (fst (busy_response, busy_response)) = false
                   /\ ok (snd (busy_response, busy_response)) = false.
Proof. split; reflexivity. Defined.

Lemma handleModelScope_transient_failures_witness :
  run_with (Responds (json_response 200 task_x)
            :: [Responds busy_response; Responds busy_response]
            ++ [Responds (json_response 200 succeeded_payload)])
  = (Ok (render (extractImages succeeded_payload)),
     {| net := [];
        trace := [cat_submission; EvReadJson;
                  EvSleep 5000;
                  EvPoll (apiUrl example_cfg) (JStr (lit "x")) (Some (lit "image_generation"));
                  EvPoll (apiUrl example_cfg) (JStr (lit "x")) None;
                  EvSleep 5000;
                  EvPoll (apiUrl example_cfg) (JStr (lit "x")) (Some (lit "image_generation"));
                  EvReadJson] |})
  /\ fst (run_with (Responds (json_response 200 task_x)
                    :: flat_map (fun f => [Responds (fst f); Responds (snd f)])
                         (replicate 60 (busy_response, busy_response))))
     = Err PollTimeout.
Proof.
  pose (transient := fun (fs : list (Response * Response)) (tail : list NetOutcome) =>
    handleModelScope_transient_failures example_URL_parse example_cfg generation_request
      (lit "a cat") []
      {| net := Responds (json_response 200 task_x)
                :: flat_map (fun f => [Responds (fst f); Responds (snd f)]) fs ++ tail;
         trace := [] |}
      {| net := flat_map (fun f => [Responds (fst f); Responds (snd f)]) fs ++ tail;
         trace := [cat_submission] |}
      (json_response 200 task_x) task_x (JStr (lit "x")) (lit "image_generation") fs
      eq_refl eq_refl eq_refl eq_refl eq_refl eq_refl).
  split.
  - exact (proj1 (transient [(busy_response, busy_response)]
                    [Responds (json_response 200 succeeded_payload)]
                    (Forall_cons_2 _ _ _ busy_fails (Forall_nil_2 _)))
             (json_response 200 succeeded_payload) succeeded_payload []
             (le_n_S _ _ (le_n_S _ _ (Nat.le_0_l _)))
             (conj eq_refl (conj eq_refl eq_refl)) eq_refl).
  - unfold run_with.
    rewrite <- (app_nil_r (flat_map _ _)).
    rewrite (proj2 (transient (replicate 60 (busy_response, busy_response)) []
                      (Forall_replicate _ _ _ busy_fails)) [] eq_refl eq_refl).
    reflexivity.
Defined.

Lemma handleModelScope_header_downgrade_witness :
  run_with [Responds (json_response 200 task_x); Responds busy_response;
            Responds (json_response 200 succeeded_payload)]
  = (Ok (render (extractImages succeeded_payload)),
     {| net := [];
        trace := [cat_submission; EvReadJson; EvSleep 5000;
                  EvPoll (apiUrl example_cfg) (JStr (lit "x")) (Some (lit "image_generation"));
                  EvPoll (apiUrl example_cfg) (JStr (lit "x")) None; EvReadJson] |})
  /\ handleModelScope example_URL_parse untyped_cfg generation_request (lit "a cat") []
       {| net := [Responds (json_response 200 task_x); Responds busy_response;
                  Responds (json_response 200 succeeded_payload)];
          trace := [] |}
     = (Ok (render (extractImages succeeded_payload)),
        {| net := [];
           trace := [cat_submission; EvReadJson; EvSleep 5000;
                     EvPoll (apiUrl example_cfg) (JStr (lit "x")) None; EvSleep 5000;
                     EvPoll (apiUrl example_cfg) (JStr (lit "x")) None; EvReadJson] |}).
Proof.
  pose (downgrade := fun cfg : Config =>
    handleModelScope_header_downgrade example_URL_parse cfg generation_request
      (lit "a cat") []
      {| net := [Responds (json_response 200 task_x); Responds busy_response;
                 Responds (json_response 200 succeeded_payload)];
         trace := [] |}
      {| net := [Responds busy_response; Responds (json_response 200 succeeded_payload)];
         trace := [cat_submission] |}
      (json_response 200 task_x) task_x (JStr (lit "x"))
      busy_response (json_response 200 succeeded_payload) succeeded_payload []).
  split.
  - exact (downgrade example_cfg eq_refl eq_refl eq_refl eq_refl eq_refl eq_refl
             (conj eq_refl (conj eq_refl eq_refl)) eq_refl).
  - exact (downgrade untyped_cfg eq_refl eq_refl eq_refl eq_refl eq_refl eq_refl
             (conj eq_refl (conj eq_refl eq_refl)) eq_refl).
Defined.

Lemma handleModelScope_result_witness :
  run_with [Responds (json_response 200 task_x); Responds (json_response 200 empty_success)]
  = (Ok GENERATION_FAILED,
     {| net := [];
        trace := cat_submission :: EvReadJson :: pass_events example_cfg (JStr (lit "x")) |})
  /\ GENERATION_FAILED <> [] /\ rendered GENERATION_FAILED.
Proof.
  assert (H : run_with [Responds (json_response 200 task_x);
                        Responds (json_response 200 empty_success)]
              = (Ok GENERATION_FAILED,
                 {| net := [];
                    trace := cat_submission :: EvReadJson
                             :: pass_events example_cfg (JStr (lit "x")) |})).
  { vm_compute. reflexivity. }
  split; [exact H |].
  exact (handleModelScope_result example_URL_parse example_cfg generation_request
           (lit "a cat") [] _ _ GENERATION_FAILED H).
Defined.

End HandlerBehaviourExamples.

(** ** The choice of the provider *)
Import Routing.

Section RoutingFacts.

Lemma hex_run_some (n : nat) :
  forall s rest : jstring,
    hex_run n s = Some rest ->
    exists run : jstring,
      s = run ++ rest /\ length run = n /\ forallb is_hex_digit run = true.
Proof.
  induction n as [| n IH]; intros s rest H.
  - cbn in H. injection H as <-. exists []. repeat split.
  - cbn [hex_run] in H. destruct s as [| c s]; [discriminate H |].
    destruct (is_hex_digit c) eqn:Hc; [| discriminate H].
    destruct (IH s rest H) as (run & -> & Hlen & Hall).
    exists (c :: run). cbn. rewrite Hc, Hall, Hlen. repeat split.
Qed.

Lemma hex_run_app (n : nat) (run rest : jstring) :
  length run = n ->
  forallb is_hex_digit run = true -> hex_run n (run ++ rest) = Some rest.
Proof.
  intros <-. induction run as [| c run IH]; intros H; [reflexivity |].
  cbn in H. apply andb_prop in H as [Hc Hall].
  cbn [length app hex_run]. rewrite Hc. apply IH, Hall.
Qed.

Lemma dash_some (s rest : jstring) : dash s = Some rest -> s = 45 :: rest.
Proof.
  destruct s as [| c s]; [discriminate |]. cbn.
  destruct c as [| p | p]; try discriminate.
  do 6 (destruct p as [p | p |]; try discriminate).
  intros H. injection H as <-. reflexivity.
Qed.

Lemma uuidRegex_test_shape (s : jstring) : uuidRegex_test s = true <-> uuid_shaped s.
Proof.
  split.
  - unfold uuidRegex_test. cbv zeta. cbn [fold_left]. intros H.
    destruct (hex_run 8 s) as [r1 |] eqn:H1; [| discriminate H].
    cbn [followed_by] in H.
    destruct (dash r1) as [r2 |] eqn:D1; [| discriminate H]. cbn [followed_by] in H.
    destruct (hex_run 4 r2) as [r3 |] eqn:H2; [| discriminate H].
    cbn [followed_by] in H.
    destruct (dash r3) as [r4 |] eqn:D2; [| discriminate H]. cbn [followed_by] in H.
    destruct (hex_run 4 r4) as [r5 |] eqn:H3; [| discriminate H].
    cbn [followed_by] in H.
    destruct (dash r5) as [r6 |] eqn:D3; [| discriminate H]. cbn [followed_by] in H.
    destruct (hex_run 4 r6) as [r7 |] eqn:H4; [| discriminate H].
    cbn [followed_by] in H.
    destruct (dash r7) as [r8 |] eqn:D4; [| discriminate H]. cbn [followed_by] in H.
    destruct (hex_run 12 r8) as [[| x r9] |] eqn:H5; try discriminate H.
    apply hex_run_some in H1 as (a & -> & La & Ha).
    apply dash_some in D1 as ->.
    apply hex_run_some in H2 as (b & -> & Lb & Hb).
    apply dash_some in D2 as ->.
    apply hex_run_some in H3 as (c & -> & Lc & Hc).
    apply dash_some in D3 as ->.
    apply hex_run_some in H4 as (d & -> & Ld & Hd).
    apply dash_some in D4 as ->.
    apply hex_run_some in H5 as (e & -> & Le & He).
    exists a, b, c, d, e. rewrite app_nil_r. split; [reflexivity |]. split.
    + cbn [List.map]. rewrite La, Lb, Lc, Ld, Le. reflexivity.
    + rewrite !forallb_app, Ha, Hb, Hc, Hd, He. reflexivity.
  - intros (a & b & c & d & e & -> & Hlen & Hall).
    cbn [List.map] in Hlen. injection Hlen as La Lb Lc Ld Le.
    rewrite !forallb_app in Hall.
    apply andb_prop in Hall as [Ha Hall]. apply andb_prop in Hall as [Hb Hall].
    apply andb_prop in Hall as [Hc Hall]. apply andb_prop in Hall as [Hd He].
    unfold uuidRegex_test. cbv zeta. cbn [fold_left].
    rewrite (hex_run_app 8 a) by assumption. cbn [followed_by app dash].
    rewrite (hex_run_app 4 b) by assumption. cbn [followed_by app dash].
    rewrite (hex_run_app 4 c) by assumption. cbn [followed_by app dash].
    rewrite (hex_run_app 4 d) by assumption. cbn [followed_by app dash].
    rewrite <- (app_nil_r e), (hex_run_app 12 e) by assumption. reflexivity.
Qed.

Lemma uuid_shaped_length (s : jstring) : uuid_shaped s -> length s = 36%nat.
Proof.
  intros (a & b & c & d & e & -> & Hlen & _).
  cbn [List.map] in Hlen. injection Hlen as La Lb Lc Ld Le.
  rewrite !length_app. cbn [length]. lia.
Qed.

Lemma uuid_shaped_not_alnum (s : jstring) : uuid_shaped s -> forallb is_alnum s = false.
Proof.
  intros (a & b & c & d & e & -> & _ & _).
  rewrite forallb_app. cbn [app forallb].
  change (is_alnum 45) with false. cbn [andb]. apply andb_false_r.
Qed.

Lemma is_hex_digit_alnum (c : Z) : is_hex_digit c = true -> is_alnum c = true.
Proof. unfold is_hex_digit, is_alnum, is_digit. lia. Qed.

Lemma uuid_shaped_head (s : jstring) :
  uuid_shaped s -> exists c rest, s = c :: rest /\ is_hex_digit c = true.
Proof.
  intros (a & b & c & d & e & -> & Hlen & Hall).
  cbn [List.map] in Hlen. injection Hlen as La _ _ _ _.
  destruct a as [| x a]; [discriminate La |].
  cbn in Hall. apply andb_prop in Hall as [Hx _].
  exists x, (a ++ [45] ++ b ++ [45] ++ c ++ [45] ++ d ++ [45] ++ e).
  split; [reflexivity | exact Hx].
Qed.

Lemma ms_prefix_not_uuid (s : jstring) :
  startsWith s (lit "ms-") = true -> uuidRegex_test s = false.
Proof.
  intros H. apply startsWith_true in H as [rest ->].
  destruct (uuidRegex_test _) eqn:Hu; [| reflexivity].
  apply uuidRegex_test_shape, uuid_shaped_head in Hu as (c & r & Heq & Hc).
  injection Heq as <- _. discriminate Hc.
Qed.

Lemma ms_prefix_not_gitee (s : jstring) :
  startsWith s (lit "ms-") = true -> giteeRegex_test s = false.
Proof.
  intros H. apply startsWith_true in H as [rest ->]. reflexivity.
Qed.

Lemma uuid_not_gitee (s : jstring) : uuidRegex_test s = true -> giteeRegex_test s = false.
Proof.
  intros H. apply uuidRegex_test_shape, uuid_shaped_not_alnum in H.
  unfold giteeRegex_test. rewrite H. reflexivity.
Qed.

End RoutingFacts.

(** X23. The three key shapes exclude one another, so the order of the
    tests in [detectProvider] decides nothing: a key goes to ModelScope
    exactly when it begins with ["ms-"], to VolcEngine exactly when it has
    the shape of a UUID (hence 36 symbols), and to Gitee exactly when it is
    30 to 60 letters and digits; every other key, the empty one included,
    is [Unknown]. *)
Theorem detectProvider_shapes (apiKey : jstring) :
  (detectProvider apiKey = ModelScope <-> startsWith apiKey (lit "ms-") = true)
  /\ (detectProvider apiKey = VolcEngine <-> uuid_shaped apiKey)
  /\ (detectProvider apiKey = Gitee
      <-> forallb is_alnum apiKey = true /\ (30 <= length apiKey <= 60)%nat)
  /\ (detectProvider apiKey = VolcEngine -> length apiKey = 36%nat).
Proof.
  assert (Hgitee : giteeRegex_test apiKey = true
                   <-> forallb is_alnum apiKey = true /\ (30 <= length apiKey <= 60)%nat).
  { unfold giteeRegex_test. rewrite !andb_true_iff, !Nat.leb_le. tauto. }
  assert (Hdetect : detectProvider apiKey
                    = if startsWith apiKey (lit "ms-") then ModelScope
                      else if uuidRegex_test apiKey then VolcEngine
                      else if giteeRegex_test apiKey then Gitee else Unknown).
  { destruct apiKey; reflexivity. }
  rewrite Hdetect, <- Hgitee, <- uuidRegex_test_shape.
  pose proof (ms_prefix_not_uuid apiKey) as H1.
  pose proof (ms_prefix_not_gitee apiKey) as H2.
  pose proof (uuid_not_gitee apiKey) as H3.
  pose proof (uuid_shaped_length apiKey) as H4.
  rewrite <- uuidRegex_test_shape in H4.
  destruct (startsWith apiKey (lit "ms-")); destruct (uuidRegex_test apiKey);
    destruct (giteeRegex_test apiKey);
    try (specialize (H1 eq_refl)); try (specialize (H2 eq_refl));
    try (specialize (H3 eq_refl)); try discriminate;
    repeat split; intros; try discriminate; try reflexivity; auto.
Qed.

(** ** The reference image of an edit request *)
Section EditReference.

Variable URL_parse : jstring -> option URL.
Variable cfg : Config.

Lemma resolveImage_encoded (mime : jstring) (B : list byte)
    (options : ResolveImageOptions) (w : World) :
  indexOf mime 44 = None ->
  indexOf mime 59 = None ->
  startsWith (toLowerCase (trim mime)) (lit "image/") = true ->
  Z.of_nat (length B) <= default (10 * 1024 * 1024) (maxBytes options) ->
  resolveImage URL_parse (lit "data:" ++ mime ++ lit ";base64," ++ encodeBase64 B)
    options w
  = (Ok {| ImageResolver.url := lit "data:" ++ mime ++ lit ";base64," ++ encodeBase64 B;
           mime := toLowerCase (trim mime);
           bytes := B;
           base64 := encodeBase64 B;
           dataUrl := lit "data:" ++ toLowerCase (trim mime) ++ lit ";base64,"
                      ++ encodeBase64 B;
           ImageResolver.size := Z.of_nat (length B) |},
     after w [EvResolveImage (lit "data:" ++ mime ++ lit ";base64," ++ encodeBase64 B)]).
Proof.
  intros Hcomma Hsemi Himg Hsize.
  unfold resolveImage. rewrite bind_emit. cbv zeta.
  rewrite data_url_not_blank.
  unfold isDataUrl. rewrite startsWith_app.
  rewrite parseDataUrlToBytes_encoded by assumption.
  rewrite gtb_false by exact Hsize.
  reflexivity.
Qed.

Lemma encodeBase64_symbols (B : list byte) (c : Z) :
  In c (encodeBase64 B) -> In c BASE64_ALPHABET \/ c = 61.
Proof.
  unfold encodeBase64. destruct (length B =? 0)%nat; [intros [] |].
  destruct (encode_from_layout B) as (body & -> & Hall & _).
  intros Hc. apply in_app_or in Hc as [Hc | Hc].
  - left. exact (proj1 (List.Forall_forall _ _) Hall c Hc).
  - right. apply list_elem_of_In, elem_of_replicate in Hc as [Hc _]. exact Hc.
Qed.

Lemma alphabet_plain (c : Z) :
  In c BASE64_ALPHABET \/ c = 61 -> c <> 58 /\ is_js_space c = false.
Proof.
  intros [Hc | ->]; [| split; [discriminate | reflexivity]].
  assert (Hall : forallb (fun c => negb (c =? 58) && negb (is_js_space c)) BASE64_ALPHABET
                 = true) by (vm_compute; reflexivity).
  rewrite forallb_forall in Hall. specialize (Hall c Hc).
  apply andb_prop in Hall as [H1 H2].
  apply negb_true_iff in H1, H2. split; [apply Z.eqb_neq, H1 | exact H2].
Qed.

Lemma encodeBase64_no_colon (B : list byte) : indexOf (encodeBase64 B) 58 = None.
Proof.
  apply indexOf_none_notin. intros Hc.
  apply encodeBase64_symbols, alphabet_plain in Hc as [Hc _]. contradiction Hc; reflexivity.
Qed.

Lemma no_colon_not_data_url (s : jstring) : indexOf s 58 = None -> isDataUrl s = false.
Proof.
  intros H. unfold isDataUrl. destruct (startsWith s (lit "data:")) eqn:Hs; [| reflexivity].
  apply startsWith_true in Hs as [rest ->].
  apply indexOf_none_notin in H. contradiction H.
  apply in_or_app. left. vm_compute. tauto.
Qed.

Lemma resolveImage_bare_base64 (B : list byte) (options : ResolveImageOptions) (w : World) :
  (forall s : jstring, indexOf s 58 = None -> URL_parse s = None) ->
  resolveImage URL_parse (encodeBase64 B) options w
  = (Err InvalidReference, after w [EvResolveImage (encodeBase64 B)]).
Proof.
  intros Hparse. unfold resolveImage. rewrite bind_emit. cbv zeta.
  destruct (jstring_eqb (trim (encodeBase64 B)) []); [reflexivity |].
  rewrite (no_colon_not_data_url _ (encodeBase64_no_colon B)).
  rewrite (Hparse _ (encodeBase64_no_colon B)). reflexivity.
Qed.

End EditReference.

(** X24. An edit request whose first reference is the inline form of an
    image uploads that image: the handler decodes the reference without
    any fetch and submits, to [/images/edits], a form whose file part
    holds exactly the bytes [B].  When the media type of the reference is
    printable ASCII, the file part is sent under its trimmed lower-case
    form, with a file name of the matching extension. *)
Theorem handleModelScope_edit_inline (URL_parse : jstring -> option URL) (cfg : Config)
    (reqBody : NormalizedChatRequest) (prompt mime : jstring) (B : list byte)
    (rest : list jstring) (w : World) :
  includes (toLowerCase (chooseModel cfg reqBody)) (lit "image-edit") = true ->
  indexOf mime 44 = None ->
  indexOf mime 59 = None ->
  startsWith (toLowerCase (trim mime)) (lit "image/") = true ->
  Z.of_nat (length B) <= getEnvInt cfg (lit "MAX_IMAGE_BYTES") (10 * 1024 * 1024) ->
  let first := lit "data:" ++ mime ++ lit ";base64," ++ encodeBase64 B in
  exists (type name : jstring) (events : list Event),
    trace (snd (handleModelScope URL_parse cfg reqBody prompt (first :: rest) w))
    = trace w
      ++ [EvResolveImage first;
          EvSubmit (apiUrl cfg ++ lit "/images/edits")
            (EditForm (chooseModel cfg reqBody)
               (nonempty_or prompt (lit "A beautiful scenery")) (lit "1")
               (nonempty_or (default [] (Main.size reqBody)) (lit "2048x2048"))
               (lit "url")
               (nonempty_or
                  (trim (default (lit "image")
                           (env cfg (lit "MODELSCOPE_IMAGE_UPLOAD_FIELD"))))
                  (lit "image"))
               B type name)]
      ++ events
    /\ count KFetch events = 0%nat
    /\ (ascii_text mime = true ->
        type = toLowerCase (trim mime)
        /\ name = lit "image." ++ guessExt (toLowerCase (trim mime))).
Proof.
  intros Hedit Hcomma Hsemi Himg Hsize first.
  set (form :=
    EditForm (chooseModel cfg reqBody) (nonempty_or prompt (lit "A beautiful scenery"))
      (lit "1") (nonempty_or (default [] (Main.size reqBody)) (lit "2048x2048")) (lit "url")
      (nonempty_or
         (trim (default (lit "image") (env cfg (lit "MODELSCOPE_IMAGE_UPLOAD_FIELD"))))
         (lit "image"))
      B (toLowerCase (trim mime)) (lit "image." ++ guessExt (toLowerCase (trim mime)))).
  assert (Hsubmit : submit URL_parse cfg reqBody prompt (first :: rest) w
                    = transport (EvSubmit (apiUrl cfg ++ lit "/images/edits") form)
                        (after w [EvResolveImage first])).
  { unfold submit. cbv zeta. rewrite Hedit. unfold bind.
    subst first.
    match goal with
    | |- context [resolveImage _ _ ?options _] =>
        rewrite (resolveImage_encoded URL_parse mime B options w Hcomma Hsemi Himg Hsize)
    end.
    reflexivity. }
  exists (toLowerCase (trim mime)), (lit "image." ++ guessExt (toLowerCase (trim mime))).
  fold form.
  unfold handleModelScope, bind. rewrite Hsubmit.
  pose proof (transport_trace (EvSubmit (apiUrl cfg ++ lit "/images/edits") form)
                (after w [EvResolveImage first])) as Ht.
  destruct (transport _ _) as [[resp | e] w1]; cbn [snd] in Ht |- *.
  - destruct (spends_afterSubmit KFetch cfg resp w1) as (events & He & Hc).
    exists events. rewrite He, Ht. cbn [after trace]. rewrite <- !app_assoc.
    split; [reflexivity |]. split; [cbn in Hc; lia | intros _; split; reflexivity].
  - exists []. rewrite Ht. cbn [after trace]. rewrite <- !app_assoc.
    split; [reflexivity |]. split; [reflexivity | intros _; split; reflexivity].
Qed.

(** X25. A bare base64 text is no reference for an edit request.  Given
    that the URL parser rejects a text without a colon, an image-edit job
    whose first reference is the output of [encodeBase64] (what the
    preparation step produces in the raw_base64 format) fails with
    [InvalidReference], and nothing is fetched or submitted. *)
Theorem handleModelScope_edit_raw_base64 (URL_parse : jstring -> option URL)
    (cfg : Config) (reqBody : NormalizedChatRequest) (prompt : jstring) (B : list byte)
    (rest : list jstring) (w : World) :
  (forall s : jstring, indexOf s 58 = None -> URL_parse s = None) ->
  includes (toLowerCase (chooseModel cfg reqBody)) (lit "image-edit") = true ->
  handleModelScope URL_parse cfg reqBody prompt (encodeBase64 B :: rest) w
  = (Err InvalidReference, after w [EvResolveImage (encodeBase64 B)]).
Proof.
  intros Hparse Hedit.
  unfold handleModelScope, submit. cbv zeta. rewrite Hedit.
  unfold bind.
  match goal with
  | |- context [resolveImage _ _ ?options _] =>
      rewrite (resolveImage_bare_base64 URL_parse B options w Hparse)
  end.
  reflexivity.
Qed.

Section EditReferenceExamples.
Import Examples MoreExamples HandlerExamples.

Lemma handleModelScope_edit_inline_witness :
  exists (type name : jstring) (events : list Event),
    trace (snd (handleModelScope example_URL_parse example_cfg edit_request
                  (lit "make it blue")
                  [lit "data:" ++ lit "image/png" ++ lit ";base64,"
                   ++ encodeBase64 [x89; x50; x4e; x47]]
                  world_ready))
    = trace world_ready
      ++ [EvResolveImage (lit "data:image/png;base64,iVBORw==");
          EvSubmit (lit "https://api-inference.modelscope.cn/v1/images/edits")
            (EditForm (lit "Qwen/Qwen-Image-Edit") (lit "make it blue") (lit "1")
               (lit "2048x2048") (lit "url") (lit "image") [x89; x50; x4e; x47]
               type name)]
      ++ events
    /\ count KFetch events = 0%nat
    /\ (ascii_text (lit "image/png") = true ->
        type = lit "image/png" /\ name = lit "image.png").
Proof.
  apply (handleModelScope_edit_inline example_URL_parse example_cfg edit_request
           (lit "make it blue") (lit "image/png") [x89; x50; x4e; x47] [] world_ready).
  - vm_compute. reflexivity.
  - reflexivity.
  - reflexivity.
  - vm_compute. reflexivity.
  - vm_compute. discriminate.
Defined.

Lemma example_URL_parse_needs_colon (s : jstring) :
  indexOf s 58 = None -> example_URL_parse s = None.
Proof. intros H. unfold example_URL_parse. rewrite H. reflexivity. Defined.

Lemma handleModelScope_edit_raw_base64_witness :
  handleModelScope example_URL_parse example_cfg edit_request (lit "make it blue")
    [encodeBase64 [x89; x50; x4e; x47]] world_ready
  = (Err InvalidReference, after world_ready [EvResolveImage (lit "iVBORw==")]).
Proof.
  apply (handleModelScope_edit_raw_base64 example_URL_parse example_cfg edit_request
           (lit "make it blue") [x89; x50; x4e; x47] [] world_ready).
  - exact example_URL_parse_needs_colon.
  - vm_compute. reflexivity.
Defined.

End EditReferenceExamples.

(** ** The guard on dotted quads *)
Import DottedQuad.

Section GuardFacts.

Lemma digits_value_seen (g : jstring) :
  forall acc : Z,
    forallb is_digit g = true ->
    digits_value g acc true = Some (fold_left (fun acc c => acc * 10 + (c - 48)) g acc).
Proof.
  induction g as [| c g IH]; intros acc H; [reflexivity |].
  cbn in H. apply andb_prop in H as [Hc Hg].
  cbn [digits_value fold_left]. rewrite Hc. apply IH, Hg.
Qed.

Lemma is_digit_not_space (c : Z) : is_digit c = true -> is_js_space c = false.
Proof. unfold is_digit, is_js_space. lia. Qed.

Lemma parseInt_octet (g : jstring) : octet_text g -> parseInt g = Some (decimal_value g).
Proof.
  intros [Hlen Hall]. destruct g as [| c g]; [cbn in Hlen; lia |].
  pose proof Hall as Hall'. cbn in Hall. apply andb_prop in Hall as [Hc Hg].
  unfold parseInt. cbn [trimStart]. rewrite (is_digit_not_space c Hc).
  assert (Hvalue : digits_value (c :: g) 0 false = Some (decimal_value (c :: g))).
  { cbn [digits_value]. rewrite Hc. unfold decimal_value. cbn [fold_left].
    apply digits_value_seen, Hg. }
  unfold is_digit in Hc.
  destruct c as [| p | p]; try exact Hvalue; try lia.
  do 6 (destruct p as [p | p |]; try exact Hvalue); lia.
Qed.

Lemma fold_digits_range (g : jstring) :
  forall acc : Z,
    forallb is_digit g = true -> 0 <= acc ->
    0 <= fold_left (fun acc c => acc * 10 + (c - 48)) g acc
      < (acc + 1) * 10 ^ Z.of_nat (length g).
Proof.
  induction g as [| c g IH]; intros acc H Hacc.
  - cbn. lia.
  - cbn in H. apply andb_prop in H as [Hc Hg].
    cbn [fold_left length]. rewrite Nat2Z.inj_succ, Z.pow_succ_r by lia.
    unfold is_digit in Hc.
    specialize (IH (acc * 10 + (c - 48)) Hg ltac:(lia)).
    assert (0 < 10 ^ Z.of_nat (length g)) by (apply Z.pow_pos_nonneg; lia).
    nia.
Qed.

Lemma decimal_value_range (g : jstring) : octet_text g -> 0 <= decimal_value g < 1000.
Proof.
  intros [Hlen Hall]. unfold decimal_value.
  pose proof (fold_digits_range g 0 Hall ltac:(lia)) as H.
  assert (10 ^ Z.of_nat (length g) <= 10 ^ 3) by (apply Z.pow_le_mono_r; lia).
  lia.
Qed.

Lemma octet_no_dot (g : jstring) : forallb is_digit g = true -> indexOf g 46 = None.
Proof.
  intros H. apply indexOf_none_notin. intros Hin.
  rewrite forallb_forall in H. specialize (H 46 Hin). discriminate H.
Qed.

Lemma split_dotted (g1 g2 g3 g4 : jstring) :
  octet_text g1 -> octet_text g2 -> octet_text g3 -> octet_text g4 ->
  split (dotted g1 g2 g3 g4) 46 = [g1; g2; g3; g4].
Proof.
  intros [_ H1] [_ H2] [_ H3] [_ H4]. unfold dotted. cbn [app].
  rewrite !split_app_sep by (apply octet_no_dot; assumption).
  rewrite split_no_sep by (apply octet_no_dot; assumption). reflexivity.
Qed.

Lemma dotted_symbols (g1 g2 g3 g4 : jstring) :
  octet_text g1 -> octet_text g2 -> octet_text g3 -> octet_text g4 ->
  forallb quad_symbol (dotted g1 g2 g3 g4) = true.
Proof.
  assert (Hd : forall g, forallb is_digit g = true -> forallb quad_symbol g = true).
  { intros g H. rewrite forallb_forall in *. intros c Hc. unfold quad_symbol.
    rewrite (H c Hc). reflexivity. }
  intros [_ H1] [_ H2] [_ H3] [_ H4]. unfold dotted.
  rewrite !forallb_app. cbn [forallb]. rewrite !Hd by assumption. reflexivity.
Qed.

Lemma toLowerCase_quad (s : jstring) : forallb quad_symbol s = true -> toLowerCase s = s.
Proof.
  intros H. unfold toLowerCase. induction s as [| c s IH]; [reflexivity |].
  cbn in H. apply andb_prop in H as [Hc Hs]. cbn [List.map]. rewrite (IH Hs).
  unfold quad_symbol, is_digit in Hc.
  replace ((65 <=? c) && (c <=? 90)) with false by lia. reflexivity.
Qed.

Lemma quad_excludes (s : jstring) (c : Z) :
  forallb quad_symbol s = true -> quad_symbol c = false -> ~ In c s.
Proof.
  intros H Hc Hin. rewrite forallb_forall in H. rewrite (H c Hin) in Hc. discriminate Hc.
Qed.

Lemma includes_single (s : jstring) (c : Z) : includes s [c] = true -> In c s.
Proof.
  induction s as [| d s IH]; cbn [includes]; intros H.
  - cbn in H. rewrite orb_false_r in H. apply jstring_eqb_true in H. discriminate H.
  - apply orb_prop in H as [H | H].
    + unfold startsWith in H. apply jstring_eqb_true in H. cbn in H.
      injection H as ->. left. reflexivity.
    + right. apply IH, H.
Qed.

Lemma endsWith_in (s suffix : jstring) (c : Z) :
  endsWith s suffix = true -> In c suffix -> In c s.
Proof.
  unfold endsWith. intros H Hc. apply andb_prop in H as [_ H].
  apply jstring_eqb_true in H. rewrite <- H in Hc.
  rewrite <- (take_drop (length s - length suffix) s). apply in_or_app. right. exact Hc.
Qed.

End GuardFacts.

(** X26. What the guard blocks among dotted quads.  A host made of four
    groups of one to three digits is classified private exactly when it is
    ["0.0.0.0"], or its four numbers are at most 255 and the first two lie
    in 127/8, 10/8, 192.168/16, 172.16/12 or 169.254/16.  Any other dotted
    quad, and any with a number above 255, passes. *)
Theorem isPrivateIp_dotted (g1 g2 g3 g4 : jstring) :
  octet_text g1 -> octet_text g2 -> octet_text g3 -> octet_text g4 ->
  isPrivateIp (dotted g1 g2 g3 g4) = true
  <-> dotted g1 g2 g3 g4 = lit "0.0.0.0"
      \/ (Forall (fun g => decimal_value g <= 255) [g1; g2; g3; g4]
          /\ private_range (decimal_value g1) (decimal_value g2)).
Proof.
  intros O1 O2 O3 O4.
  pose proof (dotted_symbols g1 g2 g3 g4 O1 O2 O3 O4) as Hsym.
  pose proof (split_dotted g1 g2 g3 g4 O1 O2 O3 O4) as Hsplit.
  pose proof (decimal_value_range g1 O1) as R1.
  pose proof (decimal_value_range g2 O2) as R2.
  pose proof (decimal_value_range g3 O3) as R3.
  pose proof (decimal_value_range g4 O4) as R4.
  set (h := dotted g1 g2 g3 g4) in *.
  unfold isPrivateIp. cbv zeta. rewrite (toLowerCase_quad h Hsym).
  assert (Hlocal : jstring_eqb h (lit "localhost") = false).
  { apply jstring_eqb_false. intros E. apply (quad_excludes h 108 Hsym eq_refl).
    rewrite E. vm_compute. tauto. }
  assert (Hsub : endsWith h (lit ".localhost") = false).
  { destruct (endsWith h (lit ".localhost")) eqn:E; [| reflexivity].
    exfalso. apply (quad_excludes h 108 Hsym eq_refl).
    apply (endsWith_in h (lit ".localhost") 108 E). vm_compute. tauto. }
  assert (Hloop : jstring_eqb h (lit "::1") = false).
  { apply jstring_eqb_false. intros E. apply (quad_excludes h 58 Hsym eq_refl).
    rewrite E. vm_compute. tauto. }
  assert (Hcolon : includes h (lit ":") = false).
  { destruct (includes h (lit ":")) eqn:E; [| reflexivity].
    exfalso. apply (quad_excludes h 58 Hsym eq_refl). apply includes_single, E. }
  rewrite Hlocal, Hsub, Hloop. cbn [orb].
  destruct (jstring_eqb h (lit "0.0.0.0")) eqn:Hzero.
  { apply jstring_eqb_true in Hzero. tauto. }
  assert (Hne : h <> lit "0.0.0.0").
  { intros E. rewrite E in Hzero. discriminate Hzero. }
  assert (Hlikely : isLikelyIpV4 h = true).
  { unfold isLikelyIpV4. cbv zeta. rewrite Hsplit. cbn [length Nat.eqb forallb andb].
    destruct O1 as [L1 D1], O2 as [L2 D2], O3 as [L3 D3], O4 as [L4 D4].
    rewrite D1, D2, D3, D4.
    repeat (apply andb_true_intro; split); try reflexivity; apply Nat.leb_le; lia. }
  unfold parseIpv4. rewrite Hlikely. cbn [negb]. cbv zeta. rewrite Hsplit.
  cbn [List.map length Nat.eqb negb].
  rewrite !parseInt_octet by assumption.
  set (a := decimal_value g1) in *. set (b := decimal_value g2) in *.
  set (c := decimal_value g3) in *. set (d := decimal_value g4) in *.
  assert (Hfin : forall z, 0 <= z < 1000 -> isFinite (Some z) = true).
  { intros z Hz. unfold isFinite. apply Z.ltb_lt.
    assert (1000 < 2 ^ 1024 - 2 ^ 970) by (vm_compute; reflexivity). lia. }
  cbn [forallb]. rewrite !Hfin by assumption. cbn [andb].
  unfold private_range.
  destruct (Z.leb_spec a 255) as [Ha | Ha];
    destruct (Z.leb_spec b 255) as [Hb | Hb];
    destruct (Z.leb_spec c 255) as [Hc | Hc];
    destruct (Z.leb_spec d 255) as [Hd | Hd];
    repeat match goal with
           | |- context [?x <? 0] => replace (x <? 0) with false by lia
           | |- context [?x >? 255] =>
               first [replace (x >? 255) with false by lia
                     | replace (x >? 255) with true by lia]
           end;
    cbn [negb andb];
    try (rewrite Hcolon; split;
         [discriminate
         | intros [E | [Hall _]]; [contradiction |];
           repeat match goal with
                  | H : Forall _ (_ :: _) |- _ => apply Forall_cons_1 in H as [? H]
                  end; lia]).
  cbn [lookup list_lookup mbind option_bind id jeq].
  destruct (Z.eqb_spec a 127); [split; [intros _; right | reflexivity] |].
  { split; [repeat constructor; assumption | lia]. }
  destruct (Z.eqb_spec a 10); [split; [intros _; right | reflexivity] |].
  { split; [repeat constructor; assumption | lia]. }
  destruct (Z.eqb_spec a 192); destruct (Z.eqb_spec b 168); cbn [andb];
    try (split; [intros _; right; split; [repeat constructor; assumption | lia]
                | reflexivity]);
  (destruct (Z.eqb_spec a 172); cbn [andb];
   [ destruct (Z.geb_spec b 16); destruct (Z.leb_spec b 31); cbn [andb] | ];
   try (split; [intros _; right; split; [repeat constructor; assumption | lia]
               | reflexivity]);
   (destruct (Z.eqb_spec a 169); destruct (Z.eqb_spec b 254); cbn [andb];
    try (split; [intros _; right; split; [repeat constructor; assumption | lia]
                | reflexivity]);
    (split; [discriminate | intros [E | [_ Hr]]; [contradiction | lia]]))).
Qed.

Lemma isPrivateIp_dotted_witness :
  isPrivateIp (dotted (lit "172") (lit "31") (lit "255") (lit "1")) = true
  <-> dotted (lit "172") (lit "31") (lit "255") (lit "1") = lit "0.0.0.0"
      \/ (Forall (fun g => decimal_value g <= 255)
            [lit "172"; lit "31"; lit "255"; lit "1"]
          /\ private_range (decimal_value (lit "172")) (decimal_value (lit "31"))).
Proof.
  apply isPrivateIp_dotted; (split; [cbn; lia | reflexivity]).
Defined.

(** ** The normalizer *)
Section NormalizerFacts.
Import Normalizer.

Lemma nonblank_text_some (s : option jstring) (t : jstring) :
  nonblank_text s = Some t -> s = Some t /\ trim t <> [].
Proof.
  destruct s as [s |]; [| discriminate]. cbn. unfold nonblank.
  destruct (jstring_eqb (trim s) []) eqn:E; cbn [negb]; [discriminate |].
  intros H. injection H as <-. split; [reflexivity |].
  intros Hs. rewrite Hs in E. discriminate E.
Qed.

Lemma extractImagePart_nonblank (item : option JSON) (u : jstring) (d : option jstring) :
  extractImagePart item = Some (u, d) -> trim u <> [].
Proof.
  unfold extractImagePart. destruct (negb (isRecord item)); [discriminate |].
  cbv zeta. destruct (negb _); [discriminate |].
  destruct (nonblank_text (asString (Main.opt_get item (lit "image_url")))) as [s |] eqn:E1.
  { intros H. injection H as <- _. exact (proj2 (nonblank_text_some _ _ E1)). }
  destruct (isRecord (Main.opt_get item (lit "image_url"))).
  - destruct (nonblank_text (asString (Main.opt_get _ (lit "url")))) as [url |] eqn:E2.
    { intros H. injection H as <- _. exact (proj2 (nonblank_text_some _ _ E2)). }
    destruct (nonblank_text (or_else _ _)) as [url |] eqn:E3.
    { intros H. injection H as <- _. exact (proj2 (nonblank_text_some _ _ E3)). }
    destruct (nonblank_text
                (asString (Main.opt_get (Main.opt_get item (lit "image_url"))
                             (lit "image_url"))))
      as [nested |] eqn:E4; intros H; [| discriminate H].
    injection H as <- _. exact (proj2 (nonblank_text_some _ _ E4)).
  - destruct (nonblank_text (or_else _ _)) as [url |] eqn:E3; intros H;
      [| discriminate H].
    injection H as <- _. exact (proj2 (nonblank_text_some _ _ E3)).
Qed.

Lemma part_of_tail_nonblank (item : option JSON) :
  Forall part_nonblank
    match nonblank_text (extractTextPart item) with
    | Some text => [text_part text]
    | None => match extractImagePart item with
              | Some (url, detail) => [image_part url detail]
              | None => []
              end
    end.
Proof.
  destruct (nonblank_text (extractTextPart item)) as [text |] eqn:E.
  - apply Forall_cons_2; [| apply Forall_nil_2].
    exact (proj2 (nonblank_text_some _ _ E)).
  - destruct (extractImagePart item) as [[url detail] |] eqn:E'; [| apply Forall_nil_2].
    apply Forall_cons_2; [| apply Forall_nil_2].
    exact (extractImagePart_nonblank _ _ _ E').
Qed.

Lemma part_of_nonblank (item : option JSON) : Forall part_nonblank (part_of item).
Proof.
  unfold part_of. destruct item as [[| b | n | s | items | fields] |];
    try apply part_of_tail_nonblank.
  unfold nonblank. destruct (jstring_eqb (trim s) []) eqn:E; cbn [negb];
    [apply Forall_nil_2 |].
  apply Forall_cons_2; [| apply Forall_nil_2].
  cbn. intros Hs. rewrite Hs in E. discriminate E.
Qed.

Lemma normalizeContentToParts_nonblank (content : option JSON) :
  Forall part_nonblank (normalizeContentToParts content).
Proof.
  unfold normalizeContentToParts.
  destruct content as [[| b | n | s | items | fields] |]; try apply part_of_nonblank.
  - destruct (jstring_eqb (trim s) []) eqn:E; [apply Forall_nil_2 |].
    apply Forall_cons_2; [| apply Forall_nil_2].
    cbn. intros Hs. rewrite Hs in E. discriminate E.
  - induction items as [| item items IH]; [apply Forall_nil_2 |].
    cbn [flat_map]. apply Forall_app_2; [apply part_of_nonblank | exact IH].
Qed.

Lemma normalizeMessage_nonblank (m : JSON) :
  Forall part_nonblank (parts (normalizeMessage m)).
Proof.
  unfold normalizeMessage. destruct (negb (isRecord (Some m))); cbn [parts].
  - apply Forall_nil_2.
  - apply normalizeContentToParts_nonblank.
Qed.

End NormalizerFacts.

(** X27. What [normalizeChatRequest] accepts and what it keeps.  It
    fails exactly when the body is no object, or its [messages] is no
    array; otherwise it returns one message for every raw message, in
    order, and no part of any message is blank: every text and every image
    reference kept is non-empty once trimmed. *)
Theorem normalizeChatRequest_parts (input : JSON) :
  match Normalizer.normalizeChatRequest input with
  | inl Normalizer.ExpectedObject => Normalizer.isRecord (Some input) = false
  | inl Normalizer.MessagesNotArray =>
      exists fields : list (jstring * JSON),
        input = JObj fields
        /\ forall raw, Main.field fields (lit "messages") <> Some (JArr raw)
  | inr r =>
      exists (fields : list (jstring * JSON)) (raw : list JSON),
        input = JObj fields
        /\ Main.field fields (lit "messages") = Some (JArr raw)
        /\ List.map Normalizer.role (Normalizer.messages r)
           = List.map (fun m => Normalizer.role (Normalizer.normalizeMessage m)) raw
        /\ Forall (fun m => Forall Normalizer.part_nonblank (Normalizer.parts m))
             (Normalizer.messages r)
  end.
Proof.
  unfold Normalizer.normalizeChatRequest.
  destruct input as [| b | n | s | items | fields]; try reflexivity.
  destruct (Main.field fields (lit "messages")) as [[| b | n | s | raw | o] |] eqn:E;
    try (exists fields; split; [reflexivity | intros raw; rewrite E; discriminate]).
  exists fields, raw. split; [reflexivity |]. split; [exact E |].
  cbn [Normalizer.messages]. split; [apply map_map |].
  apply Forall_map. apply Forall_forall. intros m _. apply normalizeMessage_nonblank.
Qed.

Section InjectFacts.
Import Normalizer.

Lemma field_set_field_same (fields : list (jstring * JSON)) (k : jstring) (v : JSON) :
  Main.field (set_field fields k v) k = Some v.
Proof.
  induction fields as [| [k' old] fields IH]; cbn [set_field Main.field].
  - rewrite (bool_decide_eq_true_2 _ eq_refl : jstring_eqb k k = true). reflexivity.
  - destruct (jstring_eqb k' k) eqn:E; cbn [Main.field]; rewrite E; [reflexivity | exact IH].
Qed.

Lemma field_set_field_other (fields : list (jstring * JSON)) (k k' : jstring) (v : JSON) :
  k <> k' -> Main.field (set_field fields k v) k' = Main.field fields k'.
Proof.
  intros Hne. induction fields as [| [k0 old] fields IH]; cbn [set_field Main.field].
  - rewrite (jstring_eqb_false k k' Hne). reflexivity.
  - destruct (jstring_eqb k0 k) eqn:E; cbn [Main.field].
    + apply jstring_eqb_true in E. subst k0.
      rewrite (jstring_eqb_false k k' Hne). reflexivity.
    + rewrite IH. reflexivity.
Qed.

Lemma part_of_image_item (u : jstring) :
  part_of (Some (image_item u)) = if nonblank u then [image_part u None] else [].
Proof.
  unfold part_of, image_item. cbv -[nonblank]. destruct (nonblank u); reflexivity.
Qed.

Lemma parts_of_image_items (urls : list jstring) :
  flat_map (fun item => part_of (Some item)) (List.map image_item urls)
  = injected_parts urls.
Proof.
  unfold injected_parts. induction urls as [| u urls IH]; [reflexivity |].
  cbn [List.map flat_map List.filter]. rewrite part_of_image_item, IH.
  destruct (nonblank u); reflexivity.
Qed.

Lemma part_of_text_item (s : jstring) :
  part_of (Some (JObj [(lit "type", JStr (lit "text")); (lit "text", JStr s)]))
  = if nonblank s then [text_part s] else [].
Proof.
  unfold part_of. cbv -[nonblank]. destruct (nonblank s); reflexivity.
Qed.

Lemma contentArr_parts (current : option JSON) :
  flat_map (fun item => part_of (Some item)) (contentArr current)
  = normalizeContentToParts current.
Proof.
  destruct current as [[| b | n | s | items | fields] |];
    cbn [contentArr flat_map normalizeContentToParts]; rewrite ?app_nil_r;
    try reflexivity.
  rewrite part_of_text_item. unfold nonblank.
  destruct (jstring_eqb (trim s) []); reflexivity.
Qed.

Lemma normalizeMessage_changed (msg : list (jstring * JSON)) (r : jstring)
    (urls : list jstring) :
  asString (Main.field msg (lit "role")) = Some r ->
  normalizeMessage
    (JObj (set_field msg (lit "content")
             (JArr (contentArr (Main.field msg (lit "content"))
                    ++ List.map image_item urls))))
  = {| role := r;
       parts := normalizeContentToParts (Main.field msg (lit "content"))
                ++ injected_parts urls |}.
Proof.
  intros Hrole. unfold normalizeMessage. cbn [isRecord negb Main.opt_get].
  rewrite field_set_field_other by discriminate.
  rewrite field_set_field_same, Hrole. cbn [default normalizeContentToParts].
  rewrite flat_map_app, contentArr_parts, parts_of_image_items. reflexivity.
Qed.

Lemma texts_of_injected (urls : list jstring) : texts_of (injected_parts urls) = [].
Proof.
  unfold injected_parts, texts_of.
  induction (List.filter nonblank urls) as [| u l IH]; [reflexivity | exact IH].
Qed.

Lemma image_urls_of_injected (urls : list jstring) :
  image_urls_of (injected_parts urls) = List.filter nonblank urls.
Proof.
  unfold injected_parts, image_urls_of.
  induction (List.filter nonblank urls) as [| u l IH]; [reflexivity |].
  cbn [List.map omap]. cbn. f_equal. exact IH.
Qed.

Lemma filter_filter_same {A : Type} (f : A -> bool) (l : list A) :
  List.filter f (List.filter f l) = List.filter f l.
Proof.
  induction l as [| x l IH]; [reflexivity |]. cbn [List.filter].
  destruct (f x) eqn:E; [cbn [List.filter]; rewrite E, IH; reflexivity | exact IH].
Qed.

Lemma promptAndImages_injected (r : jstring) (ps : list NormalizedPart)
    (urls : list jstring) :
  promptAndImages {| role := r; parts := ps ++ injected_parts urls |}
  = (fst (promptAndImages {| role := r; parts := ps |}),
     snd (promptAndImages {| role := r; parts := ps |}) ++ List.filter nonblank urls).
Proof.
  unfold promptAndImages. cbn [parts fst snd].
  unfold texts_of at 1, image_urls_of at 1. rewrite !omap_app.
  fold (texts_of ps) (texts_of (injected_parts urls)).
  fold (image_urls_of ps) (image_urls_of (injected_parts urls)).
  rewrite texts_of_injected, image_urls_of_injected, app_nil_r.
  rewrite List.filter_app, filter_filter_same. reflexivity.
Qed.

Lemma lastUser_app (a b : list NormalizedMessage) :
  lastUser (a ++ b) = or_else (lastUser a) (lastUser b).
Proof.
  induction a as [| m a IH]; [reflexivity |].
  cbn [app lastUser]. destruct (negb _); [exact IH | reflexivity].
Qed.

Lemma lastUser_snoc (raw : list JSON) (m : JSON) :
  lastUser (rev (List.map normalizeMessage (raw ++ [m])))
  = if negb (jstring_eqb (role (normalizeMessage m)) (lit "user"))
    then lastUser (rev (List.map normalizeMessage raw))
    else Some (normalizeMessage m).
Proof. rewrite map_app, rev_app_distr. reflexivity. Qed.

Lemma lastUser_cons (raw : list JSON) (m : JSON) :
  lastUser (rev (List.map normalizeMessage (m :: raw)))
  = or_else (lastUser (rev (List.map normalizeMessage raw)))
      (if negb (jstring_eqb (role (normalizeMessage m)) (lit "user"))
       then None else Some (normalizeMessage m)).
Proof.
  cbn [List.map rev]. rewrite lastUser_app. cbn [lastUser].
  destruct (negb _); reflexivity.
Qed.

Lemma states_role_user (m : JSON) :
  states_role m ->
  isExplicitUser m = negb (negb (jstring_eqb (role (normalizeMessage m)) (lit "user"))).
Proof.
  intros (fields & r & -> & Hr). unfold isExplicitUser, normalizeMessage.
  cbn [isRecord negb andb Main.opt_get role]. rewrite Hr. cbn [default].
  rewrite negb_involutive. reflexivity.
Qed.

Lemma lastIndex_some (test : JSON -> bool) (raw : list JSON) (i : nat) :
  lastIndex test raw = Some i -> exists m, raw !! i = Some m /\ test m = true.
Proof.
  revert i. induction raw as [| m raw IH]; intros i H; [discriminate H |].
  cbn [lastIndex] in H. destruct (lastIndex test raw) as [j |].
  - injection H as <-. exact (IH j eq_refl).
  - destruct (test m) eqn:E; [| discriminate H]. injection H as <-.
    exists m. split; [reflexivity | exact E].
Qed.

Lemma isExplicitUser_record (m : JSON) :
  isExplicitUser m = true ->
  exists fields, m = JObj fields /\ asString (Main.field fields (lit "role")) = Some (lit "user").
Proof.
  unfold isExplicitUser. destruct m as [| b | n | s | items | fields]; try discriminate.
  cbn [isRecord andb Main.opt_get].
  destruct (asString (Main.field fields (lit "role"))) as [r |] eqn:E; [| discriminate].
  intros H. apply jstring_eqb_true in H. subst r. exists fields.
  split; [reflexivity | exact E].
Qed.

(** The message that the injection changes is the one that the extraction
    reads, when every message states its role. *)
Lemma lastIndex_lastUser (raw : list JSON) :
  Forall states_role raw ->
  match lastIndex isExplicitUser raw with
  | None => lastUser (rev (List.map normalizeMessage raw)) = None
  | Some idx =>
      exists m,
        raw !! idx = Some m
        /\ isExplicitUser m = true
        /\ lastUser (rev (List.map normalizeMessage raw)) = Some (normalizeMessage m)
        /\ forall changed : JSON,
             role (normalizeMessage changed) = lit "user" ->
             lastUser (rev (List.map normalizeMessage (<[idx := changed]> raw)))
             = Some (normalizeMessage changed)
  end.
Proof.
  induction 1 as [| m raw Hm Hall IH]; [reflexivity |].
  cbn [lastIndex]. destruct (lastIndex isExplicitUser raw) as [j |].
  - destruct IH as (x & Hx & Hu & Hlast & Hchanged).
    exists x. split; [exact Hx |]. split; [exact Hu |]. split.
    + rewrite lastUser_cons, Hlast. reflexivity.
    + intros changed Hc.
      change (<[S j := changed]> (m :: raw)) with (m :: <[j := changed]> raw).
      rewrite lastUser_cons, (Hchanged changed Hc). reflexivity.
  - rewrite lastUser_cons, IH. cbn [or_else].
    rewrite (states_role_user m Hm).
    destruct (negb (jstring_eqb (role (normalizeMessage m)) (lit "user"))) eqn:E;
      cbn [negb]; [reflexivity |].
    exists m. split; [reflexivity |]. split.
    { rewrite (states_role_user m Hm), E. reflexivity. }
    split; [reflexivity |].
    intros changed Hc.
    change (<[0%nat := changed]> (m :: raw)) with (changed :: raw).
    rewrite lastUser_cons, IH. cbn [or_else]. rewrite Hc. reflexivity.
Qed.

Lemma normalizeChatRequest_messages (fields : list (jstring * JSON)) (raw : list JSON) :
  Main.field fields (lit "messages") = Some (JArr raw) ->
  normalizeChatRequest (JObj fields)
  = inr {| model := asString (Main.field fields (lit "model"));
           size := asString (Main.field fields (lit "size"));
           stream := match Main.field fields (lit "stream") with
                     | Some (JBool true) => true
                     | _ => false
                     end;
           messages := List.map normalizeMessage raw;
           extra := fields |}.
Proof. intros H. unfold normalizeChatRequest. rewrite H. reflexivity. Qed.

Lemma normalizeChatRequest_set_messages (fields : list (jstring * JSON))
    (raw' : list JSON) :
  exists r' : NormalizedChatRequest,
    normalizeChatRequest (JObj (set_field fields (lit "messages") (JArr raw'))) = inr r'
    /\ messages r' = List.map normalizeMessage raw'
    /\ model r' = asString (Main.field fields (lit "model"))
    /\ size r' = asString (Main.field fields (lit "size"))
    /\ stream r' = match Main.field fields (lit "stream") with
                   | Some (JBool true) => true
                   | _ => false
                   end.
Proof.
  eexists. split.
  - apply normalizeChatRequest_messages. apply field_set_field_same.
  - cbn [messages model size stream].
    rewrite !field_set_field_other by discriminate. repeat split.
Qed.

Lemma pushed_message (urls : list jstring) :
  normalizeMessage (JObj [(lit "role", JStr (lit "user"));
                          (lit "content", JArr (List.map image_item urls))])
  = {| role := lit "user"; parts := injected_parts urls |}.
Proof.
  unfold normalizeMessage. cbn [isRecord negb].
  change (Main.opt_get (Some (JObj [(lit "role", JStr (lit "user"));
                                    (lit "content", JArr (List.map image_item urls))]))
            (lit "role")) with (Some (JStr (lit "user"))).
  change (Main.opt_get (Some (JObj [(lit "role", JStr (lit "user"));
                                    (lit "content", JArr (List.map image_item urls))]))
            (lit "content")) with (Some (JArr (List.map image_item urls))).
  cbn [asString default normalizeContentToParts].
  rewrite parts_of_image_items. reflexivity.
Qed.

End InjectFacts.

Section InjectOrder.
Import Normalizer.

Lemma lastIndex_snoc (test : JSON -> bool) (earlier : list JSON) (last : JSON) :
  test last = false -> lastIndex test (earlier ++ [last]) = lastIndex test earlier.
Proof.
  intros Hlast. induction earlier as [| m earlier IH]; cbn [app lastIndex].
  - rewrite Hlast. reflexivity.
  - rewrite IH. reflexivity.
Qed.

Lemma lastIndex_exists (test : JSON -> bool) (l : list JSON) :
  existsb test l = true -> exists i, lastIndex test l = Some i.
Proof.
  induction l as [| m l IH]; [discriminate |]. cbn [existsb lastIndex]. intros H.
  destruct (lastIndex test l) as [j |]; [exists (S j); reflexivity |].
  destruct (test m); [exists 0%nat; reflexivity |].
  cbn [orb] in H. destruct (IH H) as [i Hi]. discriminate Hi.
Qed.

Lemma silent_user_role (m : JSON) :
  silent_user m -> role (normalizeMessage m) = lit "user" /\ isExplicitUser m = false.
Proof.
  unfold silent_user, normalizeMessage, isExplicitUser. intros H.
  destruct (isRecord (Some m)); cbn [negb andb role]; rewrite ?H; split; reflexivity.
Qed.

End InjectOrder.

(** X28. Images injected into a request arrive with the prompt.  For a
    body whose messages all state their role, and at least one uploaded
    reference, normalizing the body after
    [injectImagesIntoLastUserMessage] and extracting the last user message
    gives the prompt of the body as it was, and its images followed by the
    uploaded references that are not blank; the model, the size and the
    stream flag are those of the body. *)
Theorem injectImages_then_extract (fields : list (jstring * JSON)) (raw : list JSON)
    (dataUrls : list jstring) :
  Main.field fields (lit "messages") = Some (JArr raw) ->
  Forall Normalizer.states_role raw ->
  dataUrls <> [] ->
  exists r r' : Normalizer.NormalizedChatRequest,
    Normalizer.normalizeChatRequest (JObj fields) = inr r
    /\ Normalizer.normalizeChatRequest
         (Normalizer.injectImagesIntoLastUserMessage (JObj fields) dataUrls) = inr r'
    /\ Normalizer.extractLastUserPromptAndImages (Normalizer.messages r')
       = (fst (Normalizer.extractLastUserPromptAndImages (Normalizer.messages r)),
          snd (Normalizer.extractLastUserPromptAndImages (Normalizer.messages r))
          ++ List.filter Normalizer.nonblank dataUrls)
    /\ Normalizer.model r' = Normalizer.model r
    /\ Normalizer.size r' = Normalizer.size r
    /\ Normalizer.stream r' = Normalizer.stream r.
Proof.
  intros Hmessages Hall Hurls.
  eexists. 
  assert (Hinject : exists raw',
             Normalizer.injectImagesIntoLastUserMessage (JObj fields) dataUrls
             = JObj (Normalizer.set_field fields (lit "messages") (JArr raw'))
             /\ Normalizer.extractLastUserPromptAndImages
                  (List.map Normalizer.normalizeMessage raw')
                = (fst (Normalizer.extractLastUserPromptAndImages
                          (List.map Normalizer.normalizeMessage raw)),
                   snd (Normalizer.extractLastUserPromptAndImages
                          (List.map Normalizer.normalizeMessage raw))
                   ++ List.filter Normalizer.nonblank dataUrls)).
  { unfold Normalizer.injectImagesIntoLastUserMessage. rewrite Hmessages.
    destruct dataUrls as [| u urls]; [contradiction Hurls; reflexivity |].
    cbn [length Nat.eqb]. set (dataUrls := u :: urls) in *.
    pose proof (lastIndex_lastUser raw Hall) as Hl.
    destruct (Normalizer.lastIndex Normalizer.isExplicitUser raw) as [idx |].
    - destruct Hl as (m & Hm & Hu & Hlast & Hchanged).
      apply isExplicitUser_record in Hu as (msg & -> & Hrole).
      rewrite Hm. cbv zeta. eexists. split; [reflexivity |].
      unfold Normalizer.extractLastUserPromptAndImages.
      rewrite Hchanged
        by (rewrite (normalizeMessage_changed msg (lit "user") dataUrls Hrole); reflexivity).
      rewrite Hlast, (normalizeMessage_changed msg (lit "user") dataUrls Hrole).
      rewrite promptAndImages_injected.
      unfold Normalizer.normalizeMessage at 1 2.
      cbn [Normalizer.isRecord negb Main.opt_get]. rewrite Hrole. reflexivity.
    - eexists. split; [reflexivity |].
      unfold Normalizer.extractLastUserPromptAndImages.
      rewrite lastUser_snoc, pushed_message, Hl.
      cbn [Normalizer.role].
      change (jstring_eqb (lit "user") (lit "user")) with true. cbn [negb].
      change (Normalizer.injected_parts dataUrls)
        with ([] ++ Normalizer.injected_parts dataUrls).
      rewrite (promptAndImages_injected (lit "user") [] dataUrls). reflexivity. }
  destruct Hinject as (raw' & -> & Hextract).
  destruct (normalizeChatRequest_set_messages fields raw')
    as (r' & Hr' & Hmsgs & Hmodel & Hsize & Hstream).
  exists r'. split; [apply (normalizeChatRequest_messages fields raw Hmessages) |].
  split; [exact Hr' |].
  cbn [Normalizer.messages Normalizer.model Normalizer.size Normalizer.stream].
  rewrite Hmsgs. repeat split; assumption.
Qed.

(** X29. Images injected behind a message without role are lost.  The
    injection looks for the last message whose [role] is the string
    ["user"], the extraction also takes a message without a string [role]
    for a user message.  So when the last message states no role and an
    earlier one is a user message, the uploaded references go into the
    earlier message, and the prompt and images extracted afterwards are
    those of the last message, as if nothing had been uploaded. *)
Theorem injectImages_behind_silent_user (fields : list (jstring * JSON))
    (earlier : list JSON) (last : JSON) (dataUrls : list jstring) :
  Main.field fields (lit "messages") = Some (JArr (earlier ++ [last])) ->
  existsb Normalizer.isExplicitUser earlier = true ->
  Normalizer.silent_user last ->
  dataUrls <> [] ->
  exists r r' : Normalizer.NormalizedChatRequest,
    Normalizer.normalizeChatRequest (JObj fields) = inr r
    /\ Normalizer.normalizeChatRequest
         (Normalizer.injectImagesIntoLastUserMessage (JObj fields) dataUrls) = inr r'
    /\ Normalizer.injectImagesIntoLastUserMessage (JObj fields) dataUrls <> JObj fields
    /\ Normalizer.extractLastUserPromptAndImages (Normalizer.messages r')
       = Normalizer.promptAndImages (Normalizer.normalizeMessage last)
    /\ Normalizer.extractLastUserPromptAndImages (Normalizer.messages r)
       = Normalizer.promptAndImages (Normalizer.normalizeMessage last).
Proof.
  intros Hmessages Hexists Hsilent Hurls.
  destruct (silent_user_role last Hsilent) as [Hrole Hnot].
  destruct (lastIndex_exists _ _ Hexists) as [idx Hidx].
  destruct (lastIndex_some _ _ _ Hidx) as (m & Hm & Hu).
  apply isExplicitUser_record in Hu as (msg & -> & Hmsg).
  assert (Hlt : (idx < length earlier)%nat) by (apply (lookup_lt_Some _ _ _ Hm)).
  set (changed := JObj (Normalizer.set_field msg (lit "content")
                          (JArr (Normalizer.contentArr (Main.field msg (lit "content"))
                                 ++ List.map Normalizer.image_item dataUrls)))).
  assert (Hinject : Normalizer.injectImagesIntoLastUserMessage (JObj fields) dataUrls
                    = JObj (Normalizer.set_field fields (lit "messages")
                              (JArr (<[idx := changed]> earlier ++ [last])))).
  { unfold Normalizer.injectImagesIntoLastUserMessage. rewrite Hmessages.
    destruct dataUrls as [| u urls]; [contradiction Hurls; reflexivity |].
    cbn [length Nat.eqb].
    rewrite (lastIndex_snoc _ earlier last Hnot), Hidx.
    rewrite (lookup_app_l earlier [last] idx Hlt), Hm. cbv zeta.
    rewrite (insert_app_l earlier [last] idx _ Hlt). reflexivity. }
  assert (Hlast : forall l, Normalizer.extractLastUserPromptAndImages
                              (List.map Normalizer.normalizeMessage (l ++ [last]))
                            = Normalizer.promptAndImages (Normalizer.normalizeMessage last)).
  { intros l. unfold Normalizer.extractLastUserPromptAndImages.
    rewrite lastUser_snoc, Hrole.
    change (jstring_eqb (lit "user") (lit "user")) with true. reflexivity. }
  destruct (normalizeChatRequest_set_messages fields (<[idx := changed]> earlier ++ [last]))
    as (r' & Hr' & Hmsgs & _).
  eexists. exists r'.
  split; [apply (normalizeChatRequest_messages fields _ Hmessages) |].
  rewrite Hinject. split; [exact Hr' |]. split.
  - intros Heq. injection Heq as Heq.
    assert (Hf : Main.field (Normalizer.set_field fields (lit "messages")
                               (JArr (<[idx := changed]> earlier ++ [last])))
                   (lit "messages") = Some (JArr (earlier ++ [last])))
      by (rewrite Heq; exact Hmessages).
    rewrite field_set_field_same in Hf. injection Hf as Hf.
    apply app_inv_tail in Hf.
    assert (Hc : <[idx := changed]> earlier !! idx = Some changed)
      by (apply list_lookup_insert_eq; exact Hlt).
    rewrite Hf, Hm in Hc. injection Hc as Hc.
    assert (Hcontent : Main.field msg (lit "content")
                       = Some (JArr (Normalizer.contentArr (Main.field msg (lit "content"))
                                     ++ List.map Normalizer.image_item dataUrls))).
    { rewrite Hc at 1. apply field_set_field_same. }
    destruct (Main.field msg (lit "content")) as [[| b | n | s | items | o] |];
      try discriminate Hcontent.
    injection Hcontent as Hcontent. cbn [Normalizer.contentArr] in Hcontent.
    apply (f_equal (@length JSON)) in Hcontent.
    rewrite length_app, length_map in Hcontent.
    destruct dataUrls; [contradiction Hurls; reflexivity | cbn in Hcontent; lia].
  - rewrite Hmsgs. cbn [Normalizer.messages]. split; apply Hlast.
Qed.

Section NormalizerWitnesses.
Import Normalizer NormalizerExamples.

Lemma states_role_examples : Forall states_role [system_message; user_message].
Proof.
  apply Forall_cons_2; [| apply Forall_cons_2; [| apply Forall_nil_2]].
  - eexists _, (lit "system"). split; reflexivity.
  - eexists _, (lit "user"). split; reflexivity.
Defined.

Lemma injectImages_then_extract_witness :
  exists r r' : NormalizedChatRequest,
    normalizeChatRequest (chat_body [system_message; user_message]) = inr r
    /\ normalizeChatRequest
         (injectImagesIntoLastUserMessage (chat_body [system_message; user_message])
            uploaded) = inr r'
    /\ extractLastUserPromptAndImages (messages r')
       = (fst (extractLastUserPromptAndImages (messages r)),
          snd (extractLastUserPromptAndImages (messages r))
          ++ List.filter nonblank uploaded)
    /\ model r' = model r /\ size r' = size r /\ stream r' = stream r.
Proof.
  apply (injectImages_then_extract _ [system_message; user_message] uploaded).
  - reflexivity.
  - exact states_role_examples.
  - discriminate.
Defined.

Lemma injectImages_behind_silent_user_witness :
  exists r r' : NormalizedChatRequest,
    normalizeChatRequest (chat_body ([user_message] ++ [unsigned_message])) = inr r
    /\ normalizeChatRequest
         (injectImagesIntoLastUserMessage
            (chat_body ([user_message] ++ [unsigned_message])) uploaded) = inr r'
    /\ injectImagesIntoLastUserMessage
         (chat_body ([user_message] ++ [unsigned_message])) uploaded
       <> chat_body ([user_message] ++ [unsigned_message])
    /\ extractLastUserPromptAndImages (messages r')
       = promptAndImages (normalizeMessage unsigned_message)
    /\ extractLastUserPromptAndImages (messages r)
       = promptAndImages (normalizeMessage unsigned_message).
Proof.
  apply (injectImages_behind_silent_user _ [user_message] unsigned_message uploaded).
  - reflexivity.
  - reflexivity.
  - reflexivity.
  - discriminate.
Defined.

End NormalizerWitnesses.

(** ** Uploaded files *)
Section UploadFacts.

Lemma toLowerCase_in (s : jstring) (c : Z) :
  (c < 97 \/ 122 < c) -> In c (toLowerCase s) -> In c s.
Proof.
  intros Hc Hin. unfold toLowerCase in Hin. apply in_map_iff in Hin as (d & Hd & Hin).
  destruct ((65 <=? d) && (d <=? 90)) eqn:E; [lia | subst d; exact Hin].
Qed.

Lemma trimStart_in (s : jstring) (c : Z) : In c (trimStart s) -> In c s.
Proof.
  induction s as [| d s IH]; [intros []|]. cbn [trimStart].
  destruct (is_js_space d); [intros H; right; exact (IH H) | intros H; exact H].
Qed.

Lemma trim_in (s : jstring) (c : Z) : In c (trim s) -> In c s.
Proof.
  unfold trim. intros H. apply in_rev, trimStart_in, in_rev, trimStart_in in H. exact H.
Qed.

Lemma take_in {A : Type} (n : nat) (l : list A) (x : A) : In x (take n l) -> In x l.
Proof.
  intros H. rewrite <- (take_drop n l). apply in_or_app. left. exact H.
Qed.

Lemma indexOf_take (s : jstring) (c : Z) (i : nat) :
  indexOf s c = Some i -> indexOf (take i s) c = None.
Proof.
  revert i. induction s as [| d s IH]; intros i H; [discriminate H |].
  cbn [indexOf] in H. destruct (d =? c) eqn:E.
  - injection H as <-. reflexivity.
  - destruct (indexOf s c) as [j |]; [| discriminate H]. injection H as <-.
    cbn [take firstn indexOf]. rewrite E, (IH j eq_refl). reflexivity.
Qed.

Lemma trimStart_app_plain (a : jstring) (c : Z) (b : jstring) :
  is_js_space c = false -> exists y, trimStart (a ++ c :: b) = y ++ c :: b.
Proof.
  intros Hc. induction a as [| d a [y IH]].
  - exists []. cbn. rewrite Hc. reflexivity.
  - cbn [app trimStart]. destruct (is_js_space d).
    + exists y. exact IH.
    + exists (d :: a). reflexivity.
Qed.

Lemma trim_image_prefix (s : jstring) :
  startsWith s (lit "image/") = true ->
  startsWith (toLowerCase (trim s)) (lit "image/") = true.
Proof.
  intros H. apply startsWith_true in H as [t ->].
  unfold trim. change (trimStart (lit "image/" ++ t)) with (lit "image/" ++ t).
  rewrite rev_app_distr.
  change (rev (lit "image/")) with (47 :: rev (lit "image")).
  destruct (trimStart_app_plain (rev t) 47 (rev (lit "image")) eq_refl) as [y ->].
  rewrite rev_app_distr. cbn [rev app]. rewrite <- !app_assoc. cbn [app].
  unfold toLowerCase. reflexivity.
Qed.

Lemma slice_from_0 (s : jstring) (i : nat) : slice s 0 i = take i s.
Proof. unfold slice. destruct i; reflexivity. Qed.

Lemma normalizeMime_plain (t : jstring) :
  indexOf t 44 = None ->
  indexOf (RequestParser.normalizeMime (Some t)) 44 = None
  /\ indexOf (RequestParser.normalizeMime (Some t)) 59 = None.
Proof.
  intros Hcomma. unfold RequestParser.normalizeMime. cbn [default]. unfold id. cbv zeta.
  assert (Hv : ~ In 44 (toLowerCase (trim t))).
  { intros H. apply toLowerCase_in in H; [| lia]. apply trim_in in H.
    apply indexOf_none_notin in Hcomma. contradiction. }
  destruct (indexOf (toLowerCase (trim t)) 59) as [semi |] eqn:E.
  - rewrite slice_from_0. split.
    + apply indexOf_none_notin. intros H. apply Hv. exact (take_in _ _ _ H).
    + exact (indexOf_take _ _ _ E).
  - split; [apply indexOf_none_notin; exact Hv | exact E].
Qed.

End UploadFacts.

(** X30. An uploaded image survives the way to the handler.  When
    [fileToDataUrl] accepts a file whose declared type has no comma, the
    reference it returns resolves, without any fetch, to exactly the bytes
    of the file, as long as the ceiling of the resolver is not below the
    one of the upload. *)
Theorem fileToDataUrl_resolves (URL_parse : jstring -> option URL)
    (file : RequestParser.File) (uploadMax : Z) (options : ResolveImageOptions)
    (w : World) (reference : jstring) :
  RequestParser.fileToDataUrl file uploadMax = inr reference ->
  indexOf (RequestParser.type file) 44 = None ->
  uploadMax <= default (10 * 1024 * 1024) (maxBytes options) ->
  let mime := toLowerCase (trim (RequestParser.normalizeMime
                                   (Some (RequestParser.type file)))) in
  resolveImage URL_parse reference options w
  = (Ok {| ImageResolver.url := reference;
           mime := mime;
           bytes := RequestParser.content file;
           base64 := encodeBase64 (RequestParser.content file);
           dataUrl := lit "data:" ++ mime ++ lit ";base64,"
                      ++ encodeBase64 (RequestParser.content file);
           ImageResolver.size := Z.of_nat (length (RequestParser.content file)) |},
     after w [EvResolveImage reference]).
Proof.
  intros Hfile Hcomma Hmax mime.
  unfold RequestParser.fileToDataUrl in Hfile. cbv zeta in Hfile.
  destruct (negb (startsWith _ _)) eqn:Himg; [discriminate Hfile |].
  apply negb_false_iff in Himg.
  destruct (_ >? uploadMax) eqn:Hsize; [discriminate Hfile |].
  injection Hfile as <-.
  destruct (normalizeMime_plain _ Hcomma) as [Hc Hs].
  apply (resolveImage_encoded URL_parse); try assumption.
  - apply trim_image_prefix, Himg.
  - rewrite Z.gtb_ltb in Hsize. apply Z.ltb_ge in Hsize. lia.
Qed.

Lemma fileToDataUrl_resolves_witness :
  resolveImage Examples.example_URL_parse (lit "data:image/png;base64,iVBORw==")
    Examples.default_options Examples.world_idle
  = (Ok {| ImageResolver.url := lit "data:image/png;base64,iVBORw==";
           mime := lit "image/png";
           bytes := [x89; x50; x4e; x47];
           base64 := lit "iVBORw==";
           dataUrl := lit "data:image/png;base64,iVBORw==";
           ImageResolver.size := 4 |},
     after Examples.world_idle [EvResolveImage (lit "data:image/png;base64,iVBORw==")]).
Proof.
  apply (fileToDataUrl_resolves Examples.example_URL_parse
           {| RequestParser.type := lit " Image/PNG; charset=binary";
              RequestParser.content := [x89; x50; x4e; x47] |}
           1024 Examples.default_options Examples.world_idle).
  - vm_compute. reflexivity.
  - vm_compute. reflexivity.
  - vm_compute. discriminate.
Defined.
